(** * generate_from_json.js: media fetch, slide aggregation and escaping

    A shallow embedding of the slide generator script
    (scripts/generate_from_json.js and renderers/shared.js) and the
    properties its specification states about it.

    Conventions of the embedding.
    - A JavaScript string is a [string]; one character stands for one
      UTF-16 code unit below 256.  All the patterns the script searches for
      are ASCII, and no code unit outside ASCII lower-cases to an ASCII
      letter that occurs in one of them.
    - A [Buffer] is a [list byte].
    - The file system is a finite map from paths to file contents.
    - [null] and [undefined] results are [None]. *)

From Stdlib Require Import Strings.String Strings.Ascii Strings.Byte.
From Stdlib Require Import Numbers.DecimalString Numbers.DecimalNat Numbers.DecimalFacts.
From Stdlib Require Import ZArith Lia.
From stdpp Require Import base option list gmap strings.

Local Open Scope string_scope.
Local Open Scope list_scope.
Local Open Scope nat_scope.

(** ** JavaScript string primitives *)

Module JsString.

(** [s.startsWith(p)] *)
Definition startsWith (s p : string) : bool := String.prefix p s.

(** [s.includes(p)] *)
Fixpoint includes (s p : string) : bool :=
  String.prefix p s ||
  match s with
  | EmptyString => false
  | String _ s' => includes s' p
  end.

Definition is_upper (c : ascii) : bool :=
  let n := nat_of_ascii c in
  ((65 <=? n) && (n <=? 90)) ||
  ((192 <=? n) && (n <=? 222) && negb (n =? 215)).

Definition lower_char (c : ascii) : ascii :=
  if is_upper c then ascii_of_nat (nat_of_ascii c + 32) else c.

(** [s.toLowerCase()] *)
Fixpoint toLowerCase (s : string) : string :=
  match s with
  | EmptyString => EmptyString
  | String c s' => String (lower_char c) (toLowerCase s')
  end.

(** White space and line terminators below 256: TAB, LF, VT, FF, CR,
    SPACE and NBSP. *)
Definition is_space (c : ascii) : bool :=
  let n := nat_of_ascii c in
  ((9 <=? n) && (n <=? 13)) || (n =? 32) || (n =? 160).

Fixpoint trimStart (s : string) : string :=
  match s with
  | EmptyString => EmptyString
  | String c s' => if is_space c then trimStart s' else s
  end.

(** Removes trailing white space: a character is kept when it is not
    white space or when something is kept after it. *)
Fixpoint trimEnd (s : string) : string :=
  match s with
  | EmptyString => EmptyString
  | String c s' =>
      match trimEnd s' with
      | EmptyString => if is_space c then EmptyString else String c EmptyString
      | t => String c t
      end
  end.

(** [s.trim()] *)
Definition trim (s : string) : string := trimEnd (trimStart s).

(** Truthiness of a string: only the empty string is falsy. *)
Definition truthy (s : string) : bool :=
  match s with EmptyString => false | _ => true end.

(** [a || b] on strings that may be absent. *)
Definition or_else (a : option string) (b : string) : string :=
  match a with
  | Some s => if truthy s then s else b
  | None => b
  end.

End JsString.

(** ** Buffers *)

Abbreviation buffer := (list byte).

(** [buffer[i] === v]; an index out of range reads [undefined]. *)
Definition byteIs (buf : buffer) (i : nat) (v : byte) : bool :=
  match buf !! i with
  | Some b => Byte.eqb b v
  | None => false
  end.

(** [buffer.toString('utf-8', 0, n)] as far as ASCII patterns can tell:
    an ASCII byte always decodes to itself. *)
Definition bufferToString (buf : buffer) (n : nat) : string :=
  string_of_list_byte (take n buf).

Abbreviation filesystem := (gmap string buffer).

(** ** validateFileType (generate_from_json.js, lines 66-117)

    [fs.promises.stat] rejects when the file is missing, which the
    [catch] turns into [false].  [fs.promises.readFile] ignores the
    [start]/[end] options and reads the whole file. *)
Definition validateFileType (fs : filesystem) (filePath expectedType : string) : bool :=
  match fs !! filePath with
  | None => false
  | Some buf =>
      if length buf <? 4 then false
      else if String.eqb expectedType "video" then
        if byteIs buf 0 x89 && byteIs buf 1 x50 && byteIs buf 2 x4e && byteIs buf 3 x47
        then false
        else
          let text := JsString.toLowerCase (bufferToString buf (Nat.min 100 (length buf))) in
          if JsString.includes text "<!doctype" || JsString.includes text "<html"
          then false
          else if (8 <=? length buf) && byteIs buf 4 x66 && byteIs buf 5 x74
                  && byteIs buf 6 x79 && byteIs buf 7 x70
          then true
          else false
      else if String.eqb expectedType "image" then
        let isPng := byteIs buf 0 x89 && byteIs buf 1 x50 && byteIs buf 2 x4e && byteIs buf 3 x47 in
        let isJpeg := byteIs buf 0 xff && byteIs buf 1 xd8 && byteIs buf 2 xff in
        let isGif := byteIs buf 0 x47 && byteIs buf 1 x49 && byteIs buf 2 x46 && byteIs buf 3 x38 in
        if isPng || isJpeg || isGif then true else false
      else true
  end.

(** The two kinds the callers pass. *)
Definition kindName (isVideo : bool) : string :=
  if isVideo then "video" else "image".

Definition pngSignature : buffer := [x89; x50; x4e; x47].
Definition ftypMarker : buffer := [x66; x74; x79; x70].

(** The text the video branch searches for markup: the first 100 bytes,
    lower-cased. *)
Definition markupProbe (buf : buffer) : string :=
  JsString.toLowerCase (bufferToString buf (Nat.min 100 (length buf))).

Definition looksLikeMarkup (buf : buffer) : bool :=
  JsString.includes (markupProbe buf) "<!doctype" || JsString.includes (markupProbe buf) "<html".

(** ** escapeHtml (generate_from_json.js, lines 1567-1575; shared.js) *)

(** The values a slide field can hold when it reaches [escapeHtml].  A
    number is given by whether it is zero or NaN, the two falsy numbers,
    and by the string [String(v)] makes of it; an object or array by that
    string. *)
Inductive JsValue :=
| VUndefined
| VNull
| VBool (b : bool)
| VNumber (zeroOrNaN : bool) (rendered : string)
| VString (s : string)
| VObject (rendered : string).

(** Truthiness, as tested by [!text] and [a || b]. *)
Definition truthy (v : JsValue) : bool :=
  match v with
  | VUndefined | VNull => false
  | VBool b => b
  | VNumber zeroOrNaN _ => negb zeroOrNaN
  | VString s => JsString.truthy s
  | VObject _ => true
  end.

(** [String(v)] *)
Definition toString (v : JsValue) : string :=
  match v with
  | VUndefined => "undefined"
  | VNull => "null"
  | VBool b => if b then "true" else "false"
  | VNumber _ rendered => rendered
  | VString s => s
  | VObject rendered => rendered
  end.

(** [s.replace(/c/g, r)] for a one-character pattern. *)
Fixpoint replaceAllChar (c : ascii) (r : string) (s : string) : string :=
  match s with
  | EmptyString => EmptyString
  | String a s' =>
      if Ascii.eqb a c then r +:+ replaceAllChar c r s'
      else String a (replaceAllChar c r s')
  end.

Definition amp : ascii := "&"%char.
Definition lt : ascii := "<"%char.
Definition gt : ascii := ">"%char.
Definition dquote : ascii := "034"%char.
Definition squote : ascii := "'"%char.

Definition escapeHtml (text : JsValue) : string :=
  if negb (truthy text) then ""
  else
    replaceAllChar squote "&#039;"
      (replaceAllChar dquote "&quot;"
        (replaceAllChar gt "&gt;"
          (replaceAllChar lt "&lt;"
            (replaceAllChar amp "&amp;" (toString text))))).

(** The characters that can open or close a tag or an attribute value. *)
Definition markupChars : list ascii := [lt; gt; dquote; squote].

(** [a || ''] *)
Definition orEmpty (v : JsValue) : JsValue :=
  if truthy v then v else VString "".

Definition nl : string := String (ascii_of_nat 10) "".

(** The title container of the title slide (generateTitleSlideHTML, lines
    938-941), with the line breaks and the indentation of the template:
    the two places where slide text is interpolated.  [date] is
    [slide.date || '']. *)
Definition titleContainerHTML (title date : JsValue) : string :=
  let date := orEmpty date in
  "<div class=" +:+ String dquote "title-container" +:+ String dquote ">" +:+ nl +:+
  "  <h1>" +:+ escapeHtml (orEmpty title) +:+ "</h1>" +:+ nl +:+
  "  " +:+
  (if truthy date
   then "<p class=" +:+ String dquote "date" +:+ String dquote ">" +:+ escapeHtml date +:+ "</p>"
   else "") +:+ nl +:+
  "</div>".

(** Number of occurrences of a character. *)
Fixpoint countChar (c : ascii) (s : string) : nat :=
  match s with
  | EmptyString => 0
  | String a s' => (if Ascii.eqb a c then 1 else 0) + countChar c s'
  end.

(** ** URLs

    [new URL(s)] after the URL Standard, for an input without a base URL:
    the input is stripped of leading and trailing C0 controls and spaces
    and of tabs and newlines, the scheme is read, then the authority, the
    path and the query.  The model does not carry out IDNA processing: a
    host that needs it (a host with a code point above U+007F, written
    out or percent-encoded, or with a label that starts with xn--) is
    accepted as it is.  Of the URL it keeps what the script reads, the
    path and the query. *)

Module Url.

(** Splits at the first occurrence of [c]: the text before it and, when
    [c] occurs, the text after it. *)
Fixpoint splitAt (c : ascii) (s : string) : string * option string :=
  match s with
  | EmptyString => (EmptyString, None)
  | String a s' =>
      if Ascii.eqb a c then (EmptyString, Some s')
      else let (before, after) := splitAt c s' in (String a before, after)
  end.

(** [s.split(c)] *)
Fixpoint splitOn (c : ascii) (s : string) : list string :=
  match s with
  | EmptyString => [EmptyString]
  | String a s' =>
      if Ascii.eqb a c then EmptyString :: splitOn c s'
      else match splitOn c s' with
           | [] => [String a EmptyString]
           | h :: t => String a h :: t
           end
  end.

(** The pieces of [s] between the characters that satisfy [p]. *)
Fixpoint splitWhere (p : ascii -> bool) (s : string) : list string :=
  match s with
  | EmptyString => [EmptyString]
  | String a s' =>
      if p a then EmptyString :: splitWhere p s'
      else match splitWhere p s' with
           | [] => [String a EmptyString]
           | h :: t => String a h :: t
           end
  end.

Definition is_alpha (c : ascii) : bool :=
  let n := nat_of_ascii c in
  ((65 <=? n) && (n <=? 90)) || ((97 <=? n) && (n <=? 122)).

Definition is_digit (c : ascii) : bool :=
  let n := nat_of_ascii c in (48 <=? n) && (n <=? 57).

Definition is_scheme_char (c : ascii) : bool :=
  is_alpha c || is_digit c || Ascii.eqb c "+" || Ascii.eqb c "-" || Ascii.eqb c ".".

Fixpoint all_chars (p : ascii -> bool) (s : string) : bool :=
  match s with
  | EmptyString => true
  | String a s' => p a && all_chars p s'
  end.

Fixpoint any_char (p : ascii -> bool) (s : string) : bool :=
  match s with
  | EmptyString => false
  | String a s' => p a || any_char p s'
  end.

Definition hex_value (c : ascii) : option nat :=
  let n := nat_of_ascii c in
  if (48 <=? n) && (n <=? 57) then Some (n - 48)
  else if (65 <=? n) && (n <=? 70) then Some (n - 55)
  else if (97 <=? n) && (n <=? 102) then Some (n - 87)
  else None.

(** The longest prefix whose characters satisfy [p], and what follows
    it. *)
Fixpoint span (p : ascii -> bool) (s : string) : string * string :=
  match s with
  | EmptyString => (EmptyString, EmptyString)
  | String a s' =>
      if p a then let (taken, rest) := span p s' in (String a taken, rest)
      else (EmptyString, s)
  end.

Fixpoint dropWhile (p : ascii -> bool) (s : string) : string :=
  match s with
  | EmptyString => EmptyString
  | String a s' => if p a then dropWhile p s' else s
  end.

Fixpoint removeChars (p : ascii -> bool) (s : string) : string :=
  match s with
  | EmptyString => EmptyString
  | String a s' => if p a then removeChars p s' else String a (removeChars p s')
  end.

(** Without the trailing characters that satisfy [p]. *)
Fixpoint dropWhileEnd (p : ascii -> bool) (s : string) : string :=
  match s with
  | EmptyString => EmptyString
  | String a s' =>
      match dropWhileEnd p s' with
      | EmptyString => if p a then EmptyString else String a EmptyString
      | t => String a t
      end
  end.

(** A C0 control or space. *)
Definition is_c0_or_space (c : ascii) : bool := nat_of_ascii c <=? 32.

(** An ASCII tab or newline. *)
Definition is_tab_or_newline (c : ascii) : bool :=
  let n := nat_of_ascii c in (n =? 9) || (n =? 10) || (n =? 13).

(** The first two steps of the parser on its input. *)
Definition clean (input : string) : string :=
  removeChars is_tab_or_newline
    (dropWhileEnd is_c0_or_space (dropWhile is_c0_or_space input)).

(** *** Percent-encoding *)

Definition hexDigit (n : nat) : ascii :=
  ascii_of_nat (if n <? 10 then 48 + n else 55 + n).

Definition percentByte (n : nat) : string :=
  String "%" (String (hexDigit (n / 16)) (String (hexDigit (n mod 16)) "")).

(** The UTF-8 bytes of a code unit below 256. *)
Definition utf8 (c : ascii) : list nat :=
  let n := nat_of_ascii c in
  if n <? 128 then [n] else [192 + n / 64; 128 + n mod 64].

Fixpoint percentEncode (inSet : ascii -> bool) (s : string) : string :=
  match s with
  | EmptyString => EmptyString
  | String a s' =>
      (if inSet a then fold_right String.append "" (map percentByte (utf8 a))
       else String a "") +:+ percentEncode inSet s'
  end.

(** The C0 control percent-encode set: C0 controls and every code point
    above the tilde. *)
Definition inC0ControlSet (c : ascii) : bool :=
  let n := nat_of_ascii c in (n <=? 31) || (126 <? n).

Definition inQuerySet (c : ascii) : bool :=
  inC0ControlSet c || existsb (Ascii.eqb c) [" "; dquote; "#"; "<"; ">"]%char.

Definition inPathSet (c : ascii) : bool :=
  inQuerySet c || existsb (Ascii.eqb c) ["?"; "^"; "`"; "{"; "}"]%char.

(** Percent-decoding into bytes; a character that is not part of an
    escape stands for its UTF-8 bytes. *)
Fixpoint percentDecode (s : string) : list nat :=
  match s with
  | EmptyString => []
  | String a s' =>
      if Ascii.eqb a "%" then
        match s' with
        | String h (String l s'') =>
            match hex_value h, hex_value l with
            | Some x, Some y => (16 * x + y) :: percentDecode s''
            | _, _ => utf8 a ++ percentDecode s'
            end
        | _ => utf8 a ++ percentDecode s'
        end
      else utf8 a ++ percentDecode s'
  end.

(** What stands for a code unit that the strings of this model cannot
    hold, one above 255: the character SUB. *)
Definition substitute : ascii := ascii_of_nat 26.

Definition codeUnit (codePoint : nat) : ascii :=
  if codePoint <? 256 then ascii_of_nat codePoint else substitute.

(** For the first byte of a sequence of several bytes: the number of
    bytes that follow, and the range of the first of them. *)
Definition leadByte (b : nat) : option (nat * nat * nat) :=
  if (194 <=? b) && (b <=? 223) then Some (1, 128, 191)
  else if b =? 224 then Some (2, 160, 191)
  else if b =? 237 then Some (2, 128, 159)
  else if (225 <=? b) && (b <=? 239) then Some (2, 128, 191)
  else if b =? 240 then Some (3, 144, 191)
  else if (241 <=? b) && (b <=? 243) then Some (3, 128, 191)
  else if b =? 244 then Some (3, 128, 143)
  else None.

Definition isContinuation (b : nat) : bool := (128 <=? b) && (b <=? 191).

(** UTF-8 decoding without BOM.  An ill-formed sequence gives U+FFFD, a
    code point of three bytes one code unit above 255 and one of four
    bytes two of them: all written [substitute]. *)
Fixpoint utf8Decode (bytes : list nat) : string :=
  match bytes with
  | [] => EmptyString
  | b :: rest =>
      if b <? 128 then String (ascii_of_nat b) (utf8Decode rest)
      else
        match leadByte b with
        | None => String substitute (utf8Decode rest)
        | Some (following, low, high) =>
            match rest with
            | [] => String substitute EmptyString
            | b1 :: rest1 =>
                if negb ((low <=? b1) && (b1 <=? high)) then
                  String substitute (utf8Decode rest)
                else if following =? 1 then
                  String (codeUnit ((b - 192) * 64 + (b1 - 128))) (utf8Decode rest1)
                else
                  match rest1 with
                  | [] => String substitute EmptyString
                  | b2 :: rest2 =>
                      if negb (isContinuation b2) then String substitute (utf8Decode rest1)
                      else if following =? 2 then String substitute (utf8Decode rest2)
                      else
                        match rest2 with
                        | [] => String substitute EmptyString
                        | b3 :: rest3 =>
                            if negb (isContinuation b3) then
                              String substitute (utf8Decode rest2)
                            else String substitute (String substitute (utf8Decode rest3))
                        end
                  end
            end
        end
  end.

Fixpoint plusToSpace (s : string) : string :=
  match s with
  | EmptyString => EmptyString
  | String a s' => String (if Ascii.eqb a "+" then " "%char else a) (plusToSpace s')
  end.

(** Decoding of a name or a value of a query: [+] is a space, then the
    escapes are decoded and the bytes read as UTF-8. *)
Definition formDecode (s : string) : string :=
  utf8Decode (percentDecode (plusToSpace s)).

(** *** Hosts *)

Definition isForbiddenHostChar (c : ascii) : bool :=
  let n := nat_of_ascii c in
  (n =? 0) || (n =? 9) || (n =? 10) || (n =? 13) || (n =? 32) ||
  existsb (Ascii.eqb c) ["#"; "/"; ":"; "<"; ">"; "?"; "@"; "["; "\"; "]"; "^"; "|"]%char.

Definition isForbiddenDomainChar (c : ascii) : bool :=
  let n := nat_of_ascii c in
  isForbiddenHostChar c || (n <=? 31) || Ascii.eqb c "%" || (n =? 127).

Fixpoint parseDigits (radix acc : N) (s : string) : option N :=
  match s with
  | EmptyString => Some acc
  | String c s' =>
      match hex_value c with
      | Some v =>
          if (N.of_nat v <? radix)%N then parseDigits radix (radix * acc + N.of_nat v)%N s'
          else None
      | None => None
      end
  end.

(** The IPv4 number parser: decimal, octal after a leading 0, hexadecimal
    after 0x. *)
Definition ipv4Number (part : string) : option N :=
  match part with
  | EmptyString => None
  | String "0" (String x rest) =>
      if Ascii.eqb x "x" || Ascii.eqb x "X" then parseDigits 16 0 rest
      else parseDigits 8 0 (String x rest)
  | _ => parseDigits 10 0 part
  end.

(** The labels of a host, without the empty one a trailing dot makes. *)
Definition hostParts (host : string) : list string :=
  let parts := splitOn "." host in
  match last parts with
  | Some EmptyString => removelast parts
  | _ => parts
  end.

Definition endsInNumber (host : string) : bool :=
  match last (hostParts host) with
  | Some label =>
      (JsString.truthy label && all_chars is_digit label) ||
      match ipv4Number label with Some _ => true | None => false end
  | None => false
  end.

(** Whether the IPv4 parser accepts a host that ends in a number. *)
Definition ipv4Valid (host : string) : bool :=
  let parts := hostParts host in
  (length parts <=? 4) &&
  match mapM ipv4Number parts with
  | Some numbers =>
      forallb (fun n => (n <=? 255)%N) (removelast numbers) &&
      match last numbers with
      | Some n => (n <? 256 ^ N.of_nat (5 - length numbers))%N
      | None => false
      end
  | None => false
  end.

(** Up to [n] hexadecimal digits, and what follows them. *)
Fixpoint takeHex (n : nat) (s : string) : string * string :=
  match n, s with
  | S n', String a s' =>
      match hex_value a with
      | Some _ => let (digits, rest) := takeHex n' s' in (String a digits, rest)
      | None => (EmptyString, s)
      end
  | _, _ => (EmptyString, s)
  end.

(** The IPv4 address that can end an IPv6 address: four decimal numbers
    up to 255, without leading zeros. *)
Definition ipv4InIpv6 (s : string) : bool :=
  let parts := splitOn "." s in
  (length parts =? 4) &&
  forallb (fun part =>
             JsString.truthy part && all_chars is_digit part &&
             (String.eqb part "0" || negb (String.prefix "0" part)) &&
             match parseDigits 10 0 part with
             | Some n => (n <=? 255)%N
             | None => false
             end) parts.

(** The main loop of the IPv6 parser: [pieceIndex] pieces have been read,
    and [compressed] tells whether the double colon has been met. *)
Fixpoint ipv6Loop (fuel pieceIndex : nat) (compressed : bool) (s : string) : bool :=
  match fuel with
  | 0 => false
  | S fuel' =>
      match s with
      | EmptyString => compressed || (pieceIndex =? 8)
      | String a s' =>
          if pieceIndex =? 8 then false
          else if Ascii.eqb a ":" then
            if compressed then false else ipv6Loop fuel' (S pieceIndex) true s'
          else
            let (digits, rest) := takeHex 4 s in
            match rest with
            | EmptyString => compressed || (S pieceIndex =? 8)
            | String b rest' =>
                if Ascii.eqb b "." then
                  JsString.truthy digits && (pieceIndex <=? 6) && ipv4InIpv6 s &&
                  (compressed || (pieceIndex + 2 =? 8))
                else if Ascii.eqb b ":" then
                  JsString.truthy digits && JsString.truthy rest' &&
                  ipv6Loop fuel' (S pieceIndex) compressed rest'
                else false
            end
      end
  end.

(** Whether the IPv6 parser accepts the text between the brackets. *)
Definition ipv6Valid (s : string) : bool :=
  match s with
  | String ":" (String ":" rest) => ipv6Loop (S (String.length rest)) 1 true rest
  | String ":" _ => false
  | _ => ipv6Loop (S (String.length s)) 0 false s
  end.

(** [s] without its last character, when that is [c]. *)
Fixpoint withoutLast (c : ascii) (s : string) : option string :=
  match s with
  | EmptyString => None
  | String a EmptyString => if Ascii.eqb a c then Some EmptyString else None
  | String a s' => String a <$> withoutLast c s'
  end.

(** A host in square brackets. *)
Definition bracketedValid (afterBracket : string) : bool :=
  match withoutLast "]" afterBracket with
  | Some address => ipv6Valid address
  | None => false
  end.

(** A label that starts with xn--, which asks for Punycode decoding. *)
Definition hasPunycodeLabel (domain : string) : bool :=
  existsb (String.prefix "xn--") (splitOn "." domain).

(** The host parser on the host of a special URL.  [true] stands for a
    host, [false] for failure. *)
Definition domainValid (host : string) : bool :=
  match host with
  | String "[" afterBracket => bracketedValid afterBracket
  | _ =>
      let bytes := percentDecode host in
      if existsb (fun b => 128 <=? b) bytes then true
      else
        let domain := JsString.toLowerCase (utf8Decode bytes) in
        if hasPunycodeLabel domain then true
        else
          JsString.truthy domain &&
          negb (any_char isForbiddenDomainChar domain) &&
          (if endsInNumber domain then ipv4Valid domain else true)
  end.

(** The opaque-host parser, for the other URLs. *)
Definition opaqueHostValid (host : string) : bool :=
  match host with
  | String "[" afterBracket => bracketedValid afterBracket
  | _ => negb (any_char isForbiddenHostChar host)
  end.

(** What follows the last at sign, when there is one. *)
Fixpoint afterLastAt (s : string) : option string :=
  match s with
  | EmptyString => None
  | String a s' =>
      match afterLastAt s' with
      | Some rest => Some rest
      | None => if Ascii.eqb a "@" then Some s' else None
      end
  end.

(** The host, and the port when a colon outside square brackets
    announces one. *)
Fixpoint splitHostPort (insideBrackets : bool) (s : string) : string * option string :=
  match s with
  | EmptyString => (EmptyString, None)
  | String a s' =>
      if Ascii.eqb a ":" && negb insideBrackets then (EmptyString, Some s')
      else
        let inside :=
          if Ascii.eqb a "[" then true
          else if Ascii.eqb a "]" then false
          else insideBrackets in
        let (host, port) := splitHostPort inside s' in (String a host, port)
  end.

Definition portValid (port : string) : bool :=
  all_chars is_digit port &&
  match parseDigits 10 0 port with
  | Some n => (n <=? 65535)%N
  | None => false
  end.

Definition isSlash (c : ascii) : bool := Ascii.eqb c "/" || Ascii.eqb c "\".

(** The characters that end the authority. *)
Definition endsAuthority (special : bool) (c : ascii) : bool :=
  Ascii.eqb c "/" || Ascii.eqb c "?" || Ascii.eqb c "#" || (special && Ascii.eqb c "\").

(** The authority state, the host state and the port state on the text
    that follows the slashes: what follows the authority, when the
    authority is accepted. *)
Definition afterAuthority (special : bool) (s : string) : option string :=
  let (authority, tail) := span (fun c => negb (endsAuthority special c)) s in
  match afterLastAt authority with
  | Some EmptyString => None
  | credentials =>
      let hostPort := default authority credentials in
      let hostValid := if special then domainValid else opaqueHostValid in
      match splitHostPort false hostPort with
      | (EmptyString, Some _) => None
      | (host, Some port) => if portValid port && hostValid host then Some tail else None
      | (EmptyString, None) => if special then None else Some tail
      | (host, None) => if hostValid host then Some tail else None
      end
  end.

(** *** Paths *)

Definition isSingleDot (segment : string) : bool :=
  existsb (String.eqb (JsString.toLowerCase segment)) ["."; "%2e"].

Definition isDoubleDot (segment : string) : bool :=
  existsb (String.eqb (JsString.toLowerCase segment)) [".."; ".%2e"; "%2e."; "%2e%2e"].

(** A Windows drive letter, and a normalized one. *)
Definition isDriveLetter (s : string) : bool :=
  match s with
  | String a (String b EmptyString) => is_alpha a && (Ascii.eqb b ":" || Ascii.eqb b "|")
  | _ => false
  end.

Definition isNormalizedDriveLetter (s : string) : bool :=
  match s with
  | String a (String b EmptyString) => is_alpha a && Ascii.eqb b ":"
  | _ => false
  end.

(** Shortening of a path. *)
Definition shorten (file : bool) (path : list string) : list string :=
  match path with
  | [segment] => if file && isNormalizedDriveLetter segment then path else []
  | _ => removelast path
  end.

(** The path state over the segments that are left, [path] being the
    path so far. *)
Fixpoint pathState (file : bool) (path : list string) (segments : list string)
  : list string :=
  match segments with
  | [] => path
  | segment :: rest =>
      let closing := match rest with [] => [EmptyString] | _ => [] end in
      let segment := percentEncode inPathSet segment in
      if isDoubleDot segment then pathState file (shorten file path ++ closing) rest
      else if isSingleDot segment then pathState file (path ++ closing) rest
      else
        let segment :=
          match path, segment with
          | [], String a (String _ EmptyString) =>
              if file && isDriveLetter segment then String a ":" else segment
          | _, _ => segment
          end in
        pathState file (path ++ [segment]) rest
  end.

(** The URL path serializer on a list of segments. *)
Definition serializePath (path : list string) : string :=
  fold_right (fun segment acc => "/" +:+ segment +:+ acc) "" path.

Record URL := {
  pathname : string;
  (** The query, before any decoding. *)
  query : string
}.

(** The path before [?] and [#], and the query before [#]. *)
Definition pathAndQuery (tail : string) : string * string :=
  let (noFragment, _) := splitAt "#" tail in
  let (path, query) := splitAt "?" noFragment in
  (path, default "" query).

Definition dropSlash (special : bool) (s : string) : string :=
  match s with
  | String a s' => if Ascii.eqb a "/" || (special && Ascii.eqb a "\") then s' else s
  | EmptyString => s
  end.

(** The path start state and what follows it, for a special URL or a
    file URL: [tail] is the input from the path on. *)
Definition specialTail (file : bool) (tail : string) : URL :=
  let (path, query) := pathAndQuery tail in
  {| pathname := serializePath (pathState file [] (splitWhere isSlash (dropSlash true path)));
     query := query |}.

(** The same for the other URLs that have a list of segments as path: the
    path is empty when nothing follows the authority. *)
Definition listTail (tail : string) : URL :=
  let (path, query) := pathAndQuery tail in
  {| pathname :=
       match path with
       | EmptyString => EmptyString
       | _ => serializePath (pathState false []
                (splitWhere (Ascii.eqb "/") (dropSlash false path)))
       end;
     query := query |}.

(** The opaque path state. *)
Definition opaqueTail (tail : string) : URL :=
  let (path, query) := pathAndQuery tail in
  {| pathname := percentEncode inC0ControlSet path; query := query |}.

(** The special schemes but [file], which has a state of its own. *)
Definition isSpecial (scheme : string) : bool :=
  existsb (String.eqb scheme) ["ftp"; "http"; "https"; "ws"; "wss"].

(** What follows [file:]. *)
Definition parseFile (rest : string) : option URL :=
  match rest with
  | String a (String b rest') =>
      if isSlash a && isSlash b then
        let (host, tail) := span (fun c => negb (endsAuthority true c)) rest' in
        if isDriveLetter host then Some (specialTail true (String "/" rest'))
        else if negb (JsString.truthy host) || domainValid host then Some (specialTail true tail)
        else None
      else Some (specialTail true rest)
  | _ => Some (specialTail true rest)
  end.

(** [new URL(input)]: [None] when the constructor throws. *)
Definition parse (input : string) : option URL :=
  let s := clean input in
  match s with
  | String c0 _ =>
      if is_alpha c0 then
        match span is_scheme_char s with
        | (scheme, String ":" rest) =>
            let scheme := JsString.toLowerCase scheme in
            if isSpecial scheme then
              specialTail false <$> afterAuthority true (dropWhile isSlash rest)
            else if String.eqb scheme "file" then parseFile rest
            else
              match rest with
              | String "/" (String "/" rest') => listTail <$> afterAuthority false rest'
              | String "/" rest' => Some (listTail (String "/" rest'))
              | _ => Some (opaqueTail rest)
              end
        | _ => None
        end
      else None
  | EmptyString => None
  end.

(** [url.searchParams.get(name)]: the decoded value of the first
    parameter with that name. *)
Definition searchParams_get (u : URL) (name : string) : option string :=
  let pairs :=
    map (fun kv => let (k, v) := splitAt "=" kv in (formDecode k, formDecode (default "" v)))
        (List.filter (fun kv => JsString.truthy kv) (splitOn "&" (query u))) in
  match List.find (fun kv => String.eqb (fst kv) name) pairs with
  | Some kv => Some (snd kv)
  | None => None
  end.

End Url.

(** ** Bullet text *)

Definition ACCENT_COLOR : string := "#00AEEF".

(** The text of one bullet (generateContentBulletsHTML, lines 962-983):
    a key and a value around the first colon, a section title, or plain
    text.  [text] is [item.text || ''] and [level] is [item.level || 0]. *)
Definition formattedText (level : nat) (text : string) : string :=
  match Url.splitAt ":" text with
  | (String k key, Some value) =>
      "<span style=" +:+ String dquote "color: " +:+ ACCENT_COLOR +:+ "; font-weight: bold;"
        +:+ String dquote ">" +:+
      escapeHtml (VString (JsString.trim (String k key))) +:+ ":</span> " +:+
      escapeHtml (VString (JsString.trim value))
  | (_, _) =>
      if (level =? 0) && JsString.truthy text && negb (JsString.includes text ":") then
        "<span style=" +:+ String dquote "color: " +:+ ACCENT_COLOR +:+
          "; font-weight: bold; font-size: 15pt;" +:+ String dquote ">" +:+
        escapeHtml (VString text) +:+ "</span>"
      else escapeHtml (VString text)
  end.

(** Whether [formattedText] wraps the text in a span. *)
Definition hasSpan (level : nat) (text : string) : bool :=
  match Url.splitAt ":" text with
  | (String _ _, Some _) => true
  | _ => (level =? 0) && JsString.truthy text && negb (JsString.includes text ":")
  end.

(** ** extractGoogleDriveId (lines 31-52) *)

(** The character class [a-zA-Z0-9_-]. *)
Definition isIdChar (c : ascii) : bool :=
  Url.is_alpha c || Url.is_digit c || Ascii.eqb c "_" || Ascii.eqb c "-".

(** The longest prefix made of identifier characters. *)
Fixpoint takeIdChars (s : string) : string :=
  match s with
  | EmptyString => EmptyString
  | String a s' => if isIdChar a then String a (takeIdChars s') else EmptyString
  end.

(** [s] without the prefix [p], when [s] starts with [p]. *)
Fixpoint stripPrefix (p s : string) : option string :=
  match p, s with
  | EmptyString, _ => Some s
  | String a p', String b s' => if Ascii.eqb a b then stripPrefix p' s' else None
  | String _ _, EmptyString => None
  end.

(** First capture group of the leftmost match of [marker([a-zA-Z0-9_-]+)]. *)
Fixpoint matchAfterMarker (marker s : string) : option string :=
  let here :=
    match stripPrefix marker s with
    | Some rest =>
        match takeIdChars rest with
        | EmptyString => None
        | id => Some id
        end
    | None => None
    end in
  match here with
  | Some id => Some id
  | None =>
      match s with
      | EmptyString => None
      | String _ s' => matchAfterMarker marker s'
      end
  end.

Definition extractGoogleDriveId (url : string) : option string :=
  if negb (JsString.truthy url) then None
  else
    match matchAfterMarker "/file/d/" url with
    | Some id => Some id
    | None =>
        match Url.parse url with
        | Some urlObj =>
            if JsString.includes (Url.pathname urlObj) "open" then
              match Url.searchParams_get urlObj "id" with
              | Some id => if JsString.truthy id then Some id else None
              | None => None
              end
            else None
        | None => None
        end
    end.

(** A file identifier: a non-empty token of identifier characters. *)
Definition validId (id : string) : bool :=
  JsString.truthy id && Url.all_chars isIdChar id.

(** A character that can stand in a host name: none of the delimiters that
    end the authority of a URL. *)
Definition isHostChar (c : ascii) : bool :=
  negb (Ascii.eqb c "/" || Ascii.eqb c "?" || Ascii.eqb c "#").

(** A character of a domain name: a letter, a digit, a hyphen or a dot. *)
Definition isDomainChar (c : ascii) : bool :=
  Url.is_alpha c || Url.is_digit c || Ascii.eqb c "-" || Ascii.eqb c ".".

(** A domain name that the host parser takes as it is: made of letters,
    digits, hyphens and dots, without a label that starts with xn--, and
    not ending in a number, which would make it an IPv4 address. *)
Definition validHost (h : string) : bool :=
  JsString.truthy h && Url.all_chars isDomainChar h &&
  negb (Url.hasPunycodeLabel (JsString.toLowerCase h)) &&
  negb (Url.endsInNumber (JsString.toLowerCase h)).

Definition getGoogleDriveDownloadUrl (fileId : string) : string :=
  "https://drive.google.com/uc?export=download&id=" +:+ fileId.

Definition getGoogleDriveVideoUrl (fileId : string) : string :=
  "https://drive.google.com/uc?export=download&id=" +:+ fileId +:+ "&confirm=t".

(** ** Slides *)

(** One bullet of a [content_bullets] slide. *)
Record Item := {
  text : option string;
  level : nat
}.

(** The [content] field: missing, an array of bullets, or (on module
    description slides) an object carrying the media references. *)
Inductive Content :=
| ContentMissing
| ContentItems (items : list Item)
| ContentObject (video_url image_url : option string).

Record Slide := {
  type : string;
  title : option string;
  content : Content;
  slide_number : option nat;
  _video_url : option string;
  _image_url : option string;
  diagram : option (string * string);
  _splitSlide : bool;
  _splitIndex : option nat;
  _splitTotal : option nat;
  _mergedSections : option (list string)
}.

(** [{...s, title: t}] *)
Definition withTitle (s : Slide) (t : string) : Slide :=
  {| type := type s; title := Some t; content := content s;
     slide_number := slide_number s; _video_url := _video_url s;
     _image_url := _image_url s; diagram := diagram s;
     _splitSlide := _splitSlide s; _splitIndex := _splitIndex s;
     _splitTotal := _splitTotal s; _mergedSections := _mergedSections s |}.

(** [{...s, title: t, content: c, _mergedSections: sections}] *)
Definition mergedSlide (s : Slide) (t : string) (c : list Item) (sections : list string) : Slide :=
  {| type := type s; title := Some t; content := ContentItems c;
     slide_number := slide_number s; _video_url := _video_url s;
     _image_url := _image_url s; diagram := diagram s;
     _splitSlide := _splitSlide s; _splitIndex := _splitIndex s;
     _splitTotal := _splitTotal s; _mergedSections := Some sections |}.

(** [{...s, title: t, content: c, _splitSlide: true, _splitIndex: idx,
      _splitTotal: total}] *)
Definition splitSlide (s : Slide) (t : string) (c : list Item) (idx total : nat) : Slide :=
  {| type := type s; title := Some t; content := ContentItems c;
     slide_number := slide_number s; _video_url := _video_url s;
     _image_url := _image_url s; diagram := diagram s;
     _splitSlide := true; _splitIndex := Some idx;
     _splitTotal := Some total; _mergedSections := _mergedSections s |}.

(** ** aggregateSlides (lines 773-881) *)

Definition MAX_ITEMS_PER_SLIDE : nat := 15.
Definition baseTitle : string := "System Requirements".

(** The test of lines 785-786 and 793-795. *)
Definition isSystemRequirements (slide : Slide) : bool :=
  String.eqb (type slide) "content_bullets" &&
  match title slide with
  | Some t =>
      JsString.truthy t &&
      (JsString.startsWith t "System Requirements:" || String.eqb t "System Requirements")
  | None => false
  end.

(** [s.content || []], on which [map] and [forEach] are then called: a
    content object has neither, and the call raises a TypeError ([None]). *)
Definition contentArray (s : Slide) : option (list Item) :=
  match content s with
  | ContentMissing => Some []
  | ContentItems items => Some items
  | ContentObject _ _ => None
  end.

(** [texts.join(' ')] *)
Fixpoint join (sep : string) (l : list string) : string :=
  match l with
  | [] => ""
  | [x] => x
  | x :: rest => x +:+ sep +:+ join sep rest
  end.

Fixpoint skipSpaces (s : string) : string :=
  match s with
  | EmptyString => EmptyString
  | String c s' => if JsString.is_space c then skipSpaces s' else s
  end.

(** [text.match(/^power\s*:\s*standard/i)] is not null. *)
Definition matchesPowerStandard (text : string) : bool :=
  match stripPrefix "power" (JsString.toLowerCase text) with
  | Some rest =>
      match skipSpaces rest with
      | String ":" rest' => JsString.startsWith (skipSpaces rest') "standard"
      | _ => false
      end
  | None => false
  end.

(** The filter callback of lines 804-811. *)
Definition isNonTrivial (items : list Item) : bool :=
  let text := JsString.toLowerCase (join " " (map (fun c => JsString.or_else (text c) "") items)) in
  negb (JsString.includes text "none required") &&
  negb (JsString.includes text "standard source") &&
  negb (matchesPowerStandard text).

(** [s.replace(pat, rep)] with a string pattern: the first occurrence. *)
Fixpoint replaceFirst (pat rep s : string) : string :=
  match stripPrefix pat s with
  | Some rest => rep +:+ rest
  | None =>
      match s with
      | EmptyString => EmptyString
      | String c s' => String c (replaceFirst pat rep s')
      end
  end.

Definition sectionTitle (s : Slide) : string :=
  let t := JsString.trim (replaceFirst "System Requirements:" "" (default "" (title s))) in
  if JsString.truthy t then t else "General".

(** [Math.ceil(a / b)] for a positive [b]. *)
Definition ceilDiv (a b : nat) : nat := (a + b - 1) / b.

(** [arr.slice(start, end)] for indices that are not negative. *)
Definition slice {A : Type} (l : list A) (startIdx endIdx : nat) : list A :=
  take (endIdx - startIdx) (drop startIdx l).

Definition decimal (n : nat) : string := NilZero.string_of_uint (Nat.to_uint n).

(** Title of part [slideIdx] of [numSlides] (lines 843-845). *)
Definition partTitle (slideIdx numSlides : nat) : string :=
  if 1 <? numSlides
  then baseTitle +:+ " (" +:+ decimal (slideIdx + 1) +:+ "/" +:+ decimal numSlides +:+ ")"
  else baseTitle.

(** The split of lines 832-855: one slide per value of [slideIdx]. *)
Definition splitMerged (slide : Slide) (mergedContent : list Item) : list Slide :=
  let totalItems := length mergedContent in
  let numSlides := ceilDiv totalItems MAX_ITEMS_PER_SLIDE in
  let itemsPerSlide := ceilDiv totalItems numSlides in
  map (fun slideIdx =>
         let startIdx := slideIdx * itemsPerSlide in
         let endIdx := Nat.min (startIdx + itemsPerSlide) totalItems in
         splitSlide slide (partTitle slideIdx numSlides)
                    (slice mergedContent startIdx endIdx) slideIdx numSlides)
      (seq 0 numSlides).

(** The items of a slide that has an array or no content. *)
Definition itemsOf (s : Slide) : list Item := default [] (contentArray s).

(** What lines 803-871 push for a run [systemReqSlides] of consecutive
    System Requirements slides whose first slide is [slide]. *)
Definition pushRun (slide : Slide) (systemReqSlides : list Slide) : list Slide :=
  let nonTrivialSlides :=
    List.filter (fun s => isNonTrivial (itemsOf s)) systemReqSlides in
  match nonTrivialSlides with
  | [] => []
  | first :: _ =>
      let mergedContent := concat (map itemsOf nonTrivialSlides) in
      let sections := map sectionTitle nonTrivialSlides in
      if MAX_ITEMS_PER_SLIDE <? length mergedContent then
        splitMerged slide mergedContent
      else if (1 <? length nonTrivialSlides) ||
              ((length nonTrivialSlides =? 1) && (1 <? length systemReqSlides)) then
        [mergedSlide slide baseTitle mergedContent sections]
      else
        [withTitle first baseTitle]
  end.

(** The filter callback runs on every slide of the run before anything
    is pushed, so a content object in any of them raises a TypeError. *)
Definition emitRun (slide : Slide) (systemReqSlides : list Slide) : option (list Slide) :=
  _ ← mapM contentArray systemReqSlides;
  Some (pushRun slide systemReqSlides).

(** The outer loop walks the slides; on a System Requirements slide the
    inner loop [collect] gathers the slides of the run that follow it. *)
Fixpoint aggregateSlides (slides : list Slide) : option (list Slide) :=
  match slides with
  | [] => Some []
  | slide :: rest =>
      if isSystemRequirements slide then
        (fix collect (systemReqSlides : list Slide) (rest : list Slide) {struct rest}
           : option (list Slide) :=
           match rest with
           | nextSlide :: rest' =>
               if isSystemRequirements nextSlide
               then collect (systemReqSlides ++ [nextSlide]) rest'
               else
                 pushed ← emitRun slide systemReqSlides;
                 aggregated ← aggregateSlides rest;
                 Some (pushed ++ aggregated)
           | [] => emitRun slide systemReqSlides
           end) [slide] rest
      else
        aggregated ← aggregateSlides rest;
        Some (slide :: aggregated)
  end.

(** The inner loop of [aggregateSlides], named. *)
Fixpoint collectRun (slide : Slide) (systemReqSlides : list Slide) (rest : list Slide)
  : option (list Slide) :=
  match rest with
  | nextSlide :: rest' =>
      if isSystemRequirements nextSlide
      then collectRun slide (systemReqSlides ++ [nextSlide]) rest'
      else
        pushed ← emitRun slide systemReqSlides;
        aggregated ← aggregateSlides rest;
        Some (pushed ++ aggregated)
  | [] => emitRun slide systemReqSlides
  end.

(** The longest prefix of System Requirements slides, and what follows. *)
Fixpoint spanRun (slides : list Slide) : list Slide * list Slide :=
  match slides with
  | [] => ([], [])
  | s :: rest =>
      if isSystemRequirements s
      then let (run, after) := spanRun rest in (s :: run, after)
      else ([], slides)
  end.

(** The merged content of a run: the items of its non-trivial slides. *)
Definition mergedContentOf (run : list Slide) : list Item :=
  concat (map itemsOf (List.filter (fun s => isNonTrivial (itemsOf s)) run)).

(** Slides for the examples. *)
Definition bullets (t : string) (texts : list string) : Slide :=
  {| type := "content_bullets"; title := Some t;
     content := ContentItems (map (fun x => {| text := Some x; level := 0 |}) texts);
     slide_number := None; _video_url := None; _image_url := None; diagram := None;
     _splitSlide := false; _splitIndex := None; _splitTotal := None;
     _mergedSections := None |}.

Definition numbered (n : nat) : list string := map decimal (seq 0 n).

(** [post] is empty or starts with a slide that is not a System
    Requirements slide: a run cannot continue into it. *)
Definition startsRun (post : list Slide) : bool :=
  match post with
  | s :: _ => isSystemRequirements s
  | [] => false
  end.

(** [a] followed by [b], when both are defined. *)
Definition appendResults (a b : option (list Slide)) : option (list Slide) :=
  x ← a; y ← b; Some (x ++ y).

(** A slide pushed by the System Requirements branch: a bullet slide
    titled "System Requirements", possibly numbered. *)
Definition isPushedByRun (s : Slide) : Prop :=
  type s = "content_bullets" /\ exists k n, title s = Some (partTitle k n).

(** Slides that the loop pushes as they are. *)
Definition passThrough (slides : list Slide) : list Slide :=
  List.filter (fun s => negb (isSystemRequirements s)) slides.

(** [pre] is empty or ends with a slide that is not a System
    Requirements slide: no run reaches its end. *)
Definition endsRun (pre : list Slide) : bool :=
  match last pre with
  | Some s => isSystemRequirements s
  | None => false
  end.

(** A deck with a run of three System Requirements slides, one of them
    trivial, whose merged content has 31 items. *)
Definition exampleDeck : list Slide :=
  [ bullets "Intro" ["a"];
    bullets "System Requirements: Network" (numbered 10);
    bullets "System Requirements: Power" ["Power: standard source"];
    bullets "System Requirements: Camera" (numbered 21);
    bullets "End" [] ].

(** ** The world outside the script

    The script talks to HTTP servers, to a browser and to the file system.
    All three are deterministic given what the script has done so far: the
    answer to a request is a function of the history of events. *)

Record Response := {
  statusCode : nat;
  location : option string;        (* headers.location *)
  content_type : option string;    (* headers['content-type'] *)
  body : buffer
}.

(** What [page.goto] gives: a rejection, [null], or a response with its
    status, its content type and its body ([None] when [body()] rejects). *)
Inductive GotoResult :=
| GotoRejects
| GotoNull
| GotoResponse (status : nat) (contentType : option string) (responseBody : option buffer).

(** A browser download: [saveAs] writes [saved], or rejects. *)
Record Download := {
  saved : option buffer
}.

Inductive Event :=
| HttpGet (url : string)               (* protocol.get(url, ...) *)
| NewPage                              (* context.newPage(), browser.newPage() *)
| ClosePage                            (* page.close() *)
| Goto (url : string)                  (* page.goto(url, ...) *)
| WaitForDownload (timeout : N)        (* page.waitForEvent('download', ...) *)
| WaitForTimeout (ms : N)              (* page.waitForTimeout(ms) *)
| Query (selector : string)            (* page.$(selector), form.$(selector) *)
| Click                                (* element.click() *)
| SaveAs (path : string)               (* download.saveAs(path) *)
| RenderDiagram (path : string).       (* renderMermaidDiagram(code, path) *)

(** How the body of a 200 response travels once its headers are in. *)
Inductive Transfer :=
| Arrives                        (* the whole body arrives *)
| TimesOut (received : nat)      (* the request times out after [received] bytes *)
| Stalls (received : nat).       (* the connection is lost after [received] bytes
                                    and nothing settles the promise *)

Record Env := {
  (** The answer to a GET request up to its headers; [None] is a request
      error, or a timeout before any response. *)
  http_get : list Event -> string -> option Response;
  (** What becomes of the body of the 200 response just received. *)
  transfer : list Event -> Transfer;
  (** Whether the write stream of a direct download, fed the whole body,
      emits [finish]; it emits [error] if not. *)
  stream_finishes : list Event -> bool;
  (** [new URL(location, url).href]; [None] when the constructor throws. *)
  url_resolve : string -> string -> option string;
  new_page_ok : list Event -> bool;
  (** Whether the race of the first navigation with the download listener
      is won without a rejection. *)
  navigation_ok : list Event -> string -> bool;
  goto_result : list Event -> string -> GotoResult;
  (** The download a listener has caught, if any. *)
  download_event : list Event -> option Download;
  page_url : list Event -> string;
  (** [Some true]: the element exists; [None]: the query rejects. *)
  query_result : list Event -> string -> option bool;
  click_ok : list Event -> bool;
  render_ok : list Event -> bool
}.

Record World := {
  files : filesystem;
  trace : list Event
}.

(** ** Completions

    A statement completes normally, returns from the enclosing function,
    throws, or never completes. *)
Inductive Completion (A : Type) :=
| Normal (a : A)
| Return (r : option string)
| Throw
| Diverge.
Arguments Normal {A} a.
Arguments Return {A} r.
Arguments Throw {A}.
Arguments Diverge {A}.

Definition M (A : Type) : Type := World -> Completion A * World.

#[global] Instance M_ret : MRet M := fun A a w => (Normal a, w).

#[global] Instance M_bind : MBind M := fun A B f m w =>
  match m w with
  | (Normal a, w') => f a w'
  | (Return r, w') => (Return r, w')
  | (Throw, w') => (Throw, w')
  | (Diverge, w') => (Diverge, w')
  end.

(** [throw new Error(...)], a rejected promise *)
Definition throw {A : Type} : M A := fun w => (Throw, w).

(** [return r] *)
Definition return_ {A : Type} (r : option string) : M A := fun w => (Return r, w).

Definition diverge {A : Type} : M A := fun w => (Diverge, w).

(** [try { m } catch (e) { handler }] *)
Definition try_catch {A : Type} (m handler : M A) : M A := fun w =>
  match m w with
  | (Throw, w') => handler w'
  | other => other
  end.

(** [try { m } finally { cleanup }] *)
Definition try_finally {A : Type} (m : M A) (cleanup : M unit) : M A := fun w =>
  match m w with
  | (Diverge, w') => (Diverge, w')
  | (c, w') =>
      match cleanup w' with
      | (Normal _, w'') => (c, w'')
      | (Return r, w'') => (Return r, w'')
      | (Throw, w'') => (Throw, w'')
      | (Diverge, w'') => (Diverge, w'')
      end
  end.

(** The call of an async function with body [m], awaited: a [return]
    gives the value, falling off the end gives [undefined]. *)
Definition call (m : M unit) : M (option string) := fun w =>
  match m w with
  | (Normal _, w') => (Normal None, w')
  | (Return r, w') => (Normal r, w')
  | (Throw, w') => (Throw, w')
  | (Diverge, w') => (Diverge, w')
  end.

(** Records an event. *)
Definition emit (e : Event) : M unit := fun w =>
  (Normal tt, {| files := files w; trace := trace w ++ [e] |}).

(** Asks the outside world, which answers from the history. *)
Definition observe {A : Type} (f : list Event -> A) : M A := fun w =>
  (Normal (f (trace w)), w).

(** [(await fs.promises.stat(path)).size] *)
Definition fs_stat_size (path : string) : M nat := fun w =>
  match files w !! path with
  | Some buf => (Normal (length buf), w)
  | None => (Throw, w)
  end.

(** [await fs.promises.stat(path).catch(() => null)] *)
Definition fs_stat_size_or_null (path : string) : M (option nat) := fun w =>
  (Normal (length <$> files w !! path), w).

(** [await fs.promises.unlink(path).catch(() => {})] *)
Definition fs_unlink (path : string) : M unit := fun w =>
  (Normal tt, {| files := delete path (files w); trace := trace w |}).

(** [await fs.promises.writeFile(path, buf)] *)
Definition fs_writeFile (path : string) (buf : buffer) : M unit := fun w =>
  (Normal tt, {| files := <[path := buf]> (files w); trace := trace w |}).

(** [await validateFileType(path, kind)] *)
Definition validate (path kind : string) : M bool := fun w =>
  (Normal (validateFileType (files w) path kind), w).

(** ** Network and browser primitives *)

(** [protocol.get(url, options, callback)] up to the response headers. *)
Definition request (env : Env) (url : string) : M (option Response) := fun w =>
  (Normal (http_get env (trace w) url),
   {| files := files w; trace := trace w ++ [HttpGet url] |}).

(** The redirect test of lines 137 and 187, without [followRedirects]. *)
Definition isRedirect (response : Response) : bool :=
  (300 <=? statusCode response) && (statusCode response <? 400) &&
  JsString.truthy (default "" (location response)).

(** Lines 139-141 and 189-191; [None] when [new URL] throws. *)
Definition redirectTarget (env : Env) (response : Response) (url : string) : option string :=
  let loc := default "" (location response) in
  if JsString.startsWith loc "http" then Some loc else url_resolve env loc url.

(** [context.newPage()], [browser.newPage()] *)
Definition newPage (env : Env) : M unit :=
  ok ← observe (new_page_ok env);
  emit NewPage;;
  if ok : bool then mret tt else throw.

(** The race of lines 358-361. *)
Definition navigate (env : Env) (url : string) : M unit :=
  ok ← observe (fun t => navigation_ok env t url);
  emit (Goto url);;
  if ok : bool then mret tt else throw.

(** [await page.goto(url, ...)] *)
Definition goto (env : Env) (url : string) : M GotoResult :=
  r ← observe (fun t => goto_result env t url);
  emit (Goto url);;
  match r with
  | GotoRejects => throw
  | _ => mret r
  end.

(** [await response.body()] *)
Definition responseBody (b : option buffer) : M buffer :=
  match b with
  | Some buf => mret buf
  | None => throw
  end.

(** [await page.$(selector)]: whether an element was found. *)
Definition query (env : Env) (selector : string) : M bool :=
  r ← observe (fun t => query_result env t selector);
  emit (Query selector);;
  match r with
  | Some found => mret found
  | None => throw
  end.

(** [await element.click()] *)
Definition click (env : Env) : M unit :=
  ok ← observe (click_ok env);
  emit Click;;
  if ok : bool then mret tt else throw.

(** [await download.saveAs(path)] *)
Definition saveAs (d : Download) (path : string) : M unit :=
  emit (SaveAs path);;
  match saved d with
  | Some buf => fs_writeFile path buf
  | None => throw
  end.

(** ** downloadFileDirect (lines 121-173)

    The promise is settled by the first of: the rejections of lines 124
    and 149, a request error, the [finish] or [error] of the file stream,
    and the request timeout of lines 168-171, which can fire after the
    file stream has been opened and leaves what was written.  An
    exception of [new URL] at line 141 is thrown inside the response
    callback, where nothing catches it and nothing settles the promise:
    the call never completes. *)
Fixpoint downloadFileDirect (env : Env) (url outputPath : string)
    (followRedirects : bool) (maxRedirects : nat) : M unit :=
  match maxRedirects with
  | 0 => throw
  | S remaining =>
      response ← request env url;
      match response with
      | None => throw
      | Some response =>
          if followRedirects && isRedirect response then
            match redirectTarget env response url with
            | Some redirectUrl => downloadFileDirect env redirectUrl outputPath true remaining
            | None => diverge
            end
          else if negb (statusCode response =? 200) then throw
          else
            arrival ← observe (transfer env);
            match arrival with
            | Arrives =>
                finishes ← observe (stream_finishes env);
                if finishes : bool then fs_writeFile outputPath (body response)
                else fs_unlink outputPath;; throw
            | TimesOut received =>
                fs_writeFile outputPath (take received (body response));; throw
            | Stalls received =>
                fs_writeFile outputPath (take received (body response));; diverge
            end
      end
  end.

(** ** fetchResponse (lines 176-217)

    Redirects are followed without a bound; [fuel] bounds them in the
    model, and running out of it is divergence.  The promise is resolved
    by the [end] of the body and rejected by the request timeout of lines
    212-215; an exception of [new URL] at line 191 leaves it unsettled. *)
Fixpoint fetchResponse (env : Env) (fuel : nat) (url : string) : M Response :=
  match fuel with
  | 0 => diverge
  | S fuel' =>
      response ← request env url;
      match response with
      | None => throw
      | Some response =>
          if isRedirect response then
            match redirectTarget env response url with
            | Some redirectUrl => fetchResponse env fuel' redirectUrl
            | None => diverge
            end
          else if negb (statusCode response =? 200) then throw
          else
            arrival ← observe (transfer env);
            match arrival with
            | Arrives => mret response
            | TimesOut _ => throw
            | Stalls _ => diverge
            end
      end
  end.

(** ** downloadGoogleDriveFile (lines 220-315) *)

(** The block of lines 226-238, repeated at 260-270 and 279-290: download
    [url], and return the file when it has more than 1000 bytes and the
    right signature. *)
Definition attemptDirect (env : Env) (url outputPath : string) (isVideo : bool) : M unit :=
  downloadFileDirect env url outputPath true 5;;
  size ← fs_stat_size outputPath;
  if 1000 <? size then
    isValid ← validate outputPath (kindName isVideo);
    if isValid : bool then return_ (Some outputPath)
    else fs_unlink outputPath
  else mret tt.

(** The test of line 248. *)
Definition isMarkupResponse (response : Response) : bool :=
  JsString.includes (JsString.toLowerCase (default "" (content_type response))) "text/html" ||
  JsString.includes (JsString.toLowerCase (bufferToString (body response) 100)) "<!doctype".

(** [htmlContent.match(/confirm=([a-zA-Z0-9_-]+)/)], first group. *)
Definition confirmToken (response : Response) : option string :=
  matchAfterMarker "confirm=" (bufferToString (body response) (length (body response))).

Definition tokenUrl (fileId confirmToken : string) : string :=
  "https://drive.google.com/uc?export=download&id=" +:+ fileId +:+ "&confirm=" +:+ confirmToken.

Definition confirmTUrl (fileId : string) : string :=
  "https://drive.google.com/uc?export=download&id=" +:+ fileId +:+ "&confirm=t".

(** Lines 249-293: what is done with a markup page. *)
Definition handleMarkup (env : Env) (response : Response) (fileId outputPath : string)
    (isVideo : bool) : M unit :=
  match confirmToken response with
  | Some token =>
      try_catch (attemptDirect env (tokenUrl fileId token) outputPath isVideo) (mret tt)
  | None => mret tt
  end;;
  try_catch (attemptDirect env (confirmTUrl fileId) outputPath isVideo) (mret tt).

Definition downloadGoogleDriveFile (env : Env) (fuel : nat) (fileId outputPath : string)
    (isVideo : bool) : M (option string) :=
  let downloadUrl := "https://drive.google.com/uc?export=download&id=" +:+ fileId in
  call (
    try_catch (
      try_catch (attemptDirect env downloadUrl outputPath isVideo) (mret tt);;
      try_catch (
        response ← fetchResponse env fuel downloadUrl;
        if isMarkupResponse response then
          handleMarkup env response fileId outputPath isVideo
        else if 1000 <? length (body response) then
          fs_writeFile outputPath (body response);;
          isValid ← validate outputPath (kindName isVideo);
          if isValid : bool then return_ (Some outputPath)
          else fs_unlink outputPath
        else mret tt
      ) (mret tt)
    ) (mret tt);;
    return_ None).

(** ** The browser fallback *)

Definition quoted (s : string) : string := String dquote s +:+ String dquote "".

(** The selectors of lines 407-415 and 595-603. *)
Definition downloadSelectors : list string :=
  [ "button#uc-download-link";
    "a#uc-download-link";
    "button[aria-label*=" +:+ quoted "Download" +:+ "]";
    "a[aria-label*=" +:+ quoted "Download" +:+ "]";
    "form[action*=" +:+ quoted "download" +:+ "] button";
    "form[action*=" +:+ quoted "download" +:+ "] input[type=" +:+ quoted "submit" +:+ "]";
    "input[type=" +:+ quoted "submit" +:+ "][value*=" +:+ quoted "Download" +:+ "]" ].

(** Lines 423-426: arm a download listener, click, wait, and read what
    the listener caught. *)
Definition clickAndWait (env : Env) (timeout : N) : M (option Download) :=
  emit (WaitForDownload timeout);;
  click env;;
  emit (WaitForTimeout 2000%N);;
  observe (download_event env).

(** The loop of lines 418-435: the download of the first selector whose
    click yields one. *)
Fixpoint clickSelectors (env : Env) (timeout : N) (selectors : list string)
  : M (option Download) :=
  match selectors with
  | [] => mret None
  | selector :: rest =>
      download ← try_catch (
          button ← query env selector;
          if button : bool then clickAndWait env timeout else mret None
        ) (mret None);
      match download with
      | Some d => mret (Some d)
      | None => clickSelectors env timeout rest
      end
  end.

(** Lines 437-449: click the first button of the first form. *)
Definition submitForm (env : Env) (timeout : N) : M (option Download) :=
  form ← query env "form";
  if form : bool then
    submitButton ← query env ("button, input[type=" +:+ quoted "submit" +:+ "]");
    if submitButton : bool then clickAndWait env timeout else mret None
  else mret None.

(** Lines 456-469: save the download and check it. *)
Definition saveDownload (d : Download) (outputPath : string) (isVideo : bool) : M unit :=
  saveAs d outputPath;;
  stats ← fs_stat_size_or_null outputPath;
  match stats with
  | Some size =>
      if 0 <? size then
        isValid ← validate outputPath (kindName isVideo);
        if isValid : bool then return_ (Some outputPath)
        else fs_unlink outputPath
      else mret tt
  | None => mret tt
  end.

(** Lines 383-403: the page itself may be the video file. *)
Definition fetchVideoPage (env : Env) (pageUrl outputPath : string) (isVideo : bool) : M unit :=
  try_catch (
    response ← goto env pageUrl;
    match response with
    | GotoResponse status _ responseBody_ =>
        if status =? 200 then
          buffer ← responseBody responseBody_;
          if 1000 <? length buffer then
            fs_writeFile outputPath buffer;;
            size ← fs_stat_size outputPath;
            if 1000 <? size then
              isValid ← validate outputPath (kindName isVideo);
              if isValid : bool then return_ (Some outputPath)
              else fs_unlink outputPath
            else mret tt
          else mret tt
        else mret tt
    | _ => mret tt
    end
  ) (mret tt).

(** Lines 350-472.  The [try] of lines 379-452 is only ever left by an
    exception from the form block, entered when [download] is null. *)
Definition browserDownload (env : Env) (fileId outputPath : string) (isVideo : bool) : M unit :=
  newPage env;;
  try_finally (
    let downloadUrl := getGoogleDriveDownloadUrl fileId in
    emit (WaitForDownload 60000%N);;
    navigate env downloadUrl;;
    emit (WaitForTimeout 3000%N);;
    download ← observe (download_event env);
    download ← (if isVideo && negb (bool_decide (is_Some download)) then
                  emit (WaitForTimeout 5000%N);;
                  emit (WaitForDownload 10000%N);;
                  observe (download_event env)
                else mret download);
    pageUrl ← observe (page_url env);
    download ← (if negb (bool_decide (is_Some download)) &&
                   (JsString.includes pageUrl "confirm=" ||
                    JsString.includes pageUrl "virusScanWarning" ||
                    JsString.includes pageUrl "googleusercontent") then
                  (if isVideo && JsString.includes pageUrl "googleusercontent"
                   then fetchVideoPage env pageUrl outputPath isVideo
                   else mret tt);;
                  download ← clickSelectors env 60000%N downloadSelectors;
                  match download with
                  | Some d => mret (Some d)
                  | None => try_catch (submitForm env 60000%N) (mret None)
                  end
                else mret download);
    match download with
    | Some d => saveDownload d outputPath isVideo
    | None => mret tt
    end
  ) (emit ClosePage).

(** Lines 486-501: load a plain URL in a page and keep the response body. *)
Definition browserFetch (env : Env) (url outputPath : string) (isVideo : bool) : M unit :=
  newPage env;;
  try_finally (
    response ← goto env url;
    match response with
    | GotoResponse _ _ responseBody_ =>
        buffer ← responseBody responseBody_;
        if 0 <? length buffer then
          fs_writeFile outputPath buffer;;
          isValid ← validate outputPath (kindName isVideo);
          if isValid : bool then return_ (Some outputPath) else mret tt
        else mret tt
    | _ => mret tt
    end
  ) (emit ClosePage).

Definition viewUrl (fileId : string) : string :=
  "https://drive.google.com/uc?export=view&id=" +:+ fileId.

(** ** downloadFile (lines 319-510) *)
Definition downloadFile (env : Env) (fuel : nat) (url outputPath : string) (isVideo : bool)
  : M (option string) :=
  call (
    if negb (JsString.truthy url) || String.eqb (JsString.trim url) "" then return_ None
    else
      try_catch (
        match extractGoogleDriveId url with
        | Some fileId =>
            result ← downloadGoogleDriveFile env fuel fileId outputPath isVideo;
            match result with
            | Some r => return_ (Some r)
            | None => mret tt
            end;;
            (if negb isVideo then
               try_catch (
                 downloadFileDirect env (viewUrl fileId) outputPath true 5;;
                 size ← fs_stat_size outputPath;
                 if 1000 <? size then return_ (Some outputPath)
                 else fs_unlink outputPath
               ) (mret tt)
             else mret tt);;
            browserDownload env fileId outputPath isVideo
        | None =>
            try_catch (
              downloadFileDirect env url outputPath true 5;;
              size ← fs_stat_size outputPath;
              if 0 <? size then
                isValid ← validate outputPath (kindName isVideo);
                if isValid : bool then return_ (Some outputPath) else mret tt
              else mret tt
            ) (browserFetch env url outputPath isVideo)
        end
      ) (return_ None);;
      return_ None).

(** ** downloadVideo (lines 513-515) *)
Definition downloadVideo (env : Env) (fuel : nat) (url outputPath : string) : M (option string) :=
  downloadFile env fuel url outputPath true.

(** ** downloadImage (lines 519-708) *)

(** Lines 534-538, 547-551, 558-562 and 680-684: download, and return the
    file when it has more than [threshold] bytes. *)
Definition attemptUnchecked (env : Env) (url outputPath : string) (followRedirects : bool)
    (threshold : nat) : M unit :=
  downloadFileDirect env url outputPath followRedirects 5;;
  size ← fs_stat_size outputPath;
  if threshold <? size then return_ (Some outputPath) else mret tt.

(** The test of line 660. *)
Definition acceptableImageResponse (status : nat) (contentType : option string) : bool :=
  let contentType := JsString.or_else contentType "" in
  (status =? 200) &&
  (JsString.startsWith contentType "image/" ||
   String.eqb contentType "application/octet-stream" ||
   negb (JsString.truthy contentType)).

(** Lines 571-676. *)
Definition browserDownloadImage (env : Env) (fileId outputPath : string) : M unit :=
  newPage env;;
  try_finally (
    let downloadUrl := getGoogleDriveDownloadUrl fileId in
    emit (WaitForDownload 60000%N);;
    navigate env downloadUrl;;
    emit (WaitForTimeout 3000%N);;
    download ← observe (download_event env);
    pageUrl ← observe (page_url env);
    download ← (if negb (bool_decide (is_Some download)) &&
                   (JsString.includes pageUrl "confirm=" ||
                    JsString.includes pageUrl "virusScanWarning") then
                  download ← clickSelectors env 30000%N downloadSelectors;
                  match download with
                  | Some d => mret (Some d)
                  | None => try_catch (submitForm env 30000%N) (mret None)
                  end
                else mret download);
    match download with
    | Some d =>
        saveAs d outputPath;;
        stats ← fs_stat_size_or_null outputPath;
        match stats with
        | Some size => if 0 <? size then return_ (Some outputPath) else mret tt
        | None => mret tt
        end
    | None => mret tt
    end;;
    try_catch (
      response ← goto env downloadUrl;
      match response with
      | GotoResponse status contentType responseBody_ =>
          if acceptableImageResponse status contentType then
            buffer ← responseBody responseBody_;
            if 0 <? length buffer then
              fs_writeFile outputPath buffer;;
              size ← fs_stat_size outputPath;
              if 0 <? size then return_ (Some outputPath) else mret tt
            else mret tt
          else mret tt
      | _ => mret tt
      end
    ) (mret tt)
  ) (emit ClosePage).

Definition downloadImage (env : Env) (url outputPath : string) : M (option string) :=
  call (
    if negb (JsString.truthy url) || String.eqb (JsString.trim url) "" then return_ None
    else
      try_catch (
        match extractGoogleDriveId url with
        | Some fileId =>
            let downloadUrl := "https://drive.google.com/uc?export=download&id=" +:+ fileId in
            try_catch (
              try_catch (attemptUnchecked env downloadUrl outputPath false 1000) (mret tt);;
              try_catch (attemptUnchecked env (viewUrl fileId) outputPath true 1000) (mret tt);;
              try_catch (attemptUnchecked env downloadUrl outputPath true 1000) (mret tt)
            ) (mret tt);;
            browserDownloadImage env fileId outputPath
        | None =>
            try_catch (attemptUnchecked env url outputPath true 0) (
              newPage env;;
              try_finally (
                response ← goto env url;
                match response with
                | GotoResponse _ _ responseBody_ =>
                    buffer ← responseBody responseBody_;
                    if 0 <? length buffer then
                      fs_writeFile outputPath buffer;;
                      return_ (Some outputPath)
                    else mret tt
                | _ => mret tt
                end
              ) (emit ClosePage))
        end
      ) (return_ None);;
      return_ None).

(** ** Scenarios *)

(** A world in which nothing answers: requests fail, the browser shows an
    empty page and no download ever starts. *)
Definition offline : Env :=
  {| http_get := fun _ _ => None;
     transfer := fun _ => Arrives;
     stream_finishes := fun _ => true;
     (* no server of the scenarios redirects to a relative location *)
     url_resolve := fun _ _ => None;
     new_page_ok := fun _ => true;
     navigation_ok := fun _ _ => true;
     goto_result := fun _ _ => GotoNull;
     download_event := fun _ => None;
     page_url := fun _ => "about:blank";
     query_result := fun _ _ => Some false;
     click_ok := fun _ => true;
     render_ok := fun _ => true |}.

(** The same world with a server that answers from a table of pages. *)
Definition serving (pages : string -> option Response) : Env :=
  {| http_get := fun _ url => pages url;
     transfer := transfer offline;
     stream_finishes := stream_finishes offline;
     url_resolve := url_resolve offline;
     new_page_ok := new_page_ok offline;
     navigation_ok := navigation_ok offline;
     goto_result := goto_result offline;
     download_event := download_event offline;
     page_url := page_url offline;
     query_result := query_result offline;
     click_ok := click_ok offline;
     render_ok := render_ok offline |}.

Definition ok200 (contentType : string) (content : buffer) : Response :=
  {| statusCode := 200; location := None; content_type := Some contentType; body := content |}.

(** A host whose bodies, of 3000 bytes, are cut by the request timeout
    after 2000 bytes. *)
Definition slowHost : Env :=
  {| http_get := fun _ _ => Some (ok200 "video/mp4" (repeat x00 3000));
     transfer := fun _ => TimesOut 2000;
     stream_finishes := stream_finishes offline;
     url_resolve := url_resolve offline;
     new_page_ok := new_page_ok offline;
     navigation_ok := navigation_ok offline;
     goto_result := goto_result offline;
     download_event := download_event offline;
     page_url := page_url offline;
     query_result := query_result offline;
     click_ok := click_ok offline;
     render_ok := render_ok offline |}.

Definition emptyWorld : World := {| files := ∅; trace := [] |}.

(** An interstitial page carrying the confirmation token abc123. *)
Definition warningPage : buffer :=
  list_byte_of_string
    "<!DOCTYPE html><html><body><a href=/uc?export=download&amp;confirm=abc123&amp;id=XYZ9>Download anyway</a></body></html>".

(** A PNG file of 1504 bytes. *)
Definition pngFile : buffer := pngSignature ++ repeat x00 1500.

(** The first 12 bytes of an MP4 file. *)
Definition tinyMp4 : buffer := [x00; x00; x00; x18] ++ ftypMarker ++ list_byte_of_string "isom".

(** A host that serves a 12-byte MP4 file. *)
Definition tinyClipHost : Env :=
  serving (fun url =>
    if String.eqb url "https://other-host.example/clip.mp4"
    then Some (ok200 "video/mp4" tinyMp4) else None).

(** A host that answers every request with the interstitial page. *)
Definition warningHost : Env :=
  serving (fun _ => Some (ok200 "text/html" warningPage)).

(** A Drive that shows the interstitial page for the plain download URL and
    serves a PNG file once the token is supplied. *)
Definition tokenDrive : Env :=
  serving (fun url =>
    if String.eqb url (getGoogleDriveDownloadUrl "XYZ9")
    then Some (ok200 "text/html" warningPage)
    else if String.eqb url (tokenUrl "XYZ9" "abc123")
    then Some (ok200 "image/png" pngFile)
    else None).

(** A Drive that shows the interstitial page whatever the token, and
    serves the PNG file for the blind confirmation. *)
Definition blindDrive : Env :=
  serving (fun url =>
    if String.eqb url (confirmTUrl "XYZ9")
    then Some (ok200 "image/png" pngFile)
    else Some (ok200 "text/html" warningPage)).

(** ** Specifications of statements *)

(** Every [return p] of [m] with a path [p] leaves a world where [G p]
    holds. *)
Definition returnsOnly {A : Type} (G : string -> World -> Prop) (m : M A) : Prop :=
  forall w p, (m w).1 = Return (Some p) -> G p (m w).2.

(** [m] contains no [return]. *)
Definition noReturn {A : Type} (m : M A) : Prop :=
  forall w r, (m w).1 <> Return r.

(** What a caller of [downloadGoogleDriveFile] can rely on when it gets
    a path: the file at [outputPath] has more than 1000 bytes and the
    signature of the requested kind. *)
Definition checkedLarge (outputPath : string) (isVideo : bool) (p : string) (w : World) : Prop :=
  p = outputPath /\
  exists buf, files w !! outputPath = Some buf /\ 1000 < length buf /\
              validateFileType (files w) outputPath (kindName isVideo) = true.

(** What a caller of [downloadFile] can rely on when it gets a path: a
    file at [outputPath] that is not empty and, for a video, has the video
    signature. *)
Definition fetchedFile (outputPath : string) (isVideo : bool) (p : string) (w : World) : Prop :=
  p = outputPath /\
  exists buf, files w !! outputPath = Some buf /\ 0 < length buf /\
              (isVideo = true -> validateFileType (files w) outputPath "video" = true).

(** ** The asset loop of generatePresentation (lines 1608-1724) *)

(** An entry of [assetMap]. *)
Record Asset := {
  asset_type : string;
  asset_path : option string;
  asset_video_url : option string;
  insertion_attempted : bool
}.

(** The state of the loop: the map from slide index to asset. *)
Record Pipeline := {
  assetMap : gmap nat Asset
}.

(** [assetMap.set(i, asset)] *)
Definition setAsset (i : nat) (asset : Asset) (st : Pipeline) : Pipeline :=
  {| assetMap := <[i := asset]> (assetMap st) |}.

Definition videoAsset (path videoUrl : string) : Asset :=
  {| asset_type := "video"; asset_path := Some path; asset_video_url := Some videoUrl;
     insertion_attempted := true |}.

Definition videoFailed (videoUrl : string) : Asset :=
  {| asset_type := "video_failed"; asset_path := None; asset_video_url := Some videoUrl;
     insertion_attempted := false |}.

Definition imageAsset (path : string) : Asset :=
  {| asset_type := "image"; asset_path := Some path; asset_video_url := None;
     insertion_attempted := false |}.

Definition diagramAsset (path : string) : Asset :=
  {| asset_type := "diagram"; asset_path := Some path; asset_video_url := None;
     insertion_attempted := false |}.

(** [slide.content?.video_url] and [slide.content?.image_url] *)
Definition contentVideoUrl (slide : Slide) : option string :=
  match content slide with
  | ContentObject video_url _ => video_url
  | _ => None
  end.

Definition contentImageUrl (slide : Slide) : option string :=
  match content slide with
  | ContentObject _ image_url => image_url
  | _ => None
  end.

(** Line 1626: [(slide._video_url || slide.content?.video_url || '').trim()] *)
Definition videoUrlOf (slide : Slide) : string :=
  JsString.trim (JsString.or_else (_video_url slide)
                   (JsString.or_else (contentVideoUrl slide) "")).

(** Line 1627 *)
Definition imageUrlOf (slide : Slide) : string :=
  JsString.trim (JsString.or_else (_image_url slide)
                   (JsString.or_else (contentImageUrl slide) "")).

(** Splits at the last occurrence of [c]. *)
Fixpoint splitLast (c : ascii) (s : string) : option (string * string) :=
  match s with
  | EmptyString => None
  | String a s' =>
      match splitLast c s' with
      | Some (before, after) => Some (String a before, after)
      | None => if Ascii.eqb a c then Some (EmptyString, s') else None
      end
  end.

Fixpoint dropTrailingSlashes (s : string) : string :=
  match s with
  | EmptyString => EmptyString
  | String c s' =>
      match dropTrailingSlashes s' with
      | EmptyString => if Ascii.eqb c "/" then EmptyString else String c EmptyString
      | t => String c t
      end
  end.

(** [path.extname(p)]: from the last dot of the last segment, unless that
    dot starts the segment. *)
Definition extname (p : string) : string :=
  let p := dropTrailingSlashes p in
  let base := match splitLast "/" p with Some (_, b) => b | None => p end in
  if String.eqb base ".." then ""
  else match splitLast "." base with
       | Some (EmptyString, _) => ""
       | Some (_, ext) => "." +:+ ext
       | None => ""
       end.

(** Lines 1638-1645 and 1695-1701: the output path of slide [i], with the
    extension of the URL path or [defaultExt]. *)
Definition mediaPathFor (assetsDir : string) (i : nat) (url defaultExt : string) : string :=
  let ext :=
    match Url.parse url with
    | Some urlObj =>
        let e := extname (Url.pathname urlObj) in
        if JsString.truthy e then e else defaultExt
    | None => defaultExt
    end in
  assetsDir +:+ "/" +:+ "module_" +:+ decimal i +:+ ext.

(** Lines 1625-1716: the media of one module description slide.  [skip]
    is the SKIP_VIDEO_DOWNLOAD switch of line 1623. *)
Definition processModuleSlide (env : Env) (fuel : nat) (skip : bool) (assetsDir : string)
    (i : nat) (slide : Slide) (st : Pipeline) : M Pipeline :=
  let videoUrl := videoUrlOf slide in
  let imageUrl := imageUrlOf slide in
  if negb (String.eqb videoUrl "") && negb skip then
    let mediaPath := mediaPathFor assetsDir i videoUrl ".mp4" in
    downloadedPath ← downloadVideo env fuel videoUrl mediaPath;
    match downloadedPath with
    | Some downloadedPath =>
        isValid ← validate downloadedPath "video";
        if isValid : bool then
          fs_stat_size downloadedPath;;
          mret (setAsset i (videoAsset downloadedPath videoUrl) st)
        else
          fs_unlink downloadedPath;;
          mret (setAsset i (videoFailed videoUrl) st)
    | None => mret (setAsset i (videoFailed videoUrl) st)
    end
  else if negb (String.eqb videoUrl "") && skip then
    mret (setAsset i (videoFailed videoUrl) st)
  else if negb (String.eqb imageUrl "") then
    let mediaPath := mediaPathFor assetsDir i imageUrl ".png" in
    downloadedPath ← downloadImage env imageUrl mediaPath;
    match downloadedPath with
    | Some downloadedPath => mret (setAsset i (imageAsset downloadedPath) st)
    | None => mret st
    end
  else mret st.

(** [renderMermaidDiagram(code, path)] as the loop sees it: it completes
    or it rejects.  The files it writes are left out. *)
Definition renderMermaidDiagram (env : Env) (path : string) : M unit :=
  ok ← observe (render_ok env);
  emit (RenderDiagram path);;
  if ok : bool then mret tt else throw.

(** One iteration of the loop of lines 1611-1724. *)
Definition processSlide (env : Env) (fuel : nat) (skip : bool) (assetsDir : string)
    (i : nat) (slide : Slide) (st : Pipeline) : M Pipeline :=
  st ← (if String.eqb (type slide) "module_description"
        then processModuleSlide env fuel skip assetsDir i slide st
        else mret st);
  match diagram slide with
  | Some (diagramType, _) =>
      if String.eqb (type slide) "diagram" && String.eqb diagramType "mermaid" then
        let diagramPath := assetsDir +:+ "/" +:+ "diagram_" +:+ decimal i +:+ ".png" in
        renderMermaidDiagram env diagramPath;;
        mret (setAsset i (diagramAsset diagramPath) st)
      else mret st
  | None => mret st
  end.

(** The loop, from index [i] on. *)
Fixpoint processAssets (env : Env) (fuel : nat) (skip : bool) (assetsDir : string)
    (i : nat) (slides : list Slide) (st : Pipeline) : M Pipeline :=
  match slides with
  | [] => mret st
  | slide :: rest =>
      st ← processSlide env fuel skip assetsDir i slide st;
      processAssets env fuel skip assetsDir (S i) rest st
  end.

(** The first request a fetch function makes for a URL that is not blank
    (lines 226, 476, 534 and 680): for the download URL of the file on a
    Google Drive link, for the URL itself otherwise. *)
Definition firstRequest (url : string) : string :=
  match extractGoogleDriveId url with
  | Some fileId => getGoogleDriveDownloadUrl fileId
  | None => url
  end.

(** The history has grown. *)
Definition grows (w w' : World) : Prop :=
  exists evs, trace w' = trace w ++ evs.

(** The history has grown by a stretch that begins with [e]. *)
Definition beginsWith (e : Event) (w w' : World) : Prop :=
  exists evs, trace w' = trace w ++ e :: evs.

(** A module description slide with the given media references. *)
Definition moduleSlide (video image : option string) : Slide :=
  {| type := "module_description"; title := Some "Module";
     content := ContentObject video image;
     slide_number := None; _video_url := None; _image_url := None; diagram := None;
     _splitSlide := false; _splitIndex := None; _splitTotal := None;
     _mergedSections := None |}.

Definition emptyPipeline : Pipeline := {| assetMap := ∅ |}.

(** The interstitial page padded to 1119 bytes. *)
Definition largeWarningPage : buffer := warningPage ++ repeat x20 1000.

(** A Drive that answers the view URL with the padded page and every other
    request with the interstitial page. *)
Definition viewPageDrive : Env :=
  serving (fun url =>
    if String.eqb url (viewUrl "XYZ9")
    then Some (ok200 "text/html" largeWarningPage)
    else Some (ok200 "text/html" warningPage)).

(** ** Signatures *)

Definition jpegSignature : buffer := [xff; xd8; xff].
Definition gifSignature : buffer := [x47; x49; x46; x38].


(** ** escapeHtml, one character at a time *)

(** The entity [escapeHtml] writes for one character. *)
Definition escapeChar (a : ascii) : string :=
  if Ascii.eqb a amp then "&amp;"
  else if Ascii.eqb a lt then "&lt;"
  else if Ascii.eqb a gt then "&gt;"
  else if Ascii.eqb a dquote then "&quot;"
  else if Ascii.eqb a squote then "&#039;"
  else String a "".

(** Every character replaced on its own, in one pass. *)
Fixpoint escapeEach (s : string) : string :=
  match s with
  | EmptyString => EmptyString
  | String a s' => escapeChar a +:+ escapeEach s'
  end.


(** ** aggregateSlides: the slides that are kept *)

(** The slides whose bullets reach the output of [aggregateSlides]: all
    but the System Requirements slides that the filter of lines 804-811
    drops. *)
Definition survives (s : Slide) : bool :=
  negb (isSystemRequirements s) || isNonTrivial (itemsOf s).


(** ** Effects of statements *)

(** Whatever way [m] completes, the world it leaves is related by [R] to
    the world it started in. *)
Definition steps {A : Type} (R : World -> World -> Prop) (m : M A) : Prop :=
  forall w, R w (m w).2.

(** The history has only grown, by events in [E], and no file outside
    [P] was created, changed or deleted. *)
Definition effects (E : Event -> Prop) (P : string -> Prop) (w w' : World) : Prop :=
  (exists evs, trace w' = trace w ++ evs /\ Forall E evs) /\
  (forall p, ~ P p -> files w' !! p = files w !! p).

Definition confined {A : Type} (E : Event -> Prop) (P : string -> Prop) (m : M A) : Prop :=
  steps (effects E P) m.

(** [m] always completes: it does not run forever. *)
Definition completes {A : Type} (m : M A) : Prop :=
  forall w, (m w).1 <> Diverge.

(** [m] throws nothing to its caller. *)
Definition noThrow {A : Type} (m : M A) : Prop :=
  forall w, (m w).1 <> Throw.

(** Every redirect the servers send names a place that [new URL] accepts. *)
Definition redirectsResolve (env : Env) : Prop :=
  forall t url response,
    http_get env t url = Some response -> isRedirect response = true ->
    redirectTarget env response url <> None.

(** No body stops for good without an event. *)
Definition noStall (env : Env) : Prop :=
  forall t received, transfer env t <> Stalls received.

(** Every body arrives whole. *)
Definition bodiesArrive (env : Env) : Prop :=
  forall t, transfer env t = Arrives.

Definition anyEvent (e : Event) : Prop := True.
Definition anyPath (p : string) : Prop := True.
Definition noPath (p : string) : Prop := False.

(** An event that opens or closes no page. *)
Definition notPageEvent (e : Event) : Prop := e <> NewPage /\ e <> ClosePage.

Definition isNewPage (e : Event) : bool :=
  match e with NewPage => true | _ => false end.

Definition isClosePage (e : Event) : bool :=
  match e with ClosePage => true | _ => false end.

(** The pages opened and the pages closed in a stretch of history. *)
Definition opened (evs : list Event) : nat := length (List.filter isNewPage evs).
Definition closed (evs : list Event) : nat := length (List.filter isClosePage evs).

(** The history has grown by a stretch in which as many pages were closed
    as were opened. *)
Definition pagesBalanced (w w' : World) : Prop :=
  exists evs, trace w' = trace w ++ evs /\ opened evs = closed evs.


(** ** cleanTimelineEvent (generate_from_json.js, lines 884-887; shared.js) *)

Definition isPipe (c : ascii) : bool := Ascii.eqb c "|".

Fixpoint skipPipes (s : string) : string :=
  match s with
  | EmptyString => EmptyString
  | String c s' => if isPipe c then skipPipes s' else s
  end.

(** What follows the match of [\s*\|+\s*] at the start of [s], when there
    is one.  White space and the bar are different characters, so the
    greedy match is the only one. *)
Definition afterPipes (s : string) : option string :=
  match skipSpaces s with
  | String c rest => if isPipe c then Some (skipSpaces (skipPipes rest)) else None
  | EmptyString => None
  end.

(** [s.replace(/^\s*\|+\s*/, '')] *)
Definition stripLeadingPipes (s : string) : string := default s (afterPipes s).

(** [s.replace(/\s*\|+\s*$/, '')]: the match starts at the first position
    from which it reaches the end of the string. *)
Fixpoint stripTrailingPipes (s : string) : string :=
  match afterPipes s with
  | Some EmptyString => EmptyString
  | _ =>
      match s with
      | EmptyString => EmptyString
      | String c s' => String c (stripTrailingPipes s')
      end
  end.

Definition cleanTimelineEvent (event : option string) : string :=
  match event with
  | Some e =>
      if negb (JsString.truthy e) then ""
      else JsString.trim (stripTrailingPipes (stripLeadingPipes e))
  | None => ""
  end.

(** A character that is neither white space nor a bar. *)
Definition isCoreChar (c : ascii) : bool := negb (JsString.is_space c) && negb (isPipe c).

(** White space or a bar. *)
Definition blankOrPipe (c : ascii) : bool := JsString.is_space c || isPipe c.


(** ** The asset loop: diagrams and media paths *)

(** The test of line 1719. *)
Definition isMermaidDiagram (slide : Slide) : bool :=
  String.eqb (type slide) "diagram" &&
  match diagram slide with
  | Some (diagramType, _) => String.eqb diagramType "mermaid"
  | None => false
  end.

(** A path the loop can hand to a fetch function for slide [i]. *)
Definition isMediaPathOf (assetsDir : string) (i : nat) (p : string) : Prop :=
  exists url ext, In ext [".mp4"; ".png"] /\ p = mediaPathFor assetsDir i url ext.


(** A slide with a Mermaid diagram. *)
Definition mermaidSlide : Slide :=
  {| type := "diagram"; title := Some "Architecture"; content := ContentMissing;
     slide_number := None; _video_url := None; _image_url := None;
     diagram := Some ("mermaid", "graph TD; A-->B");
     _splitSlide := false; _splitIndex := None; _splitTotal := None;
     _mergedSections := None |}.

(** What the loop guarantees for the video asset [a] of slide [k]: it
    belongs to a module description slide, carries its video URL and
    points at its media path, where a file with the video signature is. *)
Definition videoAssetKept (assetsDir : string) (slides : list Slide) (w : World)
    (k : nat) (a : Asset) : Prop :=
  exists slide, slides !! k = Some slide /\ type slide = "module_description" /\
    a = videoAsset (mediaPathFor assetsDir k (videoUrlOf slide) ".mp4") (videoUrlOf slide) /\
    validateFileType (files w) (mediaPathFor assetsDir k (videoUrlOf slide) ".mp4") "video"
      = true.


(** ** The media block of a module description slide
       (generateModuleDescriptionHTML, lines 1256-1273 and 1396-1408;
       its call in generatePresentation, lines 1752-1759) *)

(** The check mark U+2713 of the messages, written as its UTF-8 bytes. *)
Definition checkMark : string :=
  String (ascii_of_nat 226) (String (ascii_of_nat 156) (String (ascii_of_nat 147) "")).

(** [slide.title] as a value. *)
Definition titleValue (slide : Slide) : JsValue :=
  match title slide with
  | Some t => VString t
  | None => VUndefined
  end.

(** The paragraph that shows the video URL, and the end of the link
    element. *)
Definition linkParagraph (videoUrl : string) : string :=
  "<p>" +:+ escapeHtml (VString videoUrl) +:+ "</p></div>".

(** The content of the media-content element.  [mediaRelPath] is null
    ([None]) or the relative path of the media file. *)
Definition mediaContentHTML (mediaRelPath : option string) (mediaType : string)
    (slideTitle : JsValue) (videoUrl : string) : string :=
  let hasPath := JsString.truthy (default "" mediaRelPath) in
  let rel := default "" mediaRelPath in
  let isVideo := String.eqb mediaType "video" || String.eqb mediaType "video_manual_insert" in
  let hasUrl := JsString.truthy videoUrl && negb (String.eqb (JsString.trim videoUrl) "") in
  let showVideoLink := (negb hasPath && hasUrl) || (isVideo && hasPath && hasUrl) in
  if hasPath && negb isVideo then
    "<img src=" +:+ quoted rel +:+ " alt=" +:+ quoted (escapeHtml slideTitle) +:+
    " data-media-path=" +:+ quoted rel +:+ " data-media-type=" +:+ quoted "image" +:+ " />"
  else if isVideo && hasPath then
    "<video src=" +:+ quoted rel +:+ " controls data-media-path=" +:+ quoted rel +:+
    " data-media-type=" +:+ quoted "video" +:+ ">" +:+ nl +:+
    "        Your browser does not support the video tag." +:+ nl +:+
    "      </video>" +:+ nl +:+
    "      " +:+
    (if showVideoLink then
       "<div class=" +:+ quoted "video-link" +:+ "><p>" +:+ checkMark +:+
       " Video downloaded successfully. Video URL (manual insert - if video doesn't appear in PowerPoint):</p>"
       +:+ linkParagraph videoUrl
     else "")
  else if showVideoLink then
    "<div class=" +:+ quoted "video-link" +:+ "><p>" +:+
    (if isVideo && hasPath then checkMark +:+ " Video downloaded successfully. " else "") +:+
    "Video URL (manual insert):</p>" +:+ linkParagraph videoUrl
  else "".

(** Lines 1260 and 1752-1757: the arguments the generator is called with
    for slide [slide] and its entry [asset] in the asset map.
    [relative p] is [path.relative(htmlDir, p)]. *)
Definition moduleMediaHTML (relative : string -> string) (slide : Slide)
    (asset : option Asset) : string :=
  let videoUrl :=
    JsString.or_else (_video_url slide) (JsString.or_else (contentVideoUrl slide) "") in
  let videoUrlForLink :=
    if JsString.truthy videoUrl then videoUrl
    else JsString.or_else (asset ≫= asset_video_url) "" in
  let mediaPath := asset ≫= asset_path in
  let mediaType :=
    match asset with
    | Some a => if JsString.truthy (asset_type a) then asset_type a else "image"
    | None => "image"
    end in
  let mediaRelPath :=
    match mediaPath with
    | Some p => if JsString.truthy p then Some (relative p) else None
    | None => None
    end in
  mediaContentHTML mediaRelPath mediaType (titleValue slide) videoUrlForLink.


(** [path.relative(htmlDir, p)] for a file [p] of the assets directory,
    [htmlDir] and the assets directory being the directories html and
    assets of the output directory (lines 1586-1587): up to the output
    directory and down to the file.  The loop stores no other path; one
    is left as it is. *)
Definition relativeToHtml (assetsDir p : string) : string :=
  match stripPrefix (assetsDir +:+ "/") p with
  | Some name => "../assets/" +:+ name
  | None => p
  end.

(** A host that serves a PNG file under a name with an apostrophe in its
    extension. *)
Definition pictureHost : Env :=
  serving (fun url =>
    if String.eqb url "https://pictures.example/v.m'4"
    then Some (ok200 "image/png" pngFile) else None).


(** ** Redirect loops *)

(** A server that answers every request with a redirect to the same
    place. *)
Definition redirect302 (target : string) : Response :=
  {| statusCode := 302; location := Some target; content_type := None; body := [] |}.

Definition redirectLoop : Env :=
  serving (fun _ => Some (redirect302 "https://loop.example/again")).

(** Every request is answered with a redirect. *)
Definition alwaysRedirects (env : Env) : Prop :=
  forall t url, exists response,
    http_get env t url = Some response /\ isRedirect response = true.


(** ** The table of a content_table slide (generateContentTableHTML,
       lines 1178-1206) *)

Definition TEXT_COLOR : string := "#FFFFFF".

(** One header cell (line 1189). *)
Definition headerCellHTML (header : JsValue) : string :=
  "<th style=" +:+
  quoted ("background: " +:+ ACCENT_COLOR +:+ "; color: " +:+ TEXT_COLOR +:+
          "; padding: 8pt; text-align: left; font-weight: bold; border: 1px solid " +:+
          ACCENT_COLOR +:+ ";") +:+
  ">" +:+ escapeHtml header +:+ "</th>".

(** One cell (line 1200): the value is made a string before it is
    escaped. *)
Definition cellHTML (bgColor : string) (cell : JsValue) : string :=
  "<td style=" +:+
  quoted ("padding: 8pt; color: " +:+ TEXT_COLOR +:+ "; border: 1px solid #444; background: " +:+
          bgColor +:+ "; word-wrap: break-word; overflow-wrap: break-word;") +:+
  ">" +:+ escapeHtml (VString (toString cell)) +:+ "</td>".

(** [s1 + s2 + ...] *)
Definition concatStrings (l : list string) : string := fold_right String.append "" l.

(** The rows from index [index] on (lines 1196-1204). *)
Fixpoint rowsHTML (index : nat) (rows : list (list JsValue)) : string :=
  match rows with
  | [] => ""
  | row :: rest =>
      let bgColor := if index mod 2 =? 0 then "#1a1a1a" else "#2a2a2a" in
      "<tr>" +:+ concatStrings (map (cellHTML bgColor) row) +:+ "</tr>" +:+
      rowsHTML (S index) rest
  end.

Definition tableHTML (headers : list JsValue) (rows : list (list JsValue)) : string :=
  "<table style=" +:+ quoted "width: 100%; border-collapse: collapse; margin: 0;" +:+ ">" +:+
  (if 0 <? length headers
   then "<thead><tr>" +:+ concatStrings (map headerCellHTML headers) +:+ "</tr></thead>"
   else "") +:+
  "<tbody>" +:+ rowsHTML 0 rows +:+ "</tbody></table>".

(** The same cells without their texts. *)
Definition blank (values : list JsValue) : list JsValue := map (fun _ => VString "") values.


(** ** What a failure leaves behind *)

(** What a failed attempt may leave at the output path: the file that
    was there before, nothing, or a file of at most 1000 bytes. *)
Definition kept (out : string) (w w' : World) : Prop :=
  files w' !! out = files w !! out \/
  files w' !! out = None \/
  exists buf, files w' !! out = Some buf /\ length buf <= 1000.

(** The output file holds the part of the body of a 200 response that has
    arrived; the other files are as they were. *)
Definition cutShort (out : string) (w w' : World) : Prop :=
  exists response received,
    statusCode response = 200 /\
    files w' = <[out := take received (body response)]> (files w).

(** Unless [m] returns a path, it leaves the output path as [kept] says. *)
Definition cleansUp {A : Type} (out : string) (m : M A) : Prop :=
  forall w, (exists p, (m w).1 = Return (Some p)) \/ kept out w (m w).2.

(** * Part II. Properties *)

(** ** validateFileType *)

Lemma byteIs_app_l (p rest : buffer) (i : nat) (v : byte) :
  i < length p -> byteIs (p ++ rest) i v = byteIs p i v.
Proof.
  intros Hi. unfold byteIs. now rewrite lookup_app_l.
Qed.

Lemma png_prefix_bytes (rest : buffer) :
  byteIs (pngSignature ++ rest) 0 x89 && byteIs (pngSignature ++ rest) 1 x50
  && byteIs (pngSignature ++ rest) 2 x4e && byteIs (pngSignature ++ rest) 3 x47 = true.
Proof. reflexivity. Qed.

Lemma png_prefix_long (rest : buffer) : (length (pngSignature ++ rest) <? 4) = false.
Proof. rewrite length_app. apply Nat.ltb_ge. simpl. lia. Qed.

(** C6: a file whose first four bytes are 89 50 4E 47 is accepted as an
    image and rejected as a video. *)
Theorem validateFileType_png (fs : filesystem) (p : string) (rest : buffer) :
  fs !! p = Some (pngSignature ++ rest) ->
  validateFileType fs p "image" = true /\ validateFileType fs p "video" = false.
Proof.
  intros Hp. unfold validateFileType. rewrite Hp, png_prefix_long.
  cbn [String.eqb Ascii.eqb Bool.eqb]. rewrite png_prefix_bytes. split; reflexivity.
Qed.

Lemma validateFileType_png_witness :
  validateFileType {[ "a.png" := pngSignature ++ [x0d; x0a] ]} "a.png" "image" = true /\
  validateFileType {[ "a.png" := pngSignature ++ [x0d; x0a] ]} "a.png" "video" = false.
Proof.
  apply (validateFileType_png _ "a.png" [x0d; x0a]). reflexivity.
Defined.

Lemma byteIs_eq (buf : buffer) (i : nat) (v : byte) :
  byteIs buf i v = true -> buf !! i = Some v.
Proof.
  unfold byteIs. destruct (buf !! i) as [b|]; [|discriminate].
  intros H. f_equal. now apply Byte.byte_dec_bl.
Qed.

Lemma png_check_head (head rest : buffer) :
  length head = 4 ->
  byteIs (head ++ rest) 0 x89 && byteIs (head ++ rest) 1 x50
  && byteIs (head ++ rest) 2 x4e && byteIs (head ++ rest) 3 x47 = true ->
  head = pngSignature.
Proof.
  intros Hlen H.
  destruct head as [|a [|b [|c [|d [|e t]]]]]; try discriminate Hlen.
  apply andb_prop in H as [H H3]. apply andb_prop in H as [H H2].
  apply andb_prop in H as [H0 H1].
  apply byteIs_eq in H0, H1, H2, H3. cbn in H0, H1, H2, H3.
  unfold pngSignature. congruence.
Qed.

(** C7 (counterexample): bytes 4-7 are "ftyp", yet the file is rejected as
    a video, once because it starts with the PNG signature and once because
    its first 100 bytes contain a markup tag. *)
Lemma validateFileType_ftyp_rejected :
  let png_then_ftyp := pngSignature ++ ftypMarker in
  let ftyp_then_html := [x00; x00; x00; x18] ++ ftypMarker ++ list_byte_of_string "<html>" in
  (4 <= length png_then_ftyp /\ take 4 (drop 4 png_then_ftyp) = ftypMarker /\
   validateFileType {[ "v.mp4" := png_then_ftyp ]} "v.mp4" "video" = false) /\
  (4 <= length ftyp_then_html /\ take 4 (drop 4 ftyp_then_html) = ftypMarker /\
   validateFileType {[ "v.mp4" := ftyp_then_html ]} "v.mp4" "video" = false).
Proof. vm_compute. repeat split; lia. Qed.

(** C7 (amended): a file with "ftyp" at offsets 4-7 is accepted as a video
    when its first four bytes are not the PNG signature and its first 100
    bytes, lower-cased, contain neither "<!doctype" nor "<html". *)
Theorem validateFileType_ftyp (fs : filesystem) (p : string) (head rest : buffer) :
  length head = 4 ->
  head <> pngSignature ->
  looksLikeMarkup (head ++ ftypMarker ++ rest) = false ->
  fs !! p = Some (head ++ ftypMarker ++ rest) ->
  validateFileType fs p "video" = true.
Proof.
  intros Hlen Hpng Hmarkup Hp. unfold validateFileType. rewrite Hp.
  assert (Hsize : length (head ++ ftypMarker ++ rest) = 8 + length rest)
    by (rewrite !length_app, Hlen; simpl; lia).
  rewrite Hsize.
  replace (8 + length rest <? 4) with false by (symmetry; apply Nat.ltb_ge; lia).
  cbn [String.eqb Ascii.eqb Bool.eqb].
  destruct (byteIs (head ++ ftypMarker ++ rest) 0 x89 && _ && _ && _) eqn:Hsig.
  { exfalso. apply Hpng. eapply png_check_head; eauto. }
  unfold looksLikeMarkup, markupProbe in Hmarkup. rewrite Hsize in Hmarkup.
  rewrite Hmarkup.
  replace (8 <=? 8 + length rest) with true by (symmetry; apply Nat.leb_le; lia).
  destruct head as [|a [|b [|c [|d [|e t]]]]]; try discriminate Hlen.
  reflexivity.
Qed.

Lemma validateFileType_ftyp_witness :
  validateFileType {[ "v.mp4" := [x00; x00; x00; x18] ++ ftypMarker ++ list_byte_of_string "isom" ]}
    "v.mp4" "video" = true.
Proof.
  apply (validateFileType_ftyp _ "v.mp4" [x00; x00; x00; x18] (list_byte_of_string "isom")).
  - reflexivity.
  - discriminate.
  - vm_compute. reflexivity.
  - reflexivity.
Defined.

(** ** escapeHtml *)

Lemma chars_app (s t : string) :
  list_ascii_of_string (s +:+ t) = list_ascii_of_string s ++ list_ascii_of_string t.
Proof. induction s as [|a s IH]; simpl; [reflexivity | now rewrite IH]. Qed.

(** A character of the result of a replacement comes from the replacement
    text, or is a character of the input other than the replaced one. *)
Lemma replaceAllChar_chars (c : ascii) (r s : string) (f : ascii) :
  In f (list_ascii_of_string (replaceAllChar c r s)) ->
  In f (list_ascii_of_string r) \/ (In f (list_ascii_of_string s) /\ f <> c).
Proof.
  induction s as [|a s IH]; simpl; [tauto|].
  destruct (Ascii.eqb_spec a c) as [->|Hne].
  - rewrite chars_app, in_app_iff. intros [H|H]; [now left|].
    destruct (IH H) as [?|[? ?]]; [now left | right; tauto].
  - simpl. intros [<-|H]; [right; split; [now left | assumption]|].
    destruct (IH H) as [?|[? ?]]; [now left | right; tauto].
Qed.

Lemma escapeHtml_falsy (v : JsValue) : truthy v = false -> escapeHtml v = "".
Proof. intros H. unfold escapeHtml. now rewrite H. Qed.

Lemma escapeHtml_no_markup (v : JsValue) (c : ascii) :
  In c markupChars -> ~ In c (list_ascii_of_string (escapeHtml v)).
Proof.
  intros Hc Hin. unfold escapeHtml in Hin.
  destruct (negb (truthy v)); [exact Hin|].
  apply replaceAllChar_chars in Hin as [Hin|[Hin H5]].
  { simpl in Hc, Hin. unfold lt, gt, dquote, squote in Hc.
    intuition (subst; discriminate). }
  apply replaceAllChar_chars in Hin as [Hin|[Hin H4]].
  { simpl in Hc, Hin. unfold lt, gt, dquote, squote in Hc.
    intuition (subst; discriminate). }
  apply replaceAllChar_chars in Hin as [Hin|[Hin H3]].
  { simpl in Hc, Hin. unfold lt, gt, dquote, squote in Hc.
    intuition (subst; discriminate). }
  apply replaceAllChar_chars in Hin as [Hin|[Hin H2]].
  { simpl in Hc, Hin. unfold lt, gt, dquote, squote in Hc.
    intuition (subst; discriminate). }
  simpl in Hc. intuition congruence.
Qed.

Lemma countChar_app (c : ascii) (s t : string) :
  countChar c (s +:+ t) = countChar c s + countChar c t.
Proof. induction s as [|a s IH]; simpl; [reflexivity | rewrite IH; lia]. Qed.

Lemma countChar_absent (c : ascii) (s : string) :
  ~ In c (list_ascii_of_string s) -> countChar c s = 0.
Proof.
  induction s as [|a s IH]; simpl; [reflexivity|]. intros H.
  destruct (Ascii.eqb_spec a c) as [->|Hne]; [exfalso; apply H; now left|].
  apply IH. tauto.
Qed.

Lemma truthy_orEmpty (v : JsValue) : truthy (orEmpty v) = truthy v.
Proof. unfold orEmpty. destruct (truthy v) eqn:E; [exact E | reflexivity]. Qed.

(** The markup characters of the title slide body are those of its
    template: the interpolated texts contribute none. *)
Lemma titleContainerHTML_markup (title date : JsValue) (c : ascii) :
  In c markupChars ->
  countChar c (titleContainerHTML title date) =
  countChar c (titleContainerHTML VNull (VBool (truthy date))).
Proof.
  intros Hc. unfold titleContainerHTML.
  rewrite !truthy_orEmpty. cbn [truthy].
  destruct (truthy date) eqn:Hd.
  - repeat (rewrite !countChar_app || cbn [countChar]).
    rewrite !(countChar_absent c (escapeHtml _)) by now apply escapeHtml_no_markup.
    reflexivity.
  - repeat (rewrite !countChar_app || cbn [countChar]).
    rewrite !(countChar_absent c (escapeHtml _)) by now apply escapeHtml_no_markup.
    reflexivity.
Qed.

(** The markup characters of a bullet are those of the span around it,
    if it has one: the text of the item contributes none. *)
Lemma formattedText_markup (level : nat) (text : string) (c : ascii) :
  In c markupChars ->
  countChar c (formattedText level text) =
  if hasSpan level text then (if Ascii.eqb c squote then 0 else 2) else 0.
Proof.
  intros Hc. unfold formattedText, hasSpan.
  assert (Hesc : forall v, countChar c (escapeHtml v) = 0)
    by (intros v; now apply countChar_absent, escapeHtml_no_markup).
  destruct (Url.splitAt ":" text) as [[|k key] [value|]];
    try destruct ((level =? 0) && JsString.truthy text && negb (JsString.includes text ":"));
    rewrite ?countChar_app, ?Hesc;
    destruct Hc as [<-|[<-|[<-|[<-|[]]]]]; reflexivity.
Qed.




(** ** extractGoogleDriveId *)

(** An identifier character is none of the URL delimiters. *)
Lemma isIdChar_not_delimiter (a : ascii) :
  isIdChar a = true ->
  forallb (fun c => negb (Ascii.eqb a c)) ["/"; "#"; "?"; "&"; "="; "+"; "%"; ":"]%char = true.
Proof.
  destruct a as [[] [] [] [] [] [] [] []]; vm_compute; intros H;
    first [reflexivity | discriminate H].
Qed.

Lemma isIdChar_neq (a c : ascii) :
  isIdChar a = true ->
  In c ["/"; "#"; "?"; "&"; "="; "+"; "%"; ":"]%char ->
  Ascii.eqb a c = false /\ Ascii.eqb c a = false.
Proof.
  intros Ha Hc. pose proof (isIdChar_not_delimiter _ Ha) as D.
  rewrite forallb_forall in D. specialize (D c Hc). apply negb_true_iff in D.
  split; [exact D | now rewrite Ascii.eqb_sym].
Qed.

Lemma takeIdChars_stop (id : string) (c : ascii) (rest : string) :
  Url.all_chars isIdChar id = true -> isIdChar c = false ->
  takeIdChars (id +:+ String c rest) = id.
Proof.
  intros Hid Hc. induction id as [|a id IH]; simpl in *.
  - now rewrite Hc.
  - apply andb_prop in Hid as [Ha Hid]. rewrite Ha. f_equal. auto.
Qed.

Lemma takeIdChars_all (id : string) :
  Url.all_chars isIdChar id = true -> takeIdChars id = id.
Proof.
  induction id as [|a id IH]; simpl; [reflexivity|].
  intros H. apply andb_prop in H as [Ha Hid]. rewrite Ha. f_equal. auto.
Qed.

Lemma matchAfterMarker_skip (marker : string) (a : ascii) (s : string) :
  stripPrefix marker (String a s) = None ->
  matchAfterMarker marker (String a s) = matchAfterMarker marker s.
Proof. intros H. cbn [matchAfterMarker]. now rewrite H. Qed.

Lemma matchAfterMarker_here (marker s rest id : string) :
  stripPrefix marker s = Some rest -> takeIdChars rest = id -> JsString.truthy id = true ->
  matchAfterMarker marker s = Some id.
Proof.
  intros H1 H2 H3. destruct s; cbn [matchAfterMarker]; rewrite H1, H2;
    destruct id; try discriminate H3; reflexivity.
Qed.

Lemma matchAfterMarker_id (id : string) :
  Url.all_chars isIdChar id = true -> matchAfterMarker "/file/d/" id = None.
Proof.
  induction id as [|a id IH]; [reflexivity|]. simpl Url.all_chars.
  intros H. apply andb_prop in H as [Ha Hid].
  rewrite matchAfterMarker_skip; [auto|].
  cbn [stripPrefix]. destruct (isIdChar_neq a "/" Ha) as [_ ->]; [simpl; tauto | reflexivity].
Qed.

Lemma splitAt_absent (c : ascii) (s : string) :
  Url.all_chars (fun a => negb (Ascii.eqb a c)) s = true -> Url.splitAt c s = (s, None).
Proof.
  induction s as [|a s IH]; simpl; [reflexivity|].
  intros H. apply andb_prop in H as [Ha Hs]. apply negb_true_iff in Ha.
  now rewrite Ha, IH.
Qed.

Lemma splitOn_absent (c : ascii) (s : string) :
  Url.all_chars (fun a => negb (Ascii.eqb a c)) s = true -> Url.splitOn c s = [s].
Proof.
  induction s as [|a s IH]; simpl; [reflexivity|].
  intros H. apply andb_prop in H as [Ha Hs]. apply negb_true_iff in Ha.
  now rewrite Ha, IH.
Qed.

Lemma all_chars_impl (p q : ascii -> bool) (s : string) :
  (forall a, p a = true -> q a = true) ->
  Url.all_chars p s = true -> Url.all_chars q s = true.
Proof.
  intros Hpq. induction s as [|a s IH]; simpl; [reflexivity|].
  intros H. apply andb_prop in H as [Ha Hs]. now rewrite (Hpq _ Ha), IH.
Qed.

Lemma id_without (c : ascii) (id : string) :
  In c ["/"; "#"; "?"; "&"; "="; "+"; "%"; ":"]%char ->
  Url.all_chars isIdChar id = true ->
  Url.all_chars (fun a => negb (Ascii.eqb a c)) id = true.
Proof.
  intros Hc. apply all_chars_impl. intros a Ha.
  pose proof (isIdChar_not_delimiter _ Ha) as D.
  rewrite forallb_forall in D. now apply D.
Qed.

Lemma append_String (a : ascii) (s t : string) : String a s +:+ t = String a (s +:+ t).
Proof. reflexivity. Qed.

Lemma append_empty (t : string) : "" +:+ t = t.
Proof. reflexivity. Qed.

Lemma append_empty_r (s : string) : s +:+ "" = s.
Proof. induction s as [|a s IH]; [reflexivity|]. rewrite append_String. now rewrite IH. Qed.

Ltac unfold_append := rewrite ?append_String, ?append_empty.

Lemma isHostChar_neq (a c : ascii) :
  isHostChar a = true -> In c ["/"; "?"; "#"]%char ->
  Ascii.eqb a c = false /\ Ascii.eqb c a = false.
Proof.
  unfold isHostChar. intros Ha Hc. apply negb_true_iff in Ha.
  apply orb_false_elim in Ha as [Ha H3]. apply orb_false_elim in Ha as [H1 H2].
  assert (E : Ascii.eqb a c = false)
    by (destruct Hc as [<-|[<-|[<-|[]]]]; assumption).
  split; [exact E | now rewrite Ascii.eqb_sym].
Qed.

(** A host name holds no slash, so no match of the marker starts in it. *)
Lemma matchAfterMarker_host (h rest : string) :
  Url.all_chars isHostChar h = true ->
  matchAfterMarker "/file/d/" (h +:+ rest) = matchAfterMarker "/file/d/" rest.
Proof.
  induction h as [|a h IH]; [reflexivity|]. cbn [Url.all_chars].
  intros H. apply andb_prop in H as [Ha Hh]. rewrite append_String.
  rewrite matchAfterMarker_skip; [auto|].
  cbn [stripPrefix]. destruct (isHostChar_neq a "/" Ha) as [_ ->]; [simpl; tauto | reflexivity].
Qed.

(** Nor does a match start at the slash before the host name, when the
    path after the host does not start with "/d". *)
Lemma stripPrefix_before_host (h : string) (c : ascii) (rest : string) :
  Url.all_chars isHostChar h = true ->
  Ascii.eqb "d" c = false ->
  stripPrefix "/file/d/" (String "/" (h +:+ String "/" (String c rest))) = None.
Proof.
  intros Hh Hc. cbn [stripPrefix]. rewrite Ascii.eqb_refl.
  destruct h as [|a1 h]; [reflexivity|].
  rewrite append_String. cbn [stripPrefix]. destruct (Ascii.eqb "f" a1); [|reflexivity].
  destruct h as [|a2 h]; [reflexivity|].
  rewrite append_String. cbn [stripPrefix]. destruct (Ascii.eqb "i" a2); [|reflexivity].
  destruct h as [|a3 h]; [reflexivity|].
  rewrite append_String. cbn [stripPrefix]. destruct (Ascii.eqb "l" a3); [|reflexivity].
  destruct h as [|a4 h]; [reflexivity|].
  rewrite append_String. cbn [stripPrefix]. destruct (Ascii.eqb "e" a4); [|reflexivity].
  destruct h as [|a5 h].
  - rewrite append_empty. cbn [stripPrefix]. rewrite Ascii.eqb_refl. now rewrite Hc.
  - rewrite append_String. cbn [stripPrefix].
    cbn [Url.all_chars] in Hh. do 4 (apply andb_prop in Hh as [_ Hh]).
    apply andb_prop in Hh as [Ha5 _].
    destruct (isHostChar_neq a5 "/" Ha5) as [_ ->]; [simpl; tauto | reflexivity].
Qed.

Lemma splitAt_app (c : ascii) (h rest : string) :
  Url.all_chars (fun a => negb (Ascii.eqb a c)) h = true ->
  Url.splitAt c (h +:+ rest) = (h +:+ (Url.splitAt c rest).1, (Url.splitAt c rest).2).
Proof.
  induction h as [|a h IH]; cbn [Url.all_chars].
  - intros _. rewrite !append_empty. now destruct (Url.splitAt c rest).
  - intros H. apply andb_prop in H as [Ha Hh]. apply negb_true_iff in Ha.
    rewrite !append_String. cbn [Url.splitAt]. rewrite Ha, (IH Hh). reflexivity.
Qed.

Lemma host_without (c : ascii) (h : string) :
  In c ["/"; "?"; "#"]%char ->
  Url.all_chars isHostChar h = true ->
  Url.all_chars (fun a => negb (Ascii.eqb a c)) h = true.
Proof.
  intros Hc. apply all_chars_impl. intros a Ha.
  destruct (isHostChar_neq a c Ha Hc) as [-> _]. reflexivity.
Qed.

(** *** What the parser does with the URLs of the script *)

(** A character that is no C0 control and no space. *)
Lemma isDomainChar_facts (a : ascii) :
  isDomainChar a = true ->
  Url.is_c0_or_space a = false /\ Url.endsAuthority true a = false /\
  Url.isSlash a = false /\ isHostChar a = true /\
  forallb (fun c => negb (Ascii.eqb a c)) ["@"; ":"; "["; "]"; "%"]%char = true /\
  (nat_of_ascii a <? 128) = true /\
  Url.isForbiddenDomainChar (JsString.lower_char a) = false.
Proof.
  destruct a as [[] [] [] [] [] [] [] []]; vm_compute; intros H;
    first [discriminate H | repeat split].
Qed.

Lemma isIdChar_facts (a : ascii) :
  isIdChar a = true ->
  Url.is_c0_or_space a = false /\ (nat_of_ascii a <? 128) = true.
Proof.
  destruct a as [[] [] [] [] [] [] [] []]; vm_compute; intros H;
    first [discriminate H | repeat split].
Qed.

Lemma dropWhileEnd_none (p : ascii -> bool) (s : string) :
  Url.all_chars (fun a => negb (p a)) s = true -> Url.dropWhileEnd p s = s.
Proof.
  induction s as [|a s IH]; [reflexivity|]. cbn [Url.all_chars Url.dropWhileEnd].
  intros H. apply andb_prop in H as [Ha Hs]. apply negb_true_iff in Ha.
  rewrite (IH Hs), Ha. now destruct s.
Qed.

Lemma removeChars_none (p : ascii -> bool) (s : string) :
  Url.all_chars (fun a => negb (p a)) s = true -> Url.removeChars p s = s.
Proof.
  induction s as [|a s IH]; [reflexivity|]. cbn [Url.all_chars Url.removeChars].
  intros H. apply andb_prop in H as [Ha Hs]. apply negb_true_iff in Ha.
  now rewrite Ha, (IH Hs).
Qed.

Lemma dropWhile_none (p : ascii -> bool) (s : string) :
  Url.all_chars (fun a => negb (p a)) s = true -> Url.dropWhile p s = s.
Proof.
  destruct s as [|a s]; [reflexivity|]. cbn [Url.all_chars Url.dropWhile].
  intros H. apply andb_prop in H as [Ha _]. apply negb_true_iff in Ha. now rewrite Ha.
Qed.

Lemma tab_is_c0 (a : ascii) :
  negb (Url.is_c0_or_space a) = true -> negb (Url.is_tab_or_newline a) = true.
Proof. destruct a as [[] [] [] [] [] [] [] []]; vm_compute; auto. Qed.

(** An input without C0 controls and spaces is parsed as it is. *)
Lemma clean_visible (s : string) :
  Url.all_chars (fun a => negb (Url.is_c0_or_space a)) s = true -> Url.clean s = s.
Proof.
  intros H. unfold Url.clean. rewrite dropWhile_none, dropWhileEnd_none by exact H.
  apply removeChars_none. revert H. apply all_chars_impl, tab_is_c0.
Qed.

Lemma all_chars_app (p : ascii -> bool) (s t : string) :
  Url.all_chars p (s +:+ t) = Url.all_chars p s && Url.all_chars p t.
Proof.
  induction s as [|a s IH]; [reflexivity|]. rewrite append_String. cbn [Url.all_chars].
  now rewrite IH, andb_assoc.
Qed.

Lemma span_app (p : ascii -> bool) (h : string) (c : ascii) (t : string) :
  Url.all_chars p h = true -> p c = false ->
  Url.span p (h +:+ String c t) = (h, String c t).
Proof.
  intros Hh Hc. induction h as [|a h IH].
  - rewrite append_empty. cbn [Url.span]. now rewrite Hc.
  - cbn [Url.all_chars] in Hh. apply andb_prop in Hh as [Ha Hh].
    rewrite append_String. cbn [Url.span]. now rewrite Ha, (IH Hh).
Qed.

Lemma afterLastAt_none (h : string) :
  Url.all_chars (fun a => negb (Ascii.eqb a "@")) h = true -> Url.afterLastAt h = None.
Proof.
  induction h as [|a h IH]; [reflexivity|]. cbn [Url.all_chars Url.afterLastAt].
  intros H. apply andb_prop in H as [Ha Hh]. apply negb_true_iff in Ha.
  now rewrite (IH Hh), Ha.
Qed.

Lemma splitHostPort_none (h : string) :
  Url.all_chars (fun a => negb (Ascii.eqb a ":") && negb (Ascii.eqb a "[")) h = true ->
  Url.splitHostPort false h = (h, None).
Proof.
  induction h as [|a h IH]; [reflexivity|]. cbn [Url.all_chars Url.splitHostPort].
  intros H. apply andb_prop in H as [Ha Hh]. apply andb_prop in Ha as [H1 H2].
  apply negb_true_iff in H1, H2. rewrite H1, H2. cbn [andb].
  destruct (Ascii.eqb a "]"); now rewrite (IH Hh).
Qed.

(** ASCII text without a percent sign decodes to itself. *)
Lemma decode_plain (s : string) :
  Url.all_chars (fun a => negb (Ascii.eqb a "%") && (nat_of_ascii a <? 128)) s = true ->
  Url.utf8Decode (Url.percentDecode s) = s /\
  existsb (fun b => 128 <=? b) (Url.percentDecode s) = false.
Proof.
  induction s as [|a s IH]; [split; reflexivity|]. cbn [Url.all_chars].
  intros H. apply andb_prop in H as [Ha Hs]. apply andb_prop in Ha as [H1 H2].
  apply negb_true_iff in H1. destruct (IH Hs) as [IH1 IH2].
  cbn [Url.percentDecode]. rewrite H1. unfold Url.utf8. rewrite H2.
  cbn [app Url.utf8Decode existsb]. rewrite H2, IH1, IH2, ascii_nat_embedding.
  split; [reflexivity|]. apply Nat.ltb_lt in H2. apply orb_false_iff. split; [|reflexivity].
  apply Nat.leb_gt. exact H2.
Qed.

Lemma domain_forbidden (h : string) :
  Url.all_chars isDomainChar h = true ->
  Url.any_char Url.isForbiddenDomainChar (JsString.toLowerCase h) = false.
Proof.
  induction h as [|a h IH]; [reflexivity|]. cbn [Url.all_chars].
  intros H. apply andb_prop in H as [Ha Hh].
  cbn [JsString.toLowerCase Url.any_char]. rewrite (IH Hh).
  destruct (isDomainChar_facts a Ha) as (_ & _ & _ & _ & _ & _ & ->). reflexivity.
Qed.

Lemma domain_chars (h : string) (c : ascii) :
  In c ["@"; ":"; "["; "]"; "%"]%char ->
  Url.all_chars isDomainChar h = true ->
  Url.all_chars (fun a => negb (Ascii.eqb a c)) h = true.
Proof.
  intros Hc. apply all_chars_impl. intros a Ha.
  destruct (isDomainChar_facts a Ha) as (_ & _ & _ & _ & D & _).
  rewrite forallb_forall in D. now apply D.
Qed.

(** The host parser accepts a valid host. *)
Lemma domainValid_valid (h : string) : validHost h = true -> Url.domainValid h = true.
Proof.
  unfold validHost. rewrite !andb_true_iff, !negb_true_iff.
  intros [[[Hne Hh] Hxn] Hnum]. unfold Url.domainValid.
  assert (Hplain : Url.all_chars
            (fun a => negb (Ascii.eqb a "%") && (nat_of_ascii a <? 128)) h = true).
  { revert Hh. apply all_chars_impl. intros a Ha.
    destruct (isDomainChar_facts a Ha) as (_ & _ & _ & _ & D & -> & _).
    rewrite forallb_forall in D. rewrite (D "%"%char) by (simpl; tauto). reflexivity. }
  destruct (decode_plain h Hplain) as [-> ->].
  rewrite Hxn, Hnum, (domain_forbidden h Hh).
  destruct h as [|a h]; [discriminate Hne|].
  cbn [Url.all_chars] in Hh. apply andb_prop in Hh as [Ha _].
  destruct (isDomainChar_facts a Ha) as (_ & _ & _ & _ & D & _).
  rewrite forallb_forall in D. specialize (D "["%char ltac:(simpl; tauto)).
  apply negb_true_iff in D.
  destruct a as [[] [] [] [] [] [] [] []]; try discriminate D; reflexivity.
Qed.

(** An https URL on a valid host, followed by a path: the authority is
    accepted and the rest is read from the path on. *)
Lemma parse_https (h tail : string) :
  validHost h = true ->
  Url.all_chars (fun a => negb (Url.is_c0_or_space a)) tail = true ->
  Url.parse ("https://" +:+ h +:+ String "/" tail) =
  Some (Url.specialTail false (String "/" tail)).
Proof.
  intros Hvalid Htail. pose proof (domainValid_valid h Hvalid) as Hdomain.
  unfold validHost in Hvalid. rewrite !andb_true_iff in Hvalid.
  destruct Hvalid as [[[Hne Hh] _] _].
  unfold Url.parse. rewrite clean_visible.
  2:{ rewrite !all_chars_app. cbn [Url.all_chars]. rewrite Htail.
      replace (Url.all_chars (fun a => negb (Url.is_c0_or_space a)) h) with true; [reflexivity|].
      symmetry. revert Hh. apply all_chars_impl. intros a Ha.
      now destruct (isDomainChar_facts a Ha) as (-> & _). }
  assert (Hscheme : forall rest,
            Url.span Url.is_scheme_char ("https://" +:+ rest) =
            ("https", String ":" (String "/" (String "/" rest)))) by reflexivity.
  change (match "https://" +:+ h +:+ String "/" tail with
          | EmptyString => None
          | String c0 _ => ?body c0
          end) with (?body "h"%char).
  rewrite Hscheme.
  change (Url.is_alpha "h") with true.
  change (JsString.toLowerCase "https") with "https".
  change (Url.isSpecial "https") with true.
  cbv iota beta.
  change (Url.dropWhile Url.isSlash (String "/" (String "/" (h +:+ String "/" tail))))
    with (Url.dropWhile Url.isSlash (h +:+ String "/" tail)).
  assert (Hslashes : Url.dropWhile Url.isSlash (h +:+ String "/" tail) =
                     h +:+ String "/" tail).
  { destruct h as [|a h]; [discriminate Hne|]. rewrite append_String.
    cbn [Url.all_chars Url.dropWhile] in *. apply andb_prop in Hh as [Ha _].
    now destruct (isDomainChar_facts a Ha) as (_ & _ & -> & _). }
  rewrite Hslashes.
  unfold Url.afterAuthority. rewrite span_app.
  2:{ revert Hh. apply all_chars_impl. intros a Ha.
      now destruct (isDomainChar_facts a Ha) as (_ & -> & _). }
  2:{ reflexivity. }
  rewrite afterLastAt_none by (apply domain_chars; [simpl; tauto | exact Hh]).
  cbn [default]. rewrite splitHostPort_none.
  2:{ revert Hh. apply all_chars_impl. intros a Ha.
      destruct (isDomainChar_facts a Ha) as (_ & _ & _ & _ & D & _).
      rewrite forallb_forall in D.
      rewrite (D ":"%char), (D "["%char) by (simpl; tauto). reflexivity. }
  destruct h as [|a h]; [discriminate Hne|]. now rewrite Hdomain.
Qed.

Lemma idChars_visible (id : string) :
  Url.all_chars isIdChar id = true ->
  Url.all_chars (fun a => negb (Url.is_c0_or_space a)) id = true.
Proof.
  apply all_chars_impl. intros a Ha. now destruct (isIdChar_facts a Ha) as [-> _].
Qed.

Lemma formDecode_id (id : string) :
  Url.all_chars isIdChar id = true -> Url.formDecode id = id.
Proof.
  intros Hid. unfold Url.formDecode.
  assert (Hplus : Url.plusToSpace id = id).
  { induction id as [|a id IH]; [reflexivity|]. cbn [Url.all_chars] in Hid.
    apply andb_prop in Hid as [Ha Hid]. cbn [Url.plusToSpace].
    destruct (isIdChar_neq a "+" Ha) as [-> _]; [simpl; tauto|]. now rewrite IH. }
  rewrite Hplus. apply decode_plain. revert Hid. apply all_chars_impl. intros a Ha.
  destruct (isIdChar_neq a "%" Ha) as [-> _]; [simpl; tauto|].
  now destruct (isIdChar_facts a Ha) as [_ ->].
Qed.

Lemma parse_open_query (h id : string) :
  validHost h = true ->
  Url.all_chars isIdChar id = true ->
  Url.parse ("https://" +:+ h +:+ "/open?id=" +:+ id) =
  Some {| Url.pathname := "/open"; Url.query := "id=" +:+ id |}.
Proof.
  intros Hh Hid.
  change ("/open?id=" +:+ id) with (String "/" ("open?id=" +:+ id)).
  rewrite parse_https; [|exact Hh|].
  2:{ rewrite all_chars_app. now rewrite (idChars_visible id Hid). }
  unfold Url.specialTail, Url.pathAndQuery.
  change (String "/" ("open?id=" +:+ id)) with ("/open?id=" +:+ id).
  rewrite (splitAt_absent "#").
  2:{ rewrite all_chars_app. now rewrite (id_without "#" id) by (simpl; tauto || exact Hid). }
  unfold_append. cbn [Url.splitAt Ascii.eqb Bool.eqb fst snd default]. reflexivity.
Qed.

Lemma searchParams_get_id (p id : string) :
  Url.all_chars isIdChar id = true ->
  Url.searchParams_get {| Url.pathname := p; Url.query := "id=" +:+ id |} "id" = Some id.
Proof.
  intros Hid. unfold Url.searchParams_get. cbn [Url.query]. unfold_append.
  cbn [Url.splitOn Ascii.eqb Bool.eqb].
  rewrite (splitOn_absent "&" id) by (apply id_without; [simpl; tauto | exact Hid]).
  cbn [List.filter JsString.truthy map Url.splitAt Ascii.eqb Bool.eqb].
  change (default "" (Some id)) with id. rewrite (formDecode_id id Hid). reflexivity.
Qed.

Lemma validHost_hostChars (h : string) :
  validHost h = true -> Url.all_chars isHostChar h = true.
Proof.
  unfold validHost. rewrite !andb_true_iff. intros [[[_ Hh] _] _]. revert Hh.
  apply all_chars_impl. intros a Ha.
  now destruct (isDomainChar_facts a Ha) as (_ & _ & _ & -> & _).
Qed.

(** C5: for a valid identifier, the path form /file/d/ID/view and the
    query form open?id=ID of an https URL on a domain name yield the same
    identifier, ID.  The domain name is one that [new URL] takes as it
    is: letters, digits, hyphens and dots, no label that starts with
    xn--, no number at the end. *)
Theorem extractGoogleDriveId_forms (h id : string) :
  validHost h = true ->
  validId id = true ->
  extractGoogleDriveId ("https://" +:+ h +:+ "/file/d/" +:+ id +:+ "/view") = Some id /\
  extractGoogleDriveId ("https://" +:+ h +:+ "/open?id=" +:+ id) = Some id.
Proof.
  unfold validId. intros Hvalid H. apply andb_prop in H as [Hne Hid].
  pose proof (validHost_hostChars h Hvalid) as Hh. split.
  - unfold extractGoogleDriveId. unfold_append. cbn [JsString.truthy negb].
    repeat (rewrite matchAfterMarker_skip by reflexivity).
    rewrite matchAfterMarker_skip by (now apply stripPrefix_before_host).
    rewrite (matchAfterMarker_host h) by exact Hh.
    erewrite matchAfterMarker_here; [reflexivity | reflexivity | | exact Hne].
    now apply takeIdChars_stop.
  - unfold extractGoogleDriveId. rewrite (parse_open_query h id Hvalid Hid).
    unfold_append. cbn [JsString.truthy negb].
    repeat (rewrite matchAfterMarker_skip by reflexivity).
    rewrite matchAfterMarker_skip by (now apply stripPrefix_before_host).
    rewrite (matchAfterMarker_host h) by exact Hh.
    repeat (rewrite matchAfterMarker_skip by reflexivity).
    rewrite (matchAfterMarker_id id Hid).
    cbn [Url.pathname]. replace (JsString.includes "/open" "open") with true by reflexivity.
    rewrite (searchParams_get_id _ id Hid). now rewrite Hne.
Qed.

Lemma extractGoogleDriveId_forms_witness :
  extractGoogleDriveId "https://drive.google.com/file/d/1AbC-_9/view" = Some "1AbC-_9" /\
  extractGoogleDriveId "https://drive.google.com/open?id=1AbC-_9" = Some "1AbC-_9".
Proof.
  apply (extractGoogleDriveId_forms "drive.google.com" "1AbC-_9"); reflexivity.
Defined.

(** The query form is recognized on a path that contains "open" only: the
    uc path of the download URLs is not. *)
Example extractGoogleDriveId_uc :
  extractGoogleDriveId "https://drive.google.com/uc?id=XYZ9" = None.
Proof. reflexivity. Qed.

(** ** aggregateSlides: the split of an over-long content array *)

Lemma ceilDiv_mul_ge (a b : nat) : 0 < b -> a <= ceilDiv a b * b.
Proof.
  intros Hb. unfold ceilDiv.
  pose proof (Nat.div_mod_eq (a + b - 1) b) as E.
  pose proof (Nat.mod_upper_bound (a + b - 1) b) as U. nia.
Qed.

Lemma ceilDiv_le (a b c : nat) : 0 < b -> a <= b * c -> ceilDiv a b <= c.
Proof.
  intros Hb H. unfold ceilDiv.
  enough ((a + b - 1) / b < S c) by lia.
  apply Nat.Div0.div_lt_upper_bound. nia.
Qed.

Lemma ceilDiv_gt (a b c : nat) : 0 < b -> b * c < a -> c < ceilDiv a b.
Proof.
  intros Hb H. unfold ceilDiv.
  apply Nat.div_le_lower_bound; lia.
Qed.

Lemma slice_chunk {A : Type} (l : list A) (a ips : nat) :
  slice l a (Nat.min (a + ips) (length l)) = take ips (drop a l).
Proof.
  unfold slice. destruct (Nat.le_gt_cases (a + ips) (length l)) as [H|H].
  - f_equal. lia.
  - rewrite !take_ge; [reflexivity | rewrite length_drop; lia ..].
Qed.

Lemma chunks_concat {A : Type} (l : list A) (ips n : nat) :
  concat (map (fun k => slice l (k * ips) (Nat.min (k * ips + ips) (length l))) (seq 0 n))
  = take (n * ips) l.
Proof.
  induction n as [|n IH]; [reflexivity|].
  rewrite seq_S, map_app, concat_app, IH. cbn [map concat Nat.add].
  rewrite app_nil_r, slice_chunk, take_take_drop. f_equal. lia.
Qed.

Lemma itemsOf_splitSlide (s : Slide) (t : string) (c : list Item) (i n : nat) :
  itemsOf (splitSlide s t c i n) = c.
Proof. reflexivity. Qed.

Lemma splitMerged_items (slide : Slide) (merged : list Item) :
  map itemsOf (splitMerged slide merged) =
  let n := ceilDiv (length merged) MAX_ITEMS_PER_SLIDE in
  let ips := ceilDiv (length merged) n in
  map (fun k => slice merged (k * ips) (Nat.min (k * ips + ips) (length merged))) (seq 0 n).
Proof. unfold splitMerged. rewrite map_map. reflexivity. Qed.

(** The parts of a split, concatenated in order, are the merged content. *)
Lemma splitMerged_concat (slide : Slide) (merged : list Item) :
  MAX_ITEMS_PER_SLIDE < length merged ->
  concat (map itemsOf (splitMerged slide merged)) = merged.
Proof.
  intros Hlen. rewrite splitMerged_items. cbv zeta.
  rewrite chunks_concat. apply take_ge. rewrite Nat.mul_comm.
  apply ceilDiv_mul_ge. apply (ceilDiv_gt _ _ 0); unfold MAX_ITEMS_PER_SLIDE in *; lia.
Qed.

(** No part of a split has more than 15 items. *)
Lemma splitMerged_bound (slide : Slide) (merged : list Item) :
  MAX_ITEMS_PER_SLIDE < length merged ->
  Forall (fun p => length (itemsOf p) <= MAX_ITEMS_PER_SLIDE) (splitMerged slide merged).
Proof.
  intros Hlen. apply Forall_forall. intros p Hp.
  apply list_elem_of_In in Hp. unfold splitMerged in Hp.
  apply in_map_iff in Hp as [k [<- _]]. rewrite itemsOf_splitSlide, slice_chunk.
  rewrite length_take.
  set (n := ceilDiv (length merged) MAX_ITEMS_PER_SLIDE).
  assert (Hn : 1 <= n) by (apply (ceilDiv_gt _ _ 0); unfold MAX_ITEMS_PER_SLIDE in *; lia).
  assert (ceilDiv (length merged) n <= MAX_ITEMS_PER_SLIDE); [|lia].
  apply ceilDiv_le; [lia|].
  pose proof (ceilDiv_mul_ge (length merged) MAX_ITEMS_PER_SLIDE) as H.
  fold n in H. unfold MAX_ITEMS_PER_SLIDE in *. lia.
Qed.

(** A split has at least two parts, numbered 1/n to n/n. *)
Lemma splitMerged_titles (slide : Slide) (merged : list Item) :
  MAX_ITEMS_PER_SLIDE < length merged ->
  let n := ceilDiv (length merged) MAX_ITEMS_PER_SLIDE in
  2 <= n /\
  map title (splitMerged slide merged) =
  map (fun k => Some (baseTitle +:+ " (" +:+ decimal (k + 1) +:+ "/" +:+ decimal n +:+ ")"))
      (seq 0 n).
Proof.
  intros Hlen n.
  assert (Hn : 2 <= n) by (apply (ceilDiv_gt _ _ 1); unfold MAX_ITEMS_PER_SLIDE in *; lia).
  split; [exact Hn|]. unfold splitMerged. fold n. rewrite map_map.
  apply map_ext. intros k. cbn [title splitSlide]. unfold partTitle.
  destruct (Nat.ltb_spec 1 n); [reflexivity | lia].
Qed.

(** ** aggregateSlides: the loop, run by run *)

Lemma appendResults_nil_l (b : option (list Slide)) : appendResults (Some []) b = b.
Proof. now destruct b. Qed.

Lemma appendResults_nil_r (a : option (list Slide)) : appendResults a (Some []) = a.
Proof. destruct a as [x|]; [|reflexivity]. cbn. now rewrite app_nil_r. Qed.

Lemma appendResults_assoc (a b c : option (list Slide)) :
  appendResults a (appendResults b c) = appendResults (appendResults a b) c.
Proof.
  destruct a as [x|], b as [y|], c as [z|]; try reflexivity.
  cbn. now rewrite app_assoc.
Qed.

Lemma appendResults_Some (a b : option (list Slide)) (out : list Slide) :
  appendResults a b = Some out ->
  exists x y, a = Some x /\ b = Some y /\ out = x ++ y.
Proof.
  destruct a as [x|], b as [y|]; try discriminate.
  cbn. intros [= <-]. eauto.
Qed.

Lemma appendResults_is_Some (a b : option (list Slide)) :
  is_Some (appendResults a b) <-> is_Some a /\ is_Some b.
Proof.
  rewrite !is_Some_alt. destruct a as [x|], b as [y|]; cbn; tauto.
Qed.

Lemma aggregateSlides_other (s : Slide) (rest : list Slide) :
  isSystemRequirements s = false ->
  aggregateSlides (s :: rest) = appendResults (Some [s]) (aggregateSlides rest).
Proof. intros H. cbn [aggregateSlides]. rewrite H. reflexivity. Qed.

Lemma aggregateSlides_run_head (s : Slide) (rest : list Slide) :
  isSystemRequirements s = true ->
  aggregateSlides (s :: rest) = collectRun s [s] rest.
Proof.
  intros H. cbn [aggregateSlides]. rewrite H. generalize [s] as run.
  induction rest as [|next rest IH]; intros run; [reflexivity|].
  cbn [collectRun]. destruct (isSystemRequirements next); [apply IH | reflexivity].
Qed.

Lemma collectRun_span (slide : Slide) (rest run : list Slide) :
  collectRun slide run rest =
  appendResults (emitRun slide (run ++ (spanRun rest).1)) (aggregateSlides (spanRun rest).2).
Proof.
  revert run. induction rest as [|next rest IH]; intros run.
  - cbn [collectRun spanRun fst snd]. rewrite app_nil_r.
    change (aggregateSlides []) with (Some (@nil Slide)).
    now rewrite appendResults_nil_r.
  - cbn [collectRun spanRun]. destruct (isSystemRequirements next) eqn:Hn.
    + rewrite IH. destruct (spanRun rest) as [more after]. cbn [fst snd].
      now rewrite <- app_assoc.
    + cbn [fst snd]. rewrite app_nil_r. reflexivity.
Qed.

Lemma spanRun_spec (slides : list Slide) :
  slides = (spanRun slides).1 ++ (spanRun slides).2 /\
  Forall (fun s => isSystemRequirements s = true) (spanRun slides).1 /\
  startsRun (spanRun slides).2 = false.
Proof.
  induction slides as [|s rest IH]; [cbn; auto|].
  cbn [spanRun]. destruct (isSystemRequirements s) eqn:Hs.
  - destruct (spanRun rest) as [run after]. cbn [fst snd] in *.
    destruct IH as (E & F & N). repeat split; [cbn; congruence | now constructor | exact N].
  - cbn. auto.
Qed.

Lemma spanRun_app (pre post : list Slide) :
  startsRun post = false ->
  spanRun (pre ++ post) = ((spanRun pre).1, (spanRun pre).2 ++ post).
Proof.
  intros Hpost. induction pre as [|s pre IH].
  - cbn. destruct post as [|p post]; [reflexivity|]. cbn in Hpost |- *. now rewrite Hpost.
  - cbn [app spanRun]. destruct (isSystemRequirements s); [|reflexivity].
    rewrite IH. now destruct (spanRun pre).
Qed.

Lemma spanRun_length (slides : list Slide) : length (spanRun slides).2 <= length slides.
Proof.
  destruct (spanRun_spec slides) as (E & _ & _).
  rewrite E at 2. rewrite length_app. lia.
Qed.

(** One step of the outer loop on a System Requirements slide: the run is
    replaced by what [emitRun] pushes, and the loop resumes after it. *)
Lemma aggregateSlides_run_step (slide : Slide) (rest : list Slide) :
  isSystemRequirements slide = true ->
  aggregateSlides (slide :: rest) =
  appendResults (emitRun slide (slide :: (spanRun rest).1)) (aggregateSlides (spanRun rest).2).
Proof. intros H. rewrite aggregateSlides_run_head by exact H. apply collectRun_span. Qed.

(** The loop treats what precedes and what follows a run boundary
    independently. *)
Lemma aggregateSlides_app (pre post : list Slide) :
  startsRun post = false ->
  aggregateSlides (pre ++ post) = appendResults (aggregateSlides pre) (aggregateSlides post).
Proof.
  intros Hpost. remember (length pre) as n eqn:Hn.
  revert pre Hn. induction n as [n IH] using lt_wf_ind. intros pre Hn.
  destruct pre as [|s pre].
  - cbn [app]. change (aggregateSlides []) with (Some (@nil Slide)).
    now rewrite appendResults_nil_l.
  - cbn [app]. destruct (isSystemRequirements s) eqn:Hs.
    + rewrite !aggregateSlides_run_step by exact Hs.
      rewrite spanRun_app by exact Hpost. cbn [fst snd].
      rewrite (IH (length (spanRun pre).2)); [| |reflexivity].
      * apply appendResults_assoc.
      * pose proof (spanRun_length pre). cbn in Hn. lia.
    + rewrite !aggregateSlides_other by exact Hs.
      rewrite (IH (length pre)); [| cbn in Hn; lia | reflexivity].
      apply appendResults_assoc.
Qed.

Lemma aggregateSlides_run (slide : Slide) (more post : list Slide) :
  Forall (fun s => isSystemRequirements s = true) (slide :: more) ->
  startsRun post = false ->
  aggregateSlides ((slide :: more) ++ post) =
  appendResults (emitRun slide (slide :: more)) (aggregateSlides post).
Proof.
  intros Hrun Hpost. apply Forall_cons in Hrun as [Hs Hmore].
  cbn [app]. rewrite aggregateSlides_run_step by exact Hs.
  assert (E : spanRun (more ++ post) = (more, post)).
  { clear Hs. induction more as [|m more IH].
    - cbn. destruct post as [|p post]; [reflexivity|]. cbn in Hpost |- *. now rewrite Hpost.
    - apply Forall_cons in Hmore as [Hm Hmore]. cbn [app spanRun]. rewrite Hm.
      now rewrite IH. }
  now rewrite E.
Qed.

(** ** aggregateSlides: what a run pushes *)

Lemma isSystemRequirements_type (s : Slide) :
  isSystemRequirements s = true -> type s = "content_bullets".
Proof.
  unfold isSystemRequirements. intros H. apply andb_prop in H as [H _].
  now apply String.eqb_eq.
Qed.

Lemma emitRun_defined (slide : Slide) (run : list Slide) :
  is_Some (emitRun slide run) <-> Forall (fun s => is_Some (contentArray s)) run.
Proof.
  unfold emitRun. rewrite <- (mapM_is_Some contentArray run).
  destruct (mapM contentArray run); split; eauto; intros [? [=]].
Qed.

Lemma emitRun_Some (slide : Slide) (run parts : list Slide) :
  emitRun slide run = Some parts -> parts = pushRun slide run.
Proof.
  unfold emitRun. destruct (mapM contentArray run); [|discriminate].
  now intros [= <-].
Qed.

Lemma pushRun_split (slide : Slide) (run : list Slide) :
  MAX_ITEMS_PER_SLIDE < length (mergedContentOf run) ->
  pushRun slide run = splitMerged slide (mergedContentOf run).
Proof.
  unfold pushRun, mergedContentOf.
  destruct (List.filter _ run) as [|first nt] eqn:Hnt.
  - cbn [map concat length]. unfold MAX_ITEMS_PER_SLIDE. lia.
  - intros Hlen. apply Nat.ltb_lt in Hlen. now rewrite Hlen.
Qed.

Lemma partTitle_base : baseTitle = partTitle 0 1.
Proof. reflexivity. Qed.

Lemma pushRun_pushed (slide : Slide) (run : list Slide) :
  Forall (fun s => isSystemRequirements s = true) (slide :: run) ->
  Forall (fun p => isPushedByRun p /\ length (itemsOf p) <= MAX_ITEMS_PER_SLIDE)
         (pushRun slide run).
Proof.
  intros Hrun. apply Forall_cons in Hrun as [Hslide Hrun].
  apply isSystemRequirements_type in Hslide.
  unfold pushRun.
  destruct (List.filter _ run) as [|first nt] eqn:Hnt; [constructor|].
  destruct (Nat.ltb_spec MAX_ITEMS_PER_SLIDE (length (concat (map itemsOf (first :: nt)))))
    as [Hlong|Hshort].
  - pose proof (splitMerged_bound slide _ Hlong) as Hb.
    rewrite Forall_forall in Hb |- *. intros p Hp. split; [|now apply Hb].
    apply list_elem_of_In in Hp. unfold splitMerged in Hp.
    apply in_map_iff in Hp as [k [<- _]]. split; [exact Hslide|]. cbn [title splitSlide]. eauto.
  - destruct (_ || _) eqn:Hmerge; (constructor; [split | constructor]).
    + split; [exact Hslide|]. exists 0, 1. reflexivity.
    + exact Hshort.
    + split; [|exists 0, 1; reflexivity].
      assert (Hin : In first (List.filter (fun s => isNonTrivial (itemsOf s)) run))
        by (rewrite Hnt; now left).
      apply filter_In in Hin as [Hin _]. rewrite Forall_forall in Hrun.
      change (type (withTitle first baseTitle)) with (type first).
      apply isSystemRequirements_type, Hrun. apply list_elem_of_In. exact Hin.
    + change (itemsOf (withTitle first baseTitle)) with (itemsOf first).
      cbn [map concat] in Hshort. rewrite length_app in Hshort. lia.
Qed.

Lemma passThrough_run (run after : list Slide) :
  Forall (fun s => isSystemRequirements s = true) run ->
  passThrough (run ++ after) = passThrough after.
Proof.
  induction 1 as [|s run Hs _ IH]; [reflexivity|].
  cbn [app]. unfold passThrough in *. cbn [List.filter]. now rewrite Hs.
Qed.

(** Every slide the loop returns was pushed as it stood, or was pushed by
    the System Requirements branch with at most 15 items; and the slides
    pushed as they stood keep their order. *)
Lemma aggregateSlides_shape (slides out : list Slide) :
  aggregateSlides slides = Some out ->
  Forall (fun s => (isSystemRequirements s = false /\ In s slides) \/
                   (isPushedByRun s /\ length (itemsOf s) <= MAX_ITEMS_PER_SLIDE)) out /\
  sublist (passThrough slides) out.
Proof.
  remember (length slides) as n eqn:Hn. revert slides out Hn.
  induction n as [n IH] using lt_wf_ind. intros slides out Hn Hout.
  destruct slides as [|s rest].
  - injection Hout as <-. split; constructor.
  - destruct (isSystemRequirements s) eqn:Hs.
    + rewrite aggregateSlides_run_step in Hout by exact Hs.
      apply appendResults_Some in Hout as (parts & out' & Hparts & Hrest & ->).
      destruct (spanRun_spec rest) as (E & Hrun & _).
      assert (Hlt : length (spanRun rest).2 < n)
        by (pose proof (spanRun_length rest); cbn in Hn; lia).
      destruct (IH _ Hlt _ _ eq_refl Hrest) as [IHa IHb].
      split.
      * apply Forall_app. split.
        -- apply emitRun_Some in Hparts as ->.
           eapply Forall_impl;
             [apply pushRun_pushed; repeat (constructor; [exact Hs|]); exact Hrun|].
           cbn. tauto.
        -- eapply Forall_impl; [exact IHa|]. cbn. intros p [[Hp Hin]|Hp]; [left|now right].
           split; [exact Hp|]. right. rewrite E, in_app_iff. now right.
      * change (s :: rest) with ([s] ++ rest). rewrite E at 1.
        rewrite app_assoc, passThrough_run.
        -- now apply sublist_inserts_l.
        -- apply Forall_app. split; [now repeat constructor | exact Hrun].
    + rewrite aggregateSlides_other in Hout by exact Hs.
      apply appendResults_Some in Hout as (x & out' & [= <-] & Hrest & ->).
      assert (Hlt : length rest < n) by (cbn in Hn; lia).
      destruct (IH _ Hlt _ _ eq_refl Hrest) as [IHa IHb].
      split.
      * constructor; [left; split; [exact Hs | now left]|].
        eapply Forall_impl; [exact IHa|]. cbn. intros p [[Hp Hin]|Hp]; [left|now right].
        split; [exact Hp | now right].
      * unfold passThrough. cbn [List.filter app]. rewrite Hs. cbn [negb].
        now apply sublist_skip.
Qed.

(** The loop fails exactly when a System Requirements slide carries a
    content object, on which the array methods are missing. *)
Lemma aggregateSlides_defined (slides : list Slide) :
  is_Some (aggregateSlides slides) <->
  Forall (fun s => isSystemRequirements s = true -> is_Some (contentArray s)) slides.
Proof.
  remember (length slides) as n eqn:Hn. revert slides Hn.
  induction n as [n IH] using lt_wf_ind. intros slides Hn.
  destruct slides as [|s rest]; [split; [constructor | cbn; eauto]|].
  destruct (isSystemRequirements s) eqn:Hs.
  - rewrite aggregateSlides_run_step by exact Hs.
    destruct (spanRun_spec rest) as (E & Hrun & _).
    pose proof (spanRun_length rest) as Hlen.
    assert (Hlt : length (spanRun rest).2 < n) by (cbn in Hn; lia).
    specialize (IH _ Hlt _ eq_refl).
    destruct (spanRun rest) as [run after]. cbn [fst snd] in *. subst rest.
    change (s :: run ++ after) with ((s :: run) ++ after).
    rewrite Forall_app, <- IH.
    assert (Hemit : is_Some (emitRun s (s :: run)) <->
                    Forall (fun s => isSystemRequirements s = true -> is_Some (contentArray s))
                           (s :: run)).
    { rewrite emitRun_defined. rewrite !Forall_forall. split; [auto|].
      intros H x Hx. apply H; [exact Hx|].
      assert (Hall : Forall (fun s => isSystemRequirements s = true) (s :: run))
        by (constructor; assumption).
      rewrite Forall_forall in Hall. auto. }
    now rewrite appendResults_is_Some, Hemit.
  - rewrite aggregateSlides_other by exact Hs.
    assert (Hlt : length rest < n) by (cbn in Hn; lia).
    rewrite appendResults_is_Some, Forall_cons, <- (IH _ Hlt _ eq_refl).
    split; [intros [_ H]; split; [congruence | exact H] | intros [_ H]; split; [eauto | exact H]].
Qed.

Lemma aggregateSlides_single (s : Slide) :
  isSystemRequirements s = false -> aggregateSlides [s] = Some [s].
Proof. intros H. cbn [aggregateSlides]. now rewrite H. Qed.

(** A run boundary on the left: [pre] does not end inside a run. *)
Lemma aggregateSlides_app_l (pre post : list Slide) :
  endsRun pre = false ->
  aggregateSlides (pre ++ post) = appendResults (aggregateSlides pre) (aggregateSlides post).
Proof.
  intros Hpre. destruct pre as [|p pre'] using rev_ind.
  - cbn [app]. change (aggregateSlides []) with (Some (@nil Slide)).
    now rewrite appendResults_nil_l.
  - clear IHpre'. unfold endsRun in Hpre. rewrite last_snoc in Hpre.
    rewrite <- app_assoc. cbn [app].
    rewrite (aggregateSlides_app pre' (p :: post)) by (cbn; exact Hpre).
    rewrite (aggregateSlides_app pre' [p]) by (cbn; exact Hpre).
    rewrite aggregateSlides_single, aggregateSlides_other by exact Hpre.
    apply appendResults_assoc.
Qed.

(** A deck without System Requirements slides is returned as it is. *)
Lemma aggregateSlides_untouched (slides : list Slide) :
  passThrough slides = slides -> aggregateSlides slides = Some slides.
Proof.
  unfold passThrough. induction slides as [|s rest IH]; [reflexivity|].
  cbn [List.filter]. destruct (isSystemRequirements s) eqn:Hs; cbn [negb].
  - intros H. exfalso.
    assert (Hlen : length (List.filter (fun s => negb (isSystemRequirements s)) rest)
                   <= length rest) by apply filter_length_le.
    rewrite H in Hlen. cbn in Hlen. lia.
  - intros [= H]. rewrite aggregateSlides_other by exact Hs. now rewrite (IH H).
Qed.

(** C9: [aggregateSlides] returns a list unless a System Requirements
    slide carries a content object.  Every slide of the result is either an
    input slide that is not a System Requirements slide, or a System
    Requirements bullet slide with at most 15 items.  The slides that are
    not System Requirements slides pass through unchanged, in their order,
    and a deck that has no other slides is returned as it is.
    Every maximal run of System Requirements slides is replaced, in place,
    by the slides pushed for it, and when its merged content has more than
    15 items these are the numbered parts of a split whose contents,
    concatenated in order, are the merged content. *)
Theorem aggregateSlides_spec (slides : list Slide) :
  (is_Some (aggregateSlides slides) <->
   Forall (fun s => isSystemRequirements s = true -> is_Some (contentArray s)) slides) /\
  forall out, aggregateSlides slides = Some out ->
    Forall (fun s => (isSystemRequirements s = false /\ In s slides) \/
                     (isPushedByRun s /\ length (itemsOf s) <= MAX_ITEMS_PER_SLIDE)) out /\
    sublist (passThrough slides) out /\
    (passThrough slides = slides -> out = slides) /\
    forall pre slide more post,
      slides = pre ++ (slide :: more) ++ post ->
      endsRun pre = false ->
      Forall (fun s => isSystemRequirements s = true) (slide :: more) ->
      startsRun post = false ->
      let merged := mergedContentOf (slide :: more) in
      let parts := pushRun slide (slide :: more) in
      let n := ceilDiv (length merged) MAX_ITEMS_PER_SLIDE in
      (exists outPre outPost,
          aggregateSlides pre = Some outPre /\ aggregateSlides post = Some outPost /\
          out = outPre ++ parts ++ outPost) /\
      (MAX_ITEMS_PER_SLIDE < length merged ->
       parts = splitMerged slide merged /\
       concat (map itemsOf parts) = merged /\
       Forall (fun p => length (itemsOf p) <= MAX_ITEMS_PER_SLIDE) parts /\
       2 <= n /\
       map title parts =
       map (fun k => Some (baseTitle +:+ " (" +:+ decimal (k + 1) +:+ "/" +:+ decimal n +:+ ")"))
           (seq 0 n)).
Proof.
  split; [apply aggregateSlides_defined|]. intros out Hout.
  destruct (aggregateSlides_shape slides out Hout) as [Ha Hb].
  split; [exact Ha|]. split; [exact Hb|].
  split; [intros Hall; rewrite aggregateSlides_untouched in Hout by exact Hall; congruence|].
  intros pre slide more post -> Hpre Hrun Hpost merged parts n. split.
  - rewrite aggregateSlides_app_l in Hout by exact Hpre.
    rewrite aggregateSlides_run in Hout by assumption.
    apply appendResults_Some in Hout as (outPre & rest & HoutPre & Hrest & ->).
    apply appendResults_Some in Hrest as (pushed & outPost & Hpushed & HoutPost & ->).
    apply emitRun_Some in Hpushed as ->. eauto.
  - intros Hlong. subst parts. rewrite pushRun_split by exact Hlong.
    split; [reflexivity|]. split; [now apply splitMerged_concat|].
    split; [now apply splitMerged_bound|]. now apply splitMerged_titles.
Qed.

Lemma aggregateSlides_spec_witness :
  sublist (passThrough exampleDeck) [bullets "Intro" ["a"];
    splitSlide (bullets "System Requirements: Network" (numbered 10))
      "System Requirements (1/3)" (take 11 (mergedContentOf (take 3 (drop 1 exampleDeck)))) 0 3;
    splitSlide (bullets "System Requirements: Network" (numbered 10))
      "System Requirements (2/3)"
      (take 11 (drop 11 (mergedContentOf (take 3 (drop 1 exampleDeck))))) 1 3;
    splitSlide (bullets "System Requirements: Network" (numbered 10))
      "System Requirements (3/3)" (drop 22 (mergedContentOf (take 3 (drop 1 exampleDeck)))) 2 3;
    bullets "End" []].
Proof.
  apply (proj2 (aggregateSlides_spec exampleDeck)). vm_compute. reflexivity.
Defined.

(** ** The fetch workflow: blank references *)

Lemma trimStart_blank (s : string) :
  Url.all_chars JsString.is_space s = true -> JsString.trimStart s = "".
Proof.
  induction s as [|c s IH]; [reflexivity|]. cbn [Url.all_chars JsString.trimStart].
  intros H. apply andb_prop in H as [Hc Hs]. rewrite Hc. auto.
Qed.

Lemma trim_blank (s : string) :
  Url.all_chars JsString.is_space s = true -> JsString.trim s = "".
Proof. intros H. unfold JsString.trim. now rewrite trimStart_blank. Qed.

(** C8: for an empty or blank source URL the fetch returns null at once:
    no request is made, no page is opened and no file is written. *)
Theorem downloadFile_blank (env : Env) (fuel : nat) (url outputPath : string)
    (isVideo : bool) (w : World) :
  Url.all_chars JsString.is_space url = true ->
  downloadFile env fuel url outputPath isVideo w = (Normal None, w) /\
  downloadVideo env fuel url outputPath w = (Normal None, w) /\
  downloadImage env url outputPath w = (Normal None, w).
Proof.
  intros H. apply trim_blank in H.
  unfold downloadVideo, downloadFile, downloadImage. rewrite H.
  cbn [String.eqb]. rewrite !orb_true_r. repeat split; reflexivity.
Qed.

Lemma downloadFile_blank_witness :
  downloadFile warningHost 3 "   " "out.mp4" true emptyWorld = (Normal None, emptyWorld).
Proof.
  apply (downloadFile_blank warningHost 3 "   " "out.mp4" true emptyWorld). reflexivity.
Defined.

(** ** The fetch workflow: scenarios *)

(** C2 (failing input): a plain URL whose server answers with a markup
    page.  The fetch fails, and the page it wrote stays at the output
    path. *)
Theorem downloadFile_leaves_invalid_file :
  let r := downloadFile warningHost 3 "https://other-host.example/clip.mp4" "out.mp4" true
             emptyWorld in
  extractGoogleDriveId "https://other-host.example/clip.mp4" = None /\
  r.1 = Normal None /\
  files r.2 !! "out.mp4" = Some warningPage /\
  validateFileType (files r.2) "out.mp4" "video" = false.
Proof. vm_compute. repeat split; reflexivity. Qed.

(** The same with a recognized identifier: every strategy gets the
    interstitial page, which is too short to be checked and is left behind. *)
Lemma downloadFile_drive_leaves_page :
  let r := downloadFile warningHost 3 "https://drive.google.com/file/d/XYZ9/view" "out.mp4" true
             emptyWorld in
  r.1 = Normal None /\ files r.2 !! "out.mp4" = Some warningPage.
Proof. vm_compute. split; reflexivity. Qed.

(** C3 (counterexample): the token attempt succeeds, and the blind
    confirmation URL is never requested. *)
Lemma confirm_t_skipped_after_token_success :
  let r := downloadFile tokenDrive 3 "https://drive.google.com/file/d/XYZ9/view" "out.png" false
             emptyWorld in
  confirmToken (ok200 "text/html" warningPage) = Some "abc123" /\
  r.1 = Normal (Some "out.png") /\
  In (HttpGet (tokenUrl "XYZ9" "abc123")) (trace r.2) /\
  ~ In (HttpGet (confirmTUrl "XYZ9")) (trace r.2).
Proof.
  vm_compute. repeat split; try reflexivity; [tauto|].
  intros H. repeat (destruct H as [H|H]; [discriminate H|]). exact H.
Qed.

(** C1 (counterexample): the plain URL branch of [downloadFile] returns a
    12-byte file; its view URL step returns a markup page that fails image
    validation; and [downloadImage] returns such a page as well. *)
Lemma fetched_file_small_or_unchecked :
  let r := downloadFile tinyClipHost 3 "https://other-host.example/clip.mp4" "out.mp4" true
             emptyWorld in
  let r' := downloadFile viewPageDrive 3 "https://drive.google.com/file/d/XYZ9/view" "out.png"
              false emptyWorld in
  let r'' := downloadImage warningHost "https://other-host.example/pic.png" "out.png"
               emptyWorld in
  (r.1 = Normal (Some "out.mp4") /\
   files r.2 !! "out.mp4" = Some tinyMp4 /\ length tinyMp4 = 12) /\
  (r'.1 = Normal (Some "out.png") /\
   validateFileType (files r'.2) "out.png" "image" = false) /\
  (r''.1 = Normal (Some "out.png") /\
   validateFileType (files r''.2) "out.png" "image" = false).
Proof. vm_compute. repeat split; reflexivity. Qed.

(** ** Reasoning about statements *)

Lemma noReturn_returnsOnly {A : Type} (G : string -> World -> Prop) (m : M A) :
  noReturn m -> returnsOnly G m.
Proof. intros H w p Hp. now apply H in Hp. Qed.

Lemma returnsOnly_mono {A : Type} (G G' : string -> World -> Prop) (m : M A) :
  (forall p w, G p w -> G' p w) -> returnsOnly G m -> returnsOnly G' m.
Proof. intros HG H w p Hp. apply HG, H, Hp. Qed.

Lemma noReturn_ret {A : Type} (a : A) : noReturn (mret a : M A).
Proof. intros w r. discriminate. Qed.

Lemma noReturn_throw {A : Type} : noReturn (throw : M A).
Proof. intros w r. discriminate. Qed.

Lemma noReturn_diverge {A : Type} : noReturn (diverge : M A).
Proof. intros w r. discriminate. Qed.

Lemma noReturn_bind {A B : Type} (m : M A) (f : A -> M B) :
  noReturn m -> (forall a, noReturn (f a)) -> noReturn (m ≫= f).
Proof.
  intros Hm Hf w r. unfold mbind, M_bind. specialize (Hm w).
  destruct (m w) as [[a|r'|  |] w'] eqn:E; cbn in *; try discriminate.
  - apply Hf.
  - now destruct (Hm r').
Qed.

Lemma noReturn_try_catch {A : Type} (m h : M A) :
  noReturn m -> noReturn h -> noReturn (try_catch m h).
Proof.
  intros Hm Hh w r. unfold try_catch. specialize (Hm w).
  destruct (m w) as [[a|r'|  |] w'] eqn:E; cbn in *; try discriminate.
  - now destruct (Hm r').
  - apply Hh.
Qed.

Lemma noReturn_emit (e : Event) : noReturn (emit e).
Proof. intros w r. discriminate. Qed.

Lemma noReturn_observe {A : Type} (f : list Event -> A) : noReturn (observe f).
Proof. intros w r. discriminate. Qed.

Lemma noReturn_fs_writeFile (p : string) (b : buffer) : noReturn (fs_writeFile p b).
Proof. intros w r. discriminate. Qed.

Lemma noReturn_fs_unlink (p : string) : noReturn (fs_unlink p).
Proof. intros w r. discriminate. Qed.

Lemma noReturn_fs_stat_size (p : string) : noReturn (fs_stat_size p).
Proof. intros w r. unfold fs_stat_size. destruct (files w !! p); discriminate. Qed.

Lemma noReturn_request (env : Env) (url : string) : noReturn (request env url).
Proof. intros w r. discriminate. Qed.

Lemma noReturn_if {A : Type} (b : bool) (m1 m2 : M A) :
  noReturn m1 -> noReturn m2 -> noReturn (if b then m1 else m2).
Proof. now destruct b. Qed.

Create HintDb noreturn.
#[local] Hint Resolve noReturn_ret noReturn_throw noReturn_diverge noReturn_emit
  noReturn_observe noReturn_fs_writeFile noReturn_fs_unlink noReturn_fs_stat_size
  noReturn_request : noreturn.

(** Proves [noReturn] of a statement built from the primitives, splitting
    on the values it branches on. *)
Ltac no_return :=
  repeat first
    [ progress intros
    | solve [auto with noreturn]
    | apply noReturn_bind
    | apply noReturn_try_catch
    | match goal with
      | |- noReturn (match ?x with _ => _ end) => destruct x
      | |- noReturn (if ?b then _ else _) => destruct b
      end ].

Lemma noReturn_newPage (env : Env) : noReturn (newPage env).
Proof. unfold newPage. no_return. Qed.

Lemma noReturn_navigate (env : Env) (url : string) : noReturn (navigate env url).
Proof. unfold navigate. no_return. Qed.

Lemma noReturn_goto (env : Env) (url : string) : noReturn (goto env url).
Proof. unfold goto. no_return. Qed.

Lemma noReturn_responseBody (b : option buffer) : noReturn (responseBody b).
Proof. unfold responseBody. no_return. Qed.

Lemma noReturn_query (env : Env) (sel : string) : noReturn (query env sel).
Proof. unfold query. no_return. Qed.

Lemma noReturn_click (env : Env) : noReturn (click env).
Proof. unfold click. no_return. Qed.

Lemma noReturn_saveAs (d : Download) (p : string) : noReturn (saveAs d p).
Proof. unfold saveAs. no_return. Qed.

#[local] Hint Resolve noReturn_newPage noReturn_navigate noReturn_goto noReturn_responseBody
  noReturn_query noReturn_click noReturn_saveAs : noreturn.

Lemma noReturn_downloadFileDirect (env : Env) (url out : string) (follow : bool) (n : nat) :
  noReturn (downloadFileDirect env url out follow n).
Proof.
  revert url follow. induction n as [|n IH]; intros url follow; cbn [downloadFileDirect].
  - no_return.
  - apply noReturn_bind; [no_return|]. intros [response|]; [|no_return].
    destruct (follow && isRedirect response); [|no_return].
    destruct (redirectTarget env response url); [apply IH | no_return].
Qed.

Lemma noReturn_fetchResponse (env : Env) (fuel : nat) (url : string) :
  noReturn (fetchResponse env fuel url).
Proof.
  revert url. induction fuel as [|fuel IH]; intros url; cbn [fetchResponse].
  - no_return.
  - apply noReturn_bind; [no_return|]. intros [response|]; [|no_return].
    destruct (isRedirect response); [|no_return].
    destruct (redirectTarget env response url); [apply IH | no_return].
Qed.

Lemma noReturn_clickAndWait (env : Env) (t : N) : noReturn (clickAndWait env t).
Proof. unfold clickAndWait. no_return. Qed.

#[local] Hint Resolve noReturn_downloadFileDirect noReturn_fetchResponse
  noReturn_clickAndWait : noreturn.

Lemma noReturn_clickSelectors (env : Env) (t : N) (selectors : list string) :
  noReturn (clickSelectors env t selectors).
Proof.
  induction selectors as [|sel rest IH]; cbn [clickSelectors]; [no_return|].
  apply noReturn_bind; [no_return|]. intros [d|]; [no_return | exact IH].
Qed.

Lemma noReturn_submitForm (env : Env) (t : N) : noReturn (submitForm env t).
Proof. unfold submitForm. no_return. Qed.

#[local] Hint Resolve noReturn_clickSelectors noReturn_submitForm : noreturn.

Lemma returnsOnly_bind {A B : Type} (G : string -> World -> Prop) (m : M A) (f : A -> M B) :
  returnsOnly G m -> (forall a, returnsOnly G (f a)) -> returnsOnly G (m ≫= f).
Proof.
  intros Hm Hf w p. unfold mbind, M_bind. specialize (Hm w).
  destruct (m w) as [[a|r'|  |] w'] eqn:E; cbn in *; try discriminate.
  - apply Hf.
  - intros [= ->]. now apply Hm.
Qed.

Lemma returnsOnly_try_catch {A : Type} (G : string -> World -> Prop) (m h : M A) :
  returnsOnly G m -> returnsOnly G h -> returnsOnly G (try_catch m h).
Proof.
  intros Hm Hh w p. unfold try_catch. specialize (Hm w).
  destruct (m w) as [[a|r'|  |] w'] eqn:E; cbn in *; try discriminate.
  - intros [= ->]. now apply Hm.
  - apply Hh.
Qed.

(** Closing the page does not undo what a [return] inside the [try]
    established, as long as that only concerns the files. *)
Lemma returnsOnly_try_finally_close {A : Type} (G : string -> World -> Prop) (m : M A) :
  (forall p w t, G p w -> G p {| files := files w; trace := t |}) ->
  returnsOnly G m -> returnsOnly G (try_finally m (emit ClosePage)).
Proof.
  intros Hstable Hm w p. unfold try_finally, emit. specialize (Hm w).
  destruct (m w) as [[a|r'|  |] w'] eqn:E; cbn in *; try discriminate.
  intros [= ->]. apply Hstable. now apply Hm.
Qed.

Lemma returnsOnly_return_None {A : Type} (G : string -> World -> Prop) :
  returnsOnly G (return_ None : M A).
Proof. intros w p. discriminate. Qed.

Lemma returnsOnly_if {A : Type} (G : string -> World -> Prop) (b : bool) (m1 m2 : M A) :
  returnsOnly G m1 -> returnsOnly G m2 -> returnsOnly G (if b then m1 else m2).
Proof. now destruct b. Qed.

(** A path returned by a call comes from a [return] of its body. *)
Lemma call_returned (m : M unit) (w w' : World) (p : string) :
  call m w = (Normal (Some p), w') -> (m w).1 = Return (Some p) /\ (m w).2 = w'.
Proof.
  unfold call. destruct (m w) as [[a|r'|  |] w''] eqn:E; cbn; intros [= <- <-] || intros [=].
  auto.
Qed.

(** Lines 329-332: a path obtained from a call is returned as it is. *)
Lemma returnsOnly_forward {B : Type} (G : string -> World -> Prop) (m : M unit) (k : M B) :
  returnsOnly G m -> returnsOnly G k ->
  returnsOnly G (result ← call m;
                 match result with
                 | Some r => return_ (Some r)
                 | None => mret tt
                 end;;
                 k).
Proof.
  intros Hm Hk w p. unfold mbind, M_bind, call. specialize (Hm w).
  destruct (m w) as [[a|[r'|]|  |] w'] eqn:E; cbn in *; try discriminate; try apply Hk.
  intros [= ->]. now apply Hm.
Qed.

(** Runs a statement made of file-system steps on a symbolic world,
    splitting on every value it branches on. *)
Ltac run_leaf :=
  unfold returnsOnly; intros;
  repeat progress unfold saveAs, emit, responseBody, fs_stat_size, fs_stat_size_or_null,
    fs_writeFile, fs_unlink, validate, return_, throw, mbind, M_bind, mret, M_ret in *;
  repeat first
    [ progress cbn beta iota delta [fst snd files trace fmap option_fmap option_map] in *
    | rewrite lookup_insert_eq in *
    | progress simplify_eq
    | match goal with
      | H : (_, _).1 = _ |- _ => cbn [fst] in H
      | H : Normal _ = Return _ |- _ => discriminate H
      | H : Throw = Return _ |- _ => discriminate H
      | H : Return None = Return (Some _) |- _ => discriminate H
      | H : Return (Some _) = Return (Some _) |- _ => injection H as <-
      | H : context [match ?x with _ => _ end] |- _ => destruct x eqn:?
      | H : context [if ?b then _ else _] |- _ => destruct b eqn:?
      end ].

Lemma checkedLarge_fetchedFile (out : string) (isVideo : bool) (p : string) (w : World) :
  checkedLarge out isVideo p w -> fetchedFile out isVideo p w.
Proof.
  intros (-> & buf & Hf & Hlen & Hv). split; [reflexivity|].
  exists buf. repeat split; [exact Hf | lia | intros ->; exact Hv].
Qed.

Lemma fetchedFile_stable (out : string) (isVideo : bool) (p : string) (w : World)
    (t : list Event) :
  fetchedFile out isVideo p w -> fetchedFile out isVideo p {| files := files w; trace := t |}.
Proof. intros H. exact H. Qed.

(** Lines 227-238: the size test and the signature test. *)
Lemma checkSizeAndType_checked (out : string) (isVideo : bool) :
  returnsOnly (checkedLarge out isVideo)
    (size ← fs_stat_size out;
     if 1000 <? size then
       isValid ← validate out (kindName isVideo);
       if isValid : bool then return_ (Some out) else fs_unlink out
     else mret tt).
Proof.
  run_leaf. split; [reflexivity|]. eexists. repeat split; eauto.
  now apply Nat.ltb_lt.
Qed.

(** Lines 297-304: the body of a response that is not markup. *)
Lemma writeAndCheck_checked (out : string) (isVideo : bool) (buffer_ : buffer) :
  (1000 <? length buffer_) = true ->
  returnsOnly (checkedLarge out isVideo)
    (fs_writeFile out buffer_;;
     isValid ← validate out (kindName isVideo);
     if isValid : bool then return_ (Some out) else fs_unlink out).
Proof.
  intros Hlen. run_leaf. split; [reflexivity|]. eexists. repeat split; eauto.
  - apply lookup_insert_eq.
  - now apply Nat.ltb_lt.
Qed.

(** Lines 388-398. *)
Lemma writeStatCheck_checked (out : string) (isVideo : bool) (buffer_ : buffer) :
  returnsOnly (checkedLarge out isVideo)
    (fs_writeFile out buffer_;;
     size ← fs_stat_size out;
     if 1000 <? size then
       isValid ← validate out (kindName isVideo);
       if isValid : bool then return_ (Some out) else fs_unlink out
     else mret tt).
Proof.
  run_leaf. split; [reflexivity|]. eexists. repeat split; eauto.
  - apply lookup_insert_eq.
  - now apply Nat.ltb_lt.
Qed.

(** Lines 339-343: the view URL, whose file is only measured. *)
Lemma viewSize_fetched (out : string) :
  returnsOnly (fetchedFile out false)
    (size ← fs_stat_size out;
     if 1000 <? size then return_ (Some out) else fs_unlink out).
Proof.
  run_leaf. split; [reflexivity|]. eexists. repeat split; eauto; [|discriminate].
  match goal with H : (1000 <? _) = true |- _ => apply Nat.ltb_lt in H; lia end.
Qed.

(** Lines 477-483. *)
Lemma sizeAndType_fetched (out : string) (isVideo : bool) :
  returnsOnly (fetchedFile out isVideo)
    (size ← fs_stat_size out;
     if 0 <? size then
       isValid ← validate out (kindName isVideo);
       if isValid : bool then return_ (Some out) else mret tt
     else mret tt).
Proof.
  run_leaf. split; [reflexivity|]. eexists. repeat split; eauto.
  - now apply Nat.ltb_lt.
  - now intros ->.
Qed.

(** Lines 492-496. *)
Lemma writeAndType_fetched (out : string) (isVideo : bool) (buffer_ : buffer) :
  (0 <? length buffer_) = true ->
  returnsOnly (fetchedFile out isVideo)
    (fs_writeFile out buffer_;;
     isValid ← validate out (kindName isVideo);
     if isValid : bool then return_ (Some out) else mret tt).
Proof.
  intros Hlen. run_leaf. split; [reflexivity|]. eexists. repeat split; eauto.
  - apply lookup_insert_eq.
  - now apply Nat.ltb_lt.
  - now intros ->.
Qed.

Lemma saveDownload_fetched (d : Download) (out : string) (isVideo : bool) :
  returnsOnly (fetchedFile out isVideo) (saveDownload d out isVideo).
Proof.
  unfold saveDownload. run_leaf. split; [reflexivity|].
  eexists. repeat split; eauto; [apply lookup_insert_eq| |].
  - now apply Nat.ltb_lt.
  - now intros ->.
Qed.

Create HintDb returnsonly.
#[local] Hint Resolve checkSizeAndType_checked writeAndCheck_checked writeStatCheck_checked
  viewSize_fetched sizeAndType_fetched writeAndType_fetched saveDownload_fetched
  returnsOnly_return_None : returnsonly.

(** Splits a statement into its parts, down to the blocks above. *)
Ltac returns_only :=
  repeat first
    [ progress intros
    | solve [eauto with returnsonly]
    | solve [apply noReturn_returnsOnly; no_return]
    | apply returnsOnly_bind
    | apply returnsOnly_try_catch
    | match goal with
      | |- returnsOnly _ (match ?x with _ => _ end) => destruct x eqn:?
      | |- returnsOnly _ (if ?b then _ else _) => destruct b eqn:?
      end ].

Lemma attemptDirect_checked (env : Env) (url out : string) (isVideo : bool) :
  returnsOnly (checkedLarge out isVideo) (attemptDirect env url out isVideo).
Proof. unfold attemptDirect. returns_only. Qed.

#[local] Hint Resolve attemptDirect_checked : returnsonly.

Lemma handleMarkup_checked (env : Env) (response : Response) (fileId out : string)
    (isVideo : bool) :
  returnsOnly (checkedLarge out isVideo) (handleMarkup env response fileId out isVideo).
Proof. unfold handleMarkup. returns_only. Qed.

#[local] Hint Resolve handleMarkup_checked : returnsonly.

(** [downloadGoogleDriveFile] is the call of a body whose every [return]
    of a path follows the size test and the signature test. *)
Lemma downloadGoogleDriveFile_body (env : Env) (fuel : nat) (fileId out : string)
    (isVideo : bool) :
  exists body_ : M unit,
    downloadGoogleDriveFile env fuel fileId out isVideo = call body_ /\
    returnsOnly (checkedLarge out isVideo) body_.
Proof.
  eexists. split; [reflexivity|]. returns_only.
Qed.

Lemma downloadGoogleDriveFile_checked (env : Env) (fuel : nat) (fileId out : string)
    (isVideo : bool) (w w' : World) (p : string) :
  downloadGoogleDriveFile env fuel fileId out isVideo w = (Normal (Some p), w') ->
  checkedLarge out isVideo p w'.
Proof.
  destruct (downloadGoogleDriveFile_body env fuel fileId out isVideo) as (m & -> & Hm).
  intros H. apply call_returned in H as [Hret <-]. now apply Hm.
Qed.

Lemma writeStatCheck_fetched (out : string) (isVideo : bool) (buffer_ : buffer) :
  returnsOnly (fetchedFile out isVideo)
    (fs_writeFile out buffer_;;
     size ← fs_stat_size out;
     if 1000 <? size then
       isValid ← validate out (kindName isVideo);
       if isValid : bool then return_ (Some out) else fs_unlink out
     else mret tt).
Proof.
  eapply returnsOnly_mono; [apply checkedLarge_fetchedFile | apply writeStatCheck_checked].
Qed.

#[local] Hint Resolve writeStatCheck_fetched : returnsonly.

Lemma fetchVideoPage_fetched (env : Env) (pageUrl out : string) (isVideo : bool) :
  returnsOnly (fetchedFile out isVideo) (fetchVideoPage env pageUrl out isVideo).
Proof. unfold fetchVideoPage. returns_only. Qed.

#[local] Hint Resolve fetchVideoPage_fetched : returnsonly.

Lemma browserDownload_fetched (env : Env) (fileId out : string) (isVideo : bool) :
  returnsOnly (fetchedFile out isVideo) (browserDownload env fileId out isVideo).
Proof.
  unfold browserDownload. apply returnsOnly_bind; [returns_only|]. intros _.
  apply returnsOnly_try_finally_close; [apply fetchedFile_stable|].
  cbv zeta. returns_only.
Qed.

Lemma browserFetch_fetched (env : Env) (url out : string) (isVideo : bool) :
  returnsOnly (fetchedFile out isVideo) (browserFetch env url out isVideo).
Proof.
  unfold browserFetch. apply returnsOnly_bind; [returns_only|]. intros _.
  apply returnsOnly_try_finally_close; [apply fetchedFile_stable|].
  returns_only.
Qed.

#[local] Hint Resolve browserDownload_fetched browserFetch_fetched : returnsonly.

(** [downloadFile] is the call of a body whose every [return] of a path
    leaves a non-empty file there, with the video signature when a video
    was asked for. *)
Lemma downloadFile_body (env : Env) (fuel : nat) (url out : string) (isVideo : bool) :
  exists body_ : M unit,
    downloadFile env fuel url out isVideo = call body_ /\
    returnsOnly (fetchedFile out isVideo) body_.
Proof.
  eexists. split; [reflexivity|].
  destruct (negb (JsString.truthy url) || String.eqb (JsString.trim url) "");
    [returns_only|].
  apply returnsOnly_bind; [|returns_only].
  apply returnsOnly_try_catch; [|returns_only].
  destruct (extractGoogleDriveId url) as [fileId|]; [|returns_only].
  destruct (downloadGoogleDriveFile_body env fuel fileId out isVideo) as (m & -> & Hm).
  apply returnsOnly_forward.
  - eapply returnsOnly_mono; [apply checkedLarge_fetchedFile | exact Hm].
  - apply returnsOnly_bind; [|returns_only].
    destruct isVideo; cbn [negb]; returns_only.
Qed.

(** C1 (amended): a path returned by [downloadFile] is the output path,
    where a non-empty file now is; when a video was requested that file
    passed the video signature check.  A path returned by
    [downloadGoogleDriveFile], the direct ladder, is a file of more than
    1000 bytes that passed the signature check of the requested kind. *)
Theorem downloadFile_validated (env : Env) (fuel : nat) (out : string) (isVideo : bool)
    (w w' : World) (p : string) :
  (forall url,
     downloadFile env fuel url out isVideo w = (Normal (Some p), w') ->
     p = out /\
     exists buf, files w' !! out = Some buf /\ 0 < length buf /\
                 (isVideo = true -> validateFileType (files w') out "video" = true)) /\
  (forall fileId,
     downloadGoogleDriveFile env fuel fileId out isVideo w = (Normal (Some p), w') ->
     p = out /\
     exists buf, files w' !! out = Some buf /\ 1000 < length buf /\
                 validateFileType (files w') out (kindName isVideo) = true).
Proof.
  split.
  - intros url H.
    destruct (downloadFile_body env fuel url out isVideo) as (m & E & Hm).
    rewrite E in H. apply call_returned in H as [Hret <-]. now apply Hm.
  - intros fileId H. now apply downloadGoogleDriveFile_checked in H.
Qed.

Lemma downloadFile_validated_witness :
  let r := downloadFile tinyClipHost 3 "https://other-host.example/clip.mp4" "out.mp4" true
             emptyWorld in
  exists buf, files r.2 !! "out.mp4" = Some buf /\ 0 < length buf /\
              (true = true -> validateFileType (files r.2) "out.mp4" "video" = true).
Proof.
  cbv zeta.
  refine (proj2 (proj1 (downloadFile_validated tinyClipHost 3 "out.mp4" true emptyWorld _
                          "out.mp4") "https://other-host.example/clip.mp4" _)).
  vm_compute. reflexivity.
Defined.

(** ** The fetch workflow: the order of requests *)

Lemma run_bind_normal {A B : Type} (m : M A) (f : A -> M B) (w w' : World) (a : A) :
  m w = (Normal a, w') -> (m ≫= f) w = f a w'.
Proof. intros H. unfold mbind, M_bind. now rewrite H. Qed.

Lemma run_bind_return {A B : Type} (m : M A) (f : A -> M B) (w w' : World)
    (r : option string) :
  m w = (Return r, w') -> (m ≫= f) w = (Return r, w').
Proof. intros H. unfold mbind, M_bind. now rewrite H. Qed.

Lemma run_try_catch_normal {A : Type} (m h : M A) (w w' : World) (a : A) :
  m w = (Normal a, w') -> try_catch m h w = (Normal a, w').
Proof. intros H. unfold try_catch. now rewrite H. Qed.

Lemma run_try_catch_return {A : Type} (m h : M A) (w w' : World) (r : option string) :
  m w = (Return r, w') -> try_catch m h w = (Return r, w').
Proof. intros H. unfold try_catch. now rewrite H. Qed.

Lemma run_call_return (m : M unit) (w w' : World) (r : option string) :
  m w = (Return r, w') -> call m w = (Normal r, w').
Proof. intros H. unfold call. now rewrite H. Qed.

Lemma run_bind_diverge {A B : Type} (m : M A) (f : A -> M B) (w w' : World) :
  m w = (Diverge, w') -> (m ≫= f) w = (Diverge, w').
Proof. intros H. unfold mbind, M_bind. now rewrite H. Qed.

Lemma run_try_catch_diverge {A : Type} (m h : M A) (w w' : World) :
  m w = (Diverge, w') -> try_catch m h w = (Diverge, w').
Proof. intros H. unfold try_catch. now rewrite H. Qed.

Lemma run_call_diverge (m : M unit) (w w' : World) :
  m w = (Diverge, w') -> call m w = (Diverge, w').
Proof. intros H. unfold call. now rewrite H. Qed.

(** A direct download never returns from the caller; it only adds
    requests to the history, the first of them for [url]. *)
Lemma downloadFileDirect_run (env : Env) (out : string) (n : nat) :
  forall (url : string) (follow : bool) (w : World),
    let r := downloadFileDirect env url out follow n w in
    (r.1 = Normal tt \/ r.1 = Throw \/ r.1 = Diverge) /\
    exists evs, trace r.2 = trace w ++ evs /\
                (0 < n -> exists evs', evs = HttpGet url :: evs').
Proof.
  induction n as [|n IH]; intros url follow w; cbn [downloadFileDirect].
  - cbn. split; [auto|]. exists []. split; [now rewrite app_nil_r | lia].
  - unfold mbind, M_bind, request. cbn [fst snd].
    destruct (http_get env (trace w) url) as [response|].
    + destruct (follow && isRedirect response).
      * destruct (redirectTarget env response url) as [redirectUrl|].
        -- specialize (IH redirectUrl true
                         {| files := files w; trace := trace w ++ [HttpGet url] |}).
           cbv zeta in IH. destruct IH as (Hc & evs & Ht & _). split; [exact Hc|].
           exists (HttpGet url :: evs). split; [|eauto].
           rewrite Ht. cbn [trace]. now rewrite <- app_assoc.
        -- cbn. split; [auto|]. exists [HttpGet url]. eauto.
      * destruct (negb (statusCode response =? 200)).
        -- cbn. split; [auto|]. exists [HttpGet url]. eauto.
        -- unfold observe, fs_writeFile, fs_unlink, throw, diverge. cbn.
           destruct (transfer env (trace w ++ [HttpGet url])); cbn;
             [destruct (stream_finishes env (trace w ++ [HttpGet url])); cbn| |];
             (split; [auto|]); exists [HttpGet url]; eauto.
    + cbn. split; [auto|]. exists [HttpGet url]. eauto.
Qed.

(** A guarded attempt ends normally, returns the output path or never
    completes, and its first request is for [url]. *)
Lemma attemptDirect_run (env : Env) (url out : string) (isVideo : bool) (w : World) :
  let r := try_catch (attemptDirect env url out isVideo) (mret tt) w in
  (r.1 = Normal tt \/ r.1 = Return (Some out) \/ r.1 = Diverge) /\
  exists evs, trace r.2 = trace w ++ HttpGet url :: evs.
Proof.
  pose proof (downloadFileDirect_run env out 5 url true w) as H. cbv zeta in H.
  destruct H as (Hc & evs & Ht & Hfirst).
  destruct Hfirst as [evs' ->]; [lia|].
  unfold attemptDirect, try_catch, mbind, M_bind.
  destruct (downloadFileDirect env url out true 5 w) as [c w1]. cbn [fst snd] in *.
  destruct Hc as [-> | [-> | ->]].
  - unfold fs_stat_size, validate, return_, fs_unlink, mret, M_ret.
    destruct (files w1 !! out) as [buf|]; cbn [fst snd]; [|eauto].
    destruct (1000 <? length buf); cbn [fst snd]; [|eauto].
    destruct (validateFileType (files w1) out (kindName isVideo)); cbn [fst snd trace]; eauto.
  - cbn. eauto.
  - cbn. eauto.
Qed.

(** C3 (amended): when the canonical download left no valid file and the
    page fetched next is markup carrying a confirmation token, the next
    request is for the download URL with that token appended.  The token
    attempt ends in one of three ways.  It yields a valid file of more
    than 1000 bytes: the function returns it at once, and the history is
    the one the attempt left, so that no blind retry follows it.  It
    yields none: the first request after the attempt is for the URL with
    confirm=t appended.  It never completes: neither does the function.
    When the token is itself t the two URLs are the same one. *)
Theorem token_before_blind_confirmation (env : Env) (fuel : nat) (fileId out : string)
    (isVideo : bool) (w w1 w2 : World) (response : Response) (token : string) :
  try_catch (attemptDirect env (getGoogleDriveDownloadUrl fileId) out isVideo) (mret tt) w
    = (Normal tt, w1) ->
  fetchResponse env fuel (getGoogleDriveDownloadUrl fileId) w1 = (Normal response, w2) ->
  isMarkupResponse response = true ->
  confirmToken response = Some token ->
  let attempt := try_catch (attemptDirect env (tokenUrl fileId token) out isVideo) (mret tt) w2 in
  let final := downloadGoogleDriveFile env fuel fileId out isVideo w in
  (exists evs, trace attempt.2 = trace w2 ++ HttpGet (tokenUrl fileId token) :: evs) /\
  ((attempt.1 = Return (Some out) /\ final = (Normal (Some out), attempt.2)) \/
   (attempt.1 = Normal tt /\
    exists evs', trace final.2 = trace attempt.2 ++ HttpGet (confirmTUrl fileId) :: evs') \/
   (attempt.1 = Diverge /\ final = (Diverge, attempt.2))) /\
  (token = "t" -> tokenUrl fileId token = confirmTUrl fileId).
Proof.
  intros Hfirst Hfetch Hmarkup Htoken attempt final.
  destruct (attemptDirect_run env (tokenUrl fileId token) out isVideo w2) as [Hc Ht].
  fold attempt in Hc, Ht. split; [exact Ht|]. split; [|now intros ->].
  assert (Hstep2 : forall k,
            (response ← fetchResponse env fuel (getGoogleDriveDownloadUrl fileId);
             if isMarkupResponse response
             then handleMarkup env response fileId out isVideo
             else k response) w1 =
            handleMarkup env response fileId out isVideo w2).
  { intros k. rewrite (run_bind_normal _ _ _ _ _ Hfetch). now rewrite Hmarkup. }
  unfold final, downloadGoogleDriveFile. cbv zeta.
  change ("https://drive.google.com/uc?export=download&id=" +:+ fileId)
    with (getGoogleDriveDownloadUrl fileId).
  destruct attempt as [c w3] eqn:Hattempt. cbn [fst snd] in *.
  destruct Hc as [-> | [-> | ->]]; [right; left | left | right; right];
    (split; [reflexivity|]).
  - destruct (attemptDirect_run env (confirmTUrl fileId) out isVideo w3) as [Hc' [evs' Ht']].
    exists evs'. rewrite <- Ht'.
    destruct (try_catch (attemptDirect env (confirmTUrl fileId) out isVideo) (mret tt) w3)
      as [c' w4] eqn:Hblind. cbn [fst snd] in *.
    assert (Hmark : handleMarkup env response fileId out isVideo w2 = (c', w4)).
    { unfold handleMarkup. rewrite Htoken.
      rewrite (run_bind_normal _ _ _ _ _ Hattempt). exact Hblind. }
    destruct Hc' as [-> | [-> | ->]].
    + unfold call.
      rewrite (run_bind_normal _ (fun _ => return_ None) w w4 tt); [reflexivity|].
      apply run_try_catch_normal.
      rewrite (run_bind_normal _ _ _ _ _ Hfirst).
      apply run_try_catch_normal. now rewrite Hstep2.
    + unfold call.
      rewrite (run_bind_return _ (fun _ => return_ None) w w4 (Some out)); [reflexivity|].
      apply run_try_catch_return.
      rewrite (run_bind_normal _ _ _ _ _ Hfirst).
      apply run_try_catch_return. now rewrite Hstep2.
    + unfold call.
      rewrite (run_bind_diverge _ (fun _ => return_ None) w w4); [reflexivity|].
      apply run_try_catch_diverge.
      rewrite (run_bind_normal _ _ _ _ _ Hfirst).
      apply run_try_catch_diverge. now rewrite Hstep2.
  - apply run_call_return. apply run_bind_return. apply run_try_catch_return.
    rewrite (run_bind_normal _ _ _ _ _ Hfirst).
    apply run_try_catch_return. rewrite Hstep2.
    unfold handleMarkup. rewrite Htoken. now apply run_bind_return.
  - apply run_call_diverge. apply run_bind_diverge. apply run_try_catch_diverge.
    rewrite (run_bind_normal _ _ _ _ _ Hfirst).
    apply run_try_catch_diverge. rewrite Hstep2.
    unfold handleMarkup. rewrite Htoken. now apply run_bind_diverge.
Qed.

Lemma token_before_blind_confirmation_witness :
  let page := getGoogleDriveDownloadUrl "XYZ9" in
  let w2 := {| files := <["out.png" := warningPage]> ∅; trace := [HttpGet page; HttpGet page] |} in
  let attempt :=
    try_catch (attemptDirect blindDrive (tokenUrl "XYZ9" "abc123") "out.png" false) (mret tt) w2 in
  let final := downloadGoogleDriveFile blindDrive 3 "XYZ9" "out.png" false emptyWorld in
  (exists evs, trace attempt.2 = trace w2 ++ HttpGet (tokenUrl "XYZ9" "abc123") :: evs) /\
  ((attempt.1 = Return (Some "out.png") /\ final = (Normal (Some "out.png"), attempt.2)) \/
   (attempt.1 = Normal tt /\
    exists evs', trace final.2 = trace attempt.2 ++ HttpGet (confirmTUrl "XYZ9") :: evs') \/
   (attempt.1 = Diverge /\ final = (Diverge, attempt.2))) /\
  ("abc123" = "t" -> tokenUrl "XYZ9" "abc123" = confirmTUrl "XYZ9").
Proof.
  apply (token_before_blind_confirmation blindDrive 3 "XYZ9" "out.png" false emptyWorld
           {| files := <["out.png" := warningPage]> ∅;
              trace := [HttpGet (getGoogleDriveDownloadUrl "XYZ9")] |}
           _ (ok200 "text/html" warningPage) "abc123");
    vm_compute; reflexivity.
Defined.

(** ** The asset loop: one slide *)

Lemma eqb_empty_false (s : string) : s <> "" -> String.eqb s "" = false.
Proof. intros H. now apply String.eqb_neq. Qed.

(** One module description slide leaves the entries of the other slides
    as they are. *)
Lemma processModuleSlide_effect (env : Env) (fuel : nat) (skip : bool) (assetsDir : string)
    (i : nat) (slide : Slide) (st st' : Pipeline) (w : World) :
  (processModuleSlide env fuel skip assetsDir i slide st w).1 = Normal st' ->
  forall j, j <> i -> assetMap st' !! j = assetMap st !! j.
Proof.
  unfold processModuleSlide. cbv zeta.
  unfold mbind, M_bind, validate, fs_stat_size, fs_unlink, mret, M_ret.
  assert (Hother : forall a (s : Pipeline) j, j <> i ->
            assetMap (setAsset i a s) !! j = assetMap s !! j)
    by (intros a s j Hj; cbn; now rewrite lookup_insert_ne).
  destruct (String.eqb (videoUrlOf slide) ""), skip; cbn [negb andb].
  1, 2: destruct (String.eqb (imageUrlOf slide) ""); cbn [negb fst].
  1, 3: intros [= <-]; intros; reflexivity.
  1, 2: destruct (downloadImage _ _ _ w) as [[[p|]| | |] w1]; cbn [fst]; try discriminate;
    intros [= <-] j Hj; try rewrite Hother by exact Hj; reflexivity.
  - cbn [fst]. intros [= <-]. now apply Hother.
  - destruct (downloadVideo _ _ _ _ w) as [[[p|]| | |] w1]; cbn [fst snd]; try discriminate.
    + destruct (validateFileType (files w1) p "video"); cbn [fst snd files].
      * destruct (files w1 !! p); cbn [fst]; [|discriminate].
        intros [= <-] j Hj. now rewrite Hother.
      * intros [= <-] j Hj. now rewrite Hother.
    + intros [= <-] j Hj. now rewrite Hother.
Qed.

Lemma processSlide_module (env : Env) (fuel : nat) (skip : bool) (assetsDir : string)
    (i : nat) (slide : Slide) (st : Pipeline) (w : World) :
  type slide = "module_description" ->
  processSlide env fuel skip assetsDir i slide st w =
  processModuleSlide env fuel skip assetsDir i slide st w.
Proof.
  intros Htype. unfold processSlide. rewrite Htype.
  cbn [String.eqb Ascii.eqb Bool.eqb andb]. unfold mbind, M_bind.
  destruct (processModuleSlide env fuel skip assetsDir i slide st w) as [[st'| | |] w'];
    try reflexivity.
  now destruct (diagram slide) as [[? ?]|].
Qed.

(** One slide of any type leaves the entries of the other slides as they
    are. *)
Lemma processSlide_effect (env : Env) (fuel : nat) (skip : bool) (assetsDir : string)
    (i : nat) (slide : Slide) (st st' : Pipeline) (w : World) :
  (processSlide env fuel skip assetsDir i slide st w).1 = Normal st' ->
  forall j, j <> i -> assetMap st' !! j = assetMap st !! j.
Proof.
  destruct (String.eqb (type slide) "module_description") eqn:Htype.
  - apply String.eqb_eq in Htype. rewrite processSlide_module by exact Htype.
    now apply processModuleSlide_effect.
  - unfold processSlide. rewrite Htype.
    unfold renderMermaidDiagram, observe, emit, throw.
    unfold mbind, M_bind, mret, M_ret. cbn [fst snd].
    destruct (diagram slide) as [[dtype code]|]; cbn [fst].
    + destruct (String.eqb (type slide) "diagram" && String.eqb dtype "mermaid"); cbn [fst snd].
      * destruct (render_ok env (trace w)); cbn [fst]; [|discriminate].
        intros [= <-] j Hj. cbn. now rewrite lookup_insert_ne.
      * intros [= <-]; intros; reflexivity.
    + intros [= <-]; intros; reflexivity.
Qed.

(** After a video fetch the slide has an entry that carries the video
    URL, whether the fetch succeeded or not. *)
Lemma processModuleSlide_video_entry (env : Env) (fuel : nat) (assetsDir : string)
    (i : nat) (slide : Slide) (st st' : Pipeline) (w : World) :
  videoUrlOf slide <> "" ->
  (processModuleSlide env fuel false assetsDir i slide st w).1 = Normal st' ->
  exists a, assetMap st' !! i = Some a /\ asset_video_url a = Some (videoUrlOf slide) /\
            (asset_type a = "video" \/ asset_type a = "video_failed").
Proof.
  intros Hv. unfold processModuleSlide. rewrite (eqb_empty_false _ Hv).
  cbn [negb andb]. cbv zeta.
  unfold mbind, M_bind, validate, fs_stat_size, fs_unlink, mret, M_ret.
  destruct (downloadVideo _ _ _ _ w) as [[[p|]| | |] w1]; cbn [fst snd]; try discriminate.
  - destruct (validateFileType (files w1) p "video"); cbn [fst snd files].
    + destruct (files w1 !! p); cbn [fst]; [|discriminate].
      intros [= <-]. eexists. split; [apply lookup_insert_eq|]. cbn. auto.
    + intros [= <-]. eexists. split; [apply lookup_insert_eq|]. cbn. auto.
  - intros [= <-]. eexists. split; [apply lookup_insert_eq|]. cbn. auto.
Qed.

(** * Part III. Further properties of the code *)

(** ** validateFileType: what is accepted *)

Lemma byteIs_iff (buf : buffer) (i : nat) (v : byte) :
  byteIs buf i v = true <-> buf !! i = Some v.
Proof.
  split; [apply byteIs_eq|]. unfold byteIs. intros ->. now apply Byte.byte_dec_lb.
Qed.

Lemma signature4_iff (buf : buffer) (a b c d : byte) :
  byteIs buf 0 a && byteIs buf 1 b && byteIs buf 2 c && byteIs buf 3 d = true <->
  take 4 buf = [a; b; c; d].
Proof.
  rewrite !andb_true_iff, !byteIs_iff.
  destruct buf as [|b0 [|b1 [|b2 [|b3 t]]]]; cbn; split;
    try (intros [[[? ?] ?] ?]); try discriminate.
  - destruct t; cbn; congruence.
  - destruct t; cbn; intros Heq; injection Heq as -> -> -> ->; auto.
Qed.

Lemma signature3_iff (buf : buffer) (a b c : byte) :
  byteIs buf 0 a && byteIs buf 1 b && byteIs buf 2 c = true <->
  take 3 buf = [a; b; c].
Proof.
  rewrite !andb_true_iff, !byteIs_iff.
  destruct buf as [|b0 [|b1 [|b2 t]]]; cbn; split;
    try (intros [[? ?] ?]); try discriminate.
  - destruct t; cbn; congruence.
  - destruct t; cbn; intros Heq; injection Heq as -> -> ->; auto.
Qed.

(** X1: a missing file and a file of fewer than 4 bytes are rejected
    whatever type is expected, the unknown types included. *)
Theorem validateFileType_too_small (fs : filesystem) (p expectedType : string) :
  (fs !! p = None \/ exists buf, fs !! p = Some buf /\ length buf < 4) ->
  validateFileType fs p expectedType = false.
Proof.
  unfold validateFileType. intros [-> | (buf & -> & Hlen)]; [reflexivity|].
  apply Nat.ltb_lt in Hlen. now rewrite Hlen.
Qed.

Lemma validateFileType_too_small_witness :
  validateFileType {[ "a.bin" := [x89; x50; x4e] ]} "a.bin" "document" = false.
Proof.
  apply validateFileType_too_small. right. exists [x89; x50; x4e].
  split; [reflexivity | simpl; lia].
Defined.

(** X2: a file is accepted as an image exactly when it has at least 4
    bytes and starts with the PNG, the JPEG or the GIF signature. *)
Theorem validateFileType_image_iff (fs : filesystem) (p : string) :
  validateFileType fs p "image" = true <->
  exists buf, fs !! p = Some buf /\ 4 <= length buf /\
    (take 4 buf = pngSignature \/ take 3 buf = jpegSignature \/ take 4 buf = gifSignature).
Proof.
  unfold validateFileType. destruct (fs !! p) as [buf|]; [|split; [discriminate | intros (? & [=] & _)]].
  destruct (Nat.ltb_spec (length buf) 4) as [Hs|Hl].
  - split; [discriminate | intros (b & [= <-] & H & _); lia].
  - cbn [String.eqb Ascii.eqb Bool.eqb].
    split.
    + intros H. exists buf. split; [reflexivity|]. split; [exact Hl|].
      destruct (byteIs buf 0 x89 && _ && _ && _) eqn:Hpng;
        [left; now apply signature4_iff|].
      destruct (byteIs buf 0 xff && _ && _) eqn:Hjpeg;
        [right; left; now apply signature3_iff|].
      destruct (byteIs buf 0 x47 && _ && _ && _) eqn:Hgif;
        [right; right; now apply signature4_iff|].
      discriminate H.
    + intros (b & [= <-] & _ & [H|[H|H]]).
      * apply signature4_iff in H. now rewrite H.
      * apply signature3_iff in H. rewrite H. now rewrite orb_true_r.
      * apply signature4_iff in H. rewrite H. now rewrite !orb_true_r.
Qed.

(** The acceptance half of the video check. *)
Lemma video_accepts (buf head rest : buffer) :
  buf = head ++ ftypMarker ++ rest -> length head = 4 -> head <> pngSignature ->
  looksLikeMarkup buf = false ->
  forall fs p, fs !! p = Some buf -> validateFileType fs p "video" = true.
Proof.
  intros -> Hlen Hpng Hmarkup fs p Hp. unfold validateFileType. rewrite Hp.
  assert (Hsize : length (head ++ ftypMarker ++ rest) = 8 + length rest)
    by (rewrite !length_app, Hlen; simpl; lia).
  rewrite Hsize.
  replace (8 + length rest <? 4) with false by (symmetry; apply Nat.ltb_ge; lia).
  cbn [String.eqb Ascii.eqb Bool.eqb].
  destruct (byteIs (head ++ ftypMarker ++ rest) 0 x89 && _ && _ && _) eqn:Hsig.
  { exfalso. apply Hpng. eapply png_check_head; eauto. }
  unfold looksLikeMarkup, markupProbe in Hmarkup. rewrite Hsize in Hmarkup.
  rewrite Hmarkup.
  replace (8 <=? 8 + length rest) with true by (symmetry; apply Nat.leb_le; lia).
  destruct head as [|a [|b [|c [|d [|e t]]]]]; try discriminate Hlen.
  reflexivity.
Qed.

(** X3: a file is accepted as a video exactly when bytes 4-7 are "ftyp",
    the first four bytes are not the PNG signature, and the first 100
    bytes, lower-cased, hold neither "<!doctype" nor "<html". *)
Theorem validateFileType_video_iff (fs : filesystem) (p : string) :
  validateFileType fs p "video" = true <->
  exists head rest, fs !! p = Some (head ++ ftypMarker ++ rest) /\
    length head = 4 /\ head <> pngSignature /\
    looksLikeMarkup (head ++ ftypMarker ++ rest) = false.
Proof.
  split.
  - unfold validateFileType. destruct (fs !! p) as [buf|]; [|discriminate].
    destruct (length buf <? 4); [discriminate|].
    cbn [String.eqb Ascii.eqb Bool.eqb].
    destruct (byteIs buf 0 x89 && _ && _ && _) eqn:Hpng; [discriminate|].
    fold (markupProbe buf). fold (looksLikeMarkup buf).
    destruct (looksLikeMarkup buf) eqn:Hmarkup; [discriminate|].
    destruct ((8 <=? length buf) && _ && _ && _ && _) eqn:Hftyp; [|discriminate].
    intros _. repeat (apply andb_prop in Hftyp as [Hftyp ?]).
    apply Nat.leb_le in Hftyp.
    repeat match goal with H : byteIs _ _ _ = true |- _ => apply byteIs_eq in H end.
    destruct buf as [|b0 [|b1 [|b2 [|b3 [|b4 [|b5 [|b6 [|b7 rest]]]]]]]];
      cbn in Hftyp; try lia.
    cbn in *. simplify_eq.
    exists [b0; b1; b2; b3], rest. repeat split; try exact Hmarkup.
    intros [= -> -> -> ->]. discriminate Hpng.
  - intros (head & rest & Hp & Hlen & Hpng & Hmarkup).
    eapply video_accepts; eauto.
Qed.


(** ** extractGoogleDriveId: what it returns and what it does not recognize *)

Lemma takeIdChars_idchars (s : string) : Url.all_chars isIdChar (takeIdChars s) = true.
Proof.
  induction s as [|a s IH]; [reflexivity|]. cbn [takeIdChars].
  destruct (isIdChar a) eqn:Ha; [|reflexivity]. cbn [Url.all_chars]. now rewrite Ha.
Qed.

Lemma matchAfterMarker_Some (marker s id : string) :
  matchAfterMarker marker s = Some id -> validId id = true.
Proof.
  induction s as [|a s IH]; cbn [matchAfterMarker].
  - destruct (stripPrefix marker "") as [rest|]; [|discriminate].
    pose proof (takeIdChars_idchars rest) as Hall.
    destruct (takeIdChars rest) eqn:Ht; [discriminate|].
    intros [= <-]. unfold validId. now rewrite Hall.
  - destruct (stripPrefix marker (String a s)) as [rest|]; [|exact IH].
    pose proof (takeIdChars_idchars rest) as Hall.
    destruct (takeIdChars rest) eqn:Ht; [exact IH|].
    intros [= <-]. unfold validId. now rewrite Hall.
Qed.

Lemma id_is_host (id : string) :
  Url.all_chars isIdChar id = true -> Url.all_chars isHostChar id = true.
Proof.
  apply all_chars_impl. intros a Ha. unfold isHostChar.
  destruct (isIdChar_neq a "/" Ha) as [-> _]; [simpl; tauto|].
  destruct (isIdChar_neq a "?" Ha) as [-> _]; [simpl; tauto|].
  destruct (isIdChar_neq a "#" Ha) as [-> _]; [simpl; tauto|]. reflexivity.
Qed.

(** X4: the function never returns an empty identifier, and an identifier
    it takes from the path is a token of letters, digits, "_" and "-". *)
Theorem extractGoogleDriveId_result (url id : string) :
  extractGoogleDriveId url = Some id ->
  id <> "" /\ (matchAfterMarker "/file/d/" url <> None -> validId id = true).
Proof.
  unfold extractGoogleDriveId. destruct (negb (JsString.truthy url)); [discriminate|].
  destruct (matchAfterMarker "/file/d/" url) as [m|] eqn:Hm.
  - intros [= <-]. apply matchAfterMarker_Some in Hm. split; [|auto].
    intros ->. discriminate Hm.
  - intros H. split; [|congruence].
    destruct (Url.parse url) as [u|]; [|discriminate].
    destruct (JsString.includes _ _); [|discriminate].
    destruct (Url.searchParams_get u "id") as [v|]; [|discriminate].
    destruct (JsString.truthy v) eqn:Hv; [|discriminate].
    injection H as <-. intros ->. discriminate Hv.
Qed.

Lemma extractGoogleDriveId_result_witness :
  "1AbC-_9" <> "" /\
  (matchAfterMarker "/file/d/" "https://drive.google.com/file/d/1AbC-_9/view" <> None ->
   validId "1AbC-_9" = true).
Proof.
  apply (extractGoogleDriveId_result "https://drive.google.com/file/d/1AbC-_9/view").
  reflexivity.
Defined.

(** X5: the path form is recognized whatever follows the identifier, as
    long as the next character cannot belong to it; in particular an
    [id] parameter in the query does not override the path. *)
Theorem extractGoogleDriveId_path_first (h id rest : string) :
  Url.all_chars isHostChar h = true ->
  validId id = true ->
  match rest with EmptyString => True | String c _ => isIdChar c = false end ->
  extractGoogleDriveId ("https://" +:+ h +:+ "/file/d/" +:+ id +:+ rest) = Some id.
Proof.
  unfold validId. intros Hh H Hrest. apply andb_prop in H as [Hne Hid].
  unfold extractGoogleDriveId. unfold_append. cbn [JsString.truthy negb].
  repeat (rewrite matchAfterMarker_skip by reflexivity).
  rewrite matchAfterMarker_skip by (now apply stripPrefix_before_host).
  rewrite (matchAfterMarker_host h) by exact Hh.
  erewrite matchAfterMarker_here; [reflexivity | reflexivity | | exact Hne].
  destruct rest as [|c rest].
  - rewrite append_empty_r. now apply takeIdChars_all.
  - now apply takeIdChars_stop.
Qed.

Lemma extractGoogleDriveId_path_first_witness :
  extractGoogleDriveId "https://drive.google.com/file/d/1AbC-_9/preview?id=OTHER" =
  Some "1AbC-_9".
Proof.
  apply (extractGoogleDriveId_path_first "drive.google.com" "1AbC-_9" "/preview?id=OTHER");
    reflexivity.
Defined.

Lemma matchAfterMarker_id_app (id rest : string) :
  Url.all_chars isIdChar id = true ->
  matchAfterMarker "/file/d/" (id +:+ rest) = matchAfterMarker "/file/d/" rest.
Proof. intros Hid. apply matchAfterMarker_host. now apply id_is_host. Qed.

Lemma extractGoogleDriveId_uc_query (id tail : string) :
  Url.all_chars isIdChar id = true ->
  Url.all_chars (fun a => negb (Url.is_c0_or_space a)) tail = true ->
  Url.all_chars (fun a => negb (Ascii.eqb a "#")) tail = true ->
  matchAfterMarker "/file/d/" tail = None ->
  extractGoogleDriveId ("https://drive.google.com/uc?export=download&id=" +:+ id +:+ tail) = None.
Proof.
  intros Hid Hvisible Htail Hm. unfold extractGoogleDriveId.
  assert (Hparse :
    Url.parse ("https://drive.google.com/uc?export=download&id=" +:+ id +:+ tail) =
    Some {| Url.pathname := "/uc";
            Url.query := "export=download&id=" +:+ id +:+ tail |}).
  { change ("https://drive.google.com/uc?export=download&id=" +:+ id +:+ tail)
      with ("https://" +:+ "drive.google.com" +:+
            String "/" ("uc?export=download&id=" +:+ id +:+ tail)).
    rewrite parse_https; [|reflexivity|].
    2:{ rewrite !all_chars_app. now rewrite (idChars_visible id Hid), Hvisible. }
    unfold Url.specialTail, Url.pathAndQuery.
    change (String "/" ("uc?export=download&id=" +:+ id +:+ tail))
      with ("/uc?export=download&id=" +:+ id +:+ tail).
    rewrite (splitAt_absent "#").
    2:{ rewrite !all_chars_app, Htail, (id_without "#" id) by (simpl; tauto || exact Hid).
        reflexivity. }
    unfold_append. cbn [Url.splitAt Ascii.eqb Bool.eqb fst snd default]. reflexivity. }
  rewrite Hparse. unfold_append. cbn [JsString.truthy negb].
  repeat (rewrite matchAfterMarker_skip by reflexivity).
  rewrite (matchAfterMarker_id_app id tail Hid), Hm.
  cbn [Url.pathname]. reflexivity.
Qed.

(** X6: the download URLs the script builds from a valid identifier are
    themselves not recognized as Google Drive links: the query form needs
    a path that contains "open", and theirs is /uc. *)
Theorem extractGoogleDriveId_download_url (id : string) :
  validId id = true ->
  extractGoogleDriveId (getGoogleDriveDownloadUrl id) = None /\
  extractGoogleDriveId (getGoogleDriveVideoUrl id) = None.
Proof.
  unfold validId. intros H. apply andb_prop in H as [_ Hid].
  unfold getGoogleDriveDownloadUrl, getGoogleDriveVideoUrl. split.
  - rewrite <- (append_empty_r id) at 1.
    now apply (extractGoogleDriveId_uc_query id "").
  - now apply (extractGoogleDriveId_uc_query id "&confirm=t").
Qed.

Lemma extractGoogleDriveId_download_url_witness :
  extractGoogleDriveId (getGoogleDriveDownloadUrl "1AbC-_9") = None /\
  extractGoogleDriveId (getGoogleDriveVideoUrl "1AbC-_9") = None.
Proof. apply (extractGoogleDriveId_download_url "1AbC-_9"). reflexivity. Defined.


(** ** escapeHtml: one pass, nothing lost *)

Lemma replaceAllChar_other (c : ascii) (r : string) (a : ascii) (s : string) :
  Ascii.eqb a c = false ->
  replaceAllChar c r (String a s) = String a (replaceAllChar c r s).
Proof. intros H. cbn [replaceAllChar]. now rewrite H. Qed.

Lemma replaceAllChar_same (c : ascii) (r : string) (s : string) :
  replaceAllChar c r (String c s) = r +:+ replaceAllChar c r s.
Proof. cbn [replaceAllChar]. now rewrite Ascii.eqb_refl. Qed.

Ltac step_replace :=
  repeat first
    [ rewrite replaceAllChar_same
    | rewrite replaceAllChar_other by (reflexivity || assumption)
    | rewrite append_String
    | rewrite append_empty ].

Lemma escapeHtml_escapeEach (s : string) :
  escapeHtml (VString s) = escapeEach s.
Proof.
  unfold escapeHtml. cbn [truthy toString].
  destruct s as [|a0 s0]; [reflexivity|]. cbn [JsString.truthy negb].
  generalize (String a0 s0) as s. clear. intros s.
  induction s as [|a s IH]; [reflexivity|].
  cbn [escapeEach]. rewrite <- IH. unfold escapeChar.
  destruct (Ascii.eqb_spec a amp) as [->|H1]; [unfold amp; now step_replace|].
  destruct (Ascii.eqb_spec a lt) as [->|H2]; [unfold amp, lt; now step_replace|].
  destruct (Ascii.eqb_spec a gt) as [->|H3]; [unfold amp, lt, gt; now step_replace|].
  destruct (Ascii.eqb_spec a dquote) as [->|H4];
    [unfold amp, lt, gt, dquote; now step_replace|].
  destruct (Ascii.eqb_spec a squote) as [->|H5];
    [unfold amp, lt, gt, dquote, squote; now step_replace|].
  apply Ascii.eqb_neq in H1, H2, H3, H4, H5. now step_replace.
Qed.

(** X7: on any value that is not falsy, the five replacements, made one
    after the other on its string form, amount to one pass that replaces
    every character on its own: no entity written by an earlier
    replacement is touched by a later one. *)
Theorem escapeHtml_each (v : JsValue) :
  escapeHtml v = if truthy v then escapeEach (toString v) else "".
Proof.
  destruct (truthy v) eqn:Hv; [|now apply escapeHtml_falsy].
  rewrite <- escapeHtml_escapeEach. unfold escapeHtml. rewrite Hv. cbn [negb truthy toString].
  destruct (toString v) eqn:Hs; reflexivity.
Qed.

Lemma escapeChar_cases (a : ascii) :
  (a = amp /\ escapeChar a = "&amp;") \/ (a = lt /\ escapeChar a = "&lt;") \/
  (a = gt /\ escapeChar a = "&gt;") \/ (a = dquote /\ escapeChar a = "&quot;") \/
  (a = squote /\ escapeChar a = "&#039;") \/
  (a <> amp /\ escapeChar a = String a "").
Proof.
  unfold escapeChar.
  destruct (Ascii.eqb_spec a amp) as [->|H1]; [tauto|].
  destruct (Ascii.eqb_spec a lt) as [->|H2]; [tauto|].
  destruct (Ascii.eqb_spec a gt) as [->|H3]; [tauto|].
  destruct (Ascii.eqb_spec a dquote) as [->|H4]; [tauto|].
  destruct (Ascii.eqb_spec a squote) as [->|H5]; tauto.
Qed.

Lemma escapeEach_injective (s t : string) : escapeEach s = escapeEach t -> s = t.
Proof.
  revert t. induction s as [|a s IH]; intros [|b t]; cbn [escapeEach].
  - reflexivity.
  - destruct (escapeChar_cases b) as [[_ ->]|[[_ ->]|[[_ ->]|[[_ ->]|[[_ ->]|[_ ->]]]]]];
      discriminate.
  - destruct (escapeChar_cases a) as [[_ ->]|[[_ ->]|[[_ ->]|[[_ ->]|[[_ ->]|[_ ->]]]]]];
      discriminate.
  - destruct (escapeChar_cases a) as [[-> ->]|[[-> ->]|[[-> ->]|[[-> ->]|[[-> ->]|[Ha ->]]]]]];
    destruct (escapeChar_cases b) as [[-> ->]|[[-> ->]|[[-> ->]|[[-> ->]|[[-> ->]|[Hb ->]]]]]];
      rewrite ?append_String, ?append_empty; intros E;
      try discriminate E;
      try (injection E as E; f_equal; now apply IH);
      try (injection E as E' E; f_equal; [exact E' | now apply IH]);
      try (injection E as E' E; exfalso; first [now apply Ha | now apply Hb]).
Qed.

(** X8: escaping loses nothing: two different texts never have the same
    escaped form. *)
Theorem escapeHtml_injective (s t : string) :
  escapeHtml (VString s) = escapeHtml (VString t) -> s = t.
Proof. rewrite !escapeHtml_escapeEach. apply escapeEach_injective. Qed.

Lemma escapeHtml_injective_witness : "a<b" = "a<b".
Proof. apply (escapeHtml_injective "a<b" "a<b"). reflexivity. Defined.

(** X9: a text that holds none of the five escaped characters (the
    ampersand, the two angle brackets and the two quotes) is returned as
    it is. *)
Theorem escapeHtml_plain (s : string) :
  Forall (fun c => ~ In c (list_ascii_of_string s)) [amp; lt; gt; dquote; squote] ->
  escapeHtml (VString s) = s.
Proof.
  intros H. rewrite escapeHtml_escapeEach.
  induction s as [|a s IH]; [reflexivity|]. cbn [escapeEach].
  assert (Ha : Forall (fun c => a <> c) [amp; lt; gt; dquote; squote]).
  { eapply Forall_impl; [exact H|]. cbn. intros c Hc ->. apply Hc. now left. }
  rewrite IH.
  2:{ eapply Forall_impl; [exact H|]. cbn. intros c Hc Hin. apply Hc. now right. }
  apply Forall_cons in Ha as [H1 Ha]. apply Forall_cons in Ha as [H2 Ha].
  apply Forall_cons in Ha as [H3 Ha]. apply Forall_cons in Ha as [H4 Ha].
  apply Forall_cons in Ha as [H5 _].
  unfold escapeChar. apply Ascii.eqb_neq in H1, H2, H3, H4, H5.
  now rewrite H1, H2, H3, H4, H5.
Qed.

Lemma escapeHtml_plain_witness : escapeHtml (VString "Camera: 4 units") = "Camera: 4 units".
Proof.
  apply (escapeHtml_plain "Camera: 4 units").
  repeat constructor; cbn; unfold amp, lt, gt, dquote, squote;
    intros H; repeat (destruct H as [H|H]; [discriminate H|]); exact H.
Defined.


(** ** aggregateSlides: the bullets it keeps, the parts it makes *)

Lemma pushRun_items (slide : Slide) (run : list Slide) :
  concat (map itemsOf (pushRun slide run)) = mergedContentOf run.
Proof.
  unfold pushRun, mergedContentOf.
  destruct (List.filter _ run) as [|first nt] eqn:Hnt; [reflexivity|].
  destruct (Nat.ltb_spec MAX_ITEMS_PER_SLIDE (length (concat (map itemsOf (first :: nt)))))
    as [Hlong|Hshort].
  - now apply splitMerged_concat.
  - destruct (_ || _) eqn:Hmerge.
    + cbn [map concat]. change (itemsOf (mergedSlide _ _ ?c _)) with c.
      now rewrite app_nil_r.
    + apply orb_false_elim in Hmerge as [Hone _]. apply Nat.ltb_ge in Hone.
      destruct nt; [|cbn in Hone; lia]. reflexivity.
Qed.

Lemma survives_run (run : list Slide) :
  Forall (fun s => isSystemRequirements s = true) run ->
  List.filter survives run = List.filter (fun s => isNonTrivial (itemsOf s)) run.
Proof.
  induction 1 as [|s run Hs _ IH]; [reflexivity|].
  cbn [List.filter]. unfold survives at 1. rewrite Hs, IH. reflexivity.
Qed.

(** X10: aggregation neither loses nor reorders bullets: the bullets of
    the output, read in order, are the bullets of the input slides, in
    order, without those of the System Requirements slides that are
    filtered out as trivial. *)
Theorem aggregateSlides_items (slides out : list Slide) :
  aggregateSlides slides = Some out ->
  concat (map itemsOf out) = concat (map itemsOf (List.filter survives slides)).
Proof.
  remember (length slides) as n eqn:Hn. revert slides out Hn.
  induction n as [n IH] using lt_wf_ind. intros slides out Hn Hout.
  destruct slides as [|s rest].
  - injection Hout as <-. reflexivity.
  - destruct (isSystemRequirements s) eqn:Hs.
    + rewrite aggregateSlides_run_step in Hout by exact Hs.
      apply appendResults_Some in Hout as (parts & out' & Hparts & Hrest & ->).
      destruct (spanRun_spec rest) as (E & Hrun & _).
      assert (Hlt : length (spanRun rest).2 < n)
        by (pose proof (spanRun_length rest); cbn in Hn; lia).
      pose proof (IH _ Hlt _ _ eq_refl Hrest) as IHrest.
      apply emitRun_Some in Hparts as ->.
      rewrite map_app, concat_app, pushRun_items, IHrest.
      assert (Hsplit : s :: rest = (s :: (spanRun rest).1) ++ (spanRun rest).2)
        by (cbn [app]; f_equal; exact E).
      replace (List.filter survives (s :: rest))
        with (List.filter survives ((s :: (spanRun rest).1) ++ (spanRun rest).2))
        by (now rewrite <- Hsplit).
      rewrite List.filter_app, map_app, concat_app.
      rewrite (survives_run (s :: (spanRun rest).1)); [reflexivity|].
      constructor; [exact Hs | exact Hrun].
    + rewrite aggregateSlides_other in Hout by exact Hs.
      apply appendResults_Some in Hout as (x & out' & [= <-] & Hrest & ->).
      assert (Hlt : length rest < n) by (cbn in Hn; lia).
      pose proof (IH _ Hlt _ _ eq_refl Hrest) as IHrest.
      cbn [List.filter]. unfold survives at 1. rewrite Hs. cbn [negb orb app map concat].
      now rewrite IHrest.
Qed.

Lemma aggregateSlides_items_witness :
  concat (map itemsOf (default [] (aggregateSlides exampleDeck))) =
  concat (map itemsOf (List.filter survives exampleDeck)).
Proof. apply (aggregateSlides_items exampleDeck). vm_compute. reflexivity. Defined.

Lemma ceilDiv_pred (a b : nat) : 0 < b -> 0 < a -> b * (ceilDiv a b - 1) < a.
Proof.
  intros Hb Ha. unfold ceilDiv.
  pose proof (Nat.div_mod_eq (a + b - 1) b) as E.
  pose proof (Nat.mod_upper_bound (a + b - 1) b) as U. nia.
Qed.

(** X11: a merged content of more than 15 items is split into
    ceil(total/15) parts, the fewest slides of at most 15 items that can
    hold it, and no part is empty. *)
Theorem splitMerged_parts (slide : Slide) (merged : list Item) :
  MAX_ITEMS_PER_SLIDE < length merged ->
  let n := ceilDiv (length merged) MAX_ITEMS_PER_SLIDE in
  length (splitMerged slide merged) = n /\
  (forall k, length merged <= k * MAX_ITEMS_PER_SLIDE -> n <= k) /\
  Forall (fun p => 1 <= length (itemsOf p)) (splitMerged slide merged).
Proof.
  intros Hlen n. split; [|split].
  - unfold splitMerged. now rewrite length_map, length_seq.
  - intros k Hk. apply ceilDiv_le; unfold MAX_ITEMS_PER_SLIDE in *; lia.
  - apply Forall_forall. intros p Hp.
    apply list_elem_of_In in Hp. unfold splitMerged in Hp.
    apply in_map_iff in Hp as [k [<- Hk]]. apply in_seq in Hk.
    rewrite itemsOf_splitSlide, slice_chunk, length_take, length_drop.
    fold n in Hk |- *.
    assert (Hn : 1 <= n) by (apply (ceilDiv_gt _ _ 0); unfold MAX_ITEMS_PER_SLIDE in *; lia).
    assert (Hips : ceilDiv (length merged) n <= MAX_ITEMS_PER_SLIDE).
    { apply ceilDiv_le; [lia|].
      pose proof (ceilDiv_mul_ge (length merged) MAX_ITEMS_PER_SLIDE) as H.
      fold n in H. unfold MAX_ITEMS_PER_SLIDE in *. lia. }
    assert (Hpos : 1 <= ceilDiv (length merged) n)
      by (apply (ceilDiv_gt _ _ 0); unfold MAX_ITEMS_PER_SLIDE in *; lia).
    pose proof (ceilDiv_pred (length merged) MAX_ITEMS_PER_SLIDE) as Hpred.
    fold n in Hpred. unfold MAX_ITEMS_PER_SLIDE in *. nia.
Qed.

Lemma splitMerged_parts_witness :
  length (splitMerged (bullets "System Requirements" []) (mergedContentOf exampleDeck)) = 3.
Proof.
  apply (splitMerged_parts (bullets "System Requirements" []) (mergedContentOf exampleDeck)).
  vm_compute. lia.
Defined.


(** ** Effects of statements *)

Section Steps.
Context (R : World -> World -> Prop).
Hypothesis R_refl : forall w, R w w.
Hypothesis R_trans : forall w1 w2 w3, R w1 w2 -> R w2 w3 -> R w1 w3.

Lemma steps_ret {A : Type} (a : A) : steps R (mret a : M A).
Proof. intros w. apply R_refl. Qed.

Lemma steps_throw {A : Type} : steps R (throw : M A).
Proof. intros w. apply R_refl. Qed.

Lemma steps_return {A : Type} (r : option string) : steps R (return_ r : M A).
Proof. intros w. apply R_refl. Qed.

Lemma steps_diverge {A : Type} : steps R (diverge : M A).
Proof. intros w. apply R_refl. Qed.

Lemma steps_observe {A : Type} (f : list Event -> A) : steps R (observe f).
Proof. intros w. apply R_refl. Qed.

Lemma steps_fs_stat_size (p : string) : steps R (fs_stat_size p).
Proof. intros w. unfold fs_stat_size. destruct (files w !! p); apply R_refl. Qed.

Lemma steps_fs_stat_size_or_null (p : string) : steps R (fs_stat_size_or_null p).
Proof. intros w. apply R_refl. Qed.

Lemma steps_validate (p kind : string) : steps R (validate p kind).
Proof. intros w. apply R_refl. Qed.

Lemma steps_bind {A B : Type} (m : M A) (f : A -> M B) :
  steps R m -> (forall a, steps R (f a)) -> steps R (m ≫= f).
Proof.
  intros Hm Hf w. unfold mbind, M_bind. specialize (Hm w).
  destruct (m w) as [[a|r|  |] w']; cbn [snd] in *; try exact Hm.
  eapply R_trans; [exact Hm | apply Hf].
Qed.

Lemma steps_try_catch {A : Type} (m h : M A) :
  steps R m -> steps R h -> steps R (try_catch m h).
Proof.
  intros Hm Hh w. unfold try_catch. specialize (Hm w).
  destruct (m w) as [[a|r|  |] w']; cbn [snd] in *; try exact Hm.
  eapply R_trans; [exact Hm | apply Hh].
Qed.

Lemma steps_try_finally {A : Type} (m : M A) (cleanup : M unit) :
  steps R m -> steps R cleanup -> steps R (try_finally m cleanup).
Proof.
  intros Hm Hc w. unfold try_finally. specialize (Hm w).
  destruct (m w) as [[a|r|  |] w']; cbn [snd] in *; try exact Hm;
    specialize (Hc w'); destruct (cleanup w') as [[[]|r'|  |] w'']; cbn [snd] in *;
    eapply R_trans; eauto.
Qed.

Lemma steps_call (m : M unit) : steps R m -> steps R (call m).
Proof.
  intros Hm w. unfold call. specialize (Hm w).
  destruct (m w) as [[a|r|  |] w']; exact Hm.
Qed.
End Steps.

Lemma effects_refl (E : Event -> Prop) (P : string -> Prop) (w : World) : effects E P w w.
Proof. split; [exists []; split; [now rewrite app_nil_r | constructor] | reflexivity]. Qed.

Lemma effects_trans (E : Event -> Prop) (P : string -> Prop) (w1 w2 w3 : World) :
  effects E P w1 w2 -> effects E P w2 w3 -> effects E P w1 w3.
Proof.
  intros [(e1 & T1 & F1) H1] [(e2 & T2 & F2) H2]. split.
  - exists (e1 ++ e2). split; [now rewrite T2, T1, app_assoc | now apply Forall_app].
  - intros p Hp. now rewrite H2, H1.
Qed.

Lemma effects_mono (E E' : Event -> Prop) (P P' : string -> Prop) (w w' : World) :
  (forall e, E e -> E' e) -> (forall p, P p -> P' p) ->
  effects E P w w' -> effects E' P' w w'.
Proof.
  intros HE HP [(evs & T & F) H]. split.
  - exists evs. split; [exact T | eapply Forall_impl; [exact F | exact HE]].
  - intros p Hp. apply H. auto.
Qed.

Section Confined.
Context (E : Event -> Prop) (P : string -> Prop).

Lemma confined_ret {A : Type} (a : A) : confined E P (mret a : M A).
Proof. apply steps_ret, effects_refl. Qed.

Lemma confined_throw {A : Type} : confined E P (throw : M A).
Proof. apply steps_throw, effects_refl. Qed.

Lemma confined_return {A : Type} (r : option string) : confined E P (return_ r : M A).
Proof. apply steps_return, effects_refl. Qed.

Lemma confined_diverge {A : Type} : confined E P (diverge : M A).
Proof. apply steps_diverge, effects_refl. Qed.

Lemma confined_observe {A : Type} (f : list Event -> A) : confined E P (observe f).
Proof. apply steps_observe, effects_refl. Qed.

Lemma confined_fs_stat_size (p : string) : confined E P (fs_stat_size p).
Proof. apply steps_fs_stat_size, effects_refl. Qed.

Lemma confined_fs_stat_size_or_null (p : string) : confined E P (fs_stat_size_or_null p).
Proof. apply steps_fs_stat_size_or_null, effects_refl. Qed.

Lemma confined_validate (p kind : string) : confined E P (validate p kind).
Proof. apply steps_validate, effects_refl. Qed.

Lemma confined_bind {A B : Type} (m : M A) (f : A -> M B) :
  confined E P m -> (forall a, confined E P (f a)) -> confined E P (m ≫= f).
Proof. apply steps_bind, effects_trans. Qed.

Lemma confined_try_catch {A : Type} (m h : M A) :
  confined E P m -> confined E P h -> confined E P (try_catch m h).
Proof. apply steps_try_catch, effects_trans. Qed.

Lemma confined_try_finally {A : Type} (m : M A) (cleanup : M unit) :
  confined E P m -> confined E P cleanup -> confined E P (try_finally m cleanup).
Proof. apply steps_try_finally, effects_trans. Qed.

Lemma confined_call (m : M unit) : confined E P m -> confined E P (call m).
Proof. apply steps_call. Qed.

Lemma confined_emit (e : Event) : E e -> confined E P (emit e).
Proof.
  intros He w. split; [|reflexivity]. exists [e]. split; [reflexivity | now constructor].
Qed.

Lemma confined_request (env : Env) (url : string) :
  E (HttpGet url) -> confined E P (request env url).
Proof.
  intros He w. split; [|reflexivity].
  exists [HttpGet url]. split; [reflexivity | now constructor].
Qed.

Lemma confined_fs_writeFile (p : string) (buf : buffer) :
  P p -> confined E P (fs_writeFile p buf).
Proof.
  intros Hp w. split; [exists []; split; [cbn; now rewrite app_nil_r | constructor]|].
  intros q Hq. cbn. apply lookup_insert_ne. intros ->. now apply Hq.
Qed.

Lemma confined_fs_unlink (p : string) : P p -> confined E P (fs_unlink p).
Proof.
  intros Hp w. split; [exists []; split; [cbn; now rewrite app_nil_r | constructor]|].
  intros q Hq. cbn. apply lookup_delete_ne. intros ->. now apply Hq.
Qed.
End Confined.

Create HintDb confined.
#[local] Hint Resolve confined_ret confined_throw confined_return confined_diverge
  confined_observe confined_fs_stat_size confined_fs_stat_size_or_null confined_validate
  confined_emit confined_request confined_fs_writeFile confined_fs_unlink : confined.
#[local] Hint Extern 1 (anyEvent _) => exact I : confined.
#[local] Hint Extern 1 (notPageEvent _) => split; discriminate : confined.

(** Proves [confined] of a statement built from the primitives, splitting
    on the values it branches on. *)
Ltac confine :=
  repeat first
    [ progress intros
    | solve [eauto with confined]
    | apply confined_bind
    | apply confined_try_catch
    | apply confined_try_finally
    | apply confined_call
    | match goal with
      | |- confined _ _ (match ?x with _ => _ end) => destruct x
      | |- confined _ _ (if ?b then _ else _) => destruct b
      end ].

Section ConfinedFunctions.
Context (E : Event -> Prop) (P : string -> Prop) (env : Env).

Section Requests.
Hypothesis E_get : forall url, E (HttpGet url).

Lemma confined_downloadFileDirect (url out : string) (follow : bool) (n : nat) :
  P out -> confined E P (downloadFileDirect env url out follow n).
Proof.
  intros Hout. revert url follow.
  induction n as [|n IH]; intros url follow; cbn [downloadFileDirect]; [confine|].
  apply confined_bind; [confine|]. intros [response|]; [|confine].
  destruct (follow && isRedirect response); [|confine].
  destruct (redirectTarget env response url); [apply IH | confine].
Qed.

Lemma confined_fetchResponse (fuel : nat) (url : string) :
  confined E P (fetchResponse env fuel url).
Proof.
  revert url. induction fuel as [|fuel IH]; intros url; cbn [fetchResponse]; [confine|].
  apply confined_bind; [confine|]. intros [response|]; [|confine].
  destruct (isRedirect response); [|confine].
  destruct (redirectTarget env response url); [apply IH | confine].
Qed.

Lemma confined_attemptDirect (url out : string) (isVideo : bool) :
  P out -> confined E P (attemptDirect env url out isVideo).
Proof.
  intros Hout. unfold attemptDirect.
  apply confined_bind; [now apply confined_downloadFileDirect | confine].
Qed.

Lemma confined_attemptUnchecked (url out : string) (follow : bool) (threshold : nat) :
  P out -> confined E P (attemptUnchecked env url out follow threshold).
Proof.
  intros Hout. unfold attemptUnchecked.
  apply confined_bind; [now apply confined_downloadFileDirect | confine].
Qed.

Lemma confined_handleMarkup (response : Response) (fileId out : string) (isVideo : bool) :
  P out -> confined E P (handleMarkup env response fileId out isVideo).
Proof.
  intros Hout. unfold handleMarkup.
  pose proof (fun url => confined_attemptDirect url out isVideo Hout) as Ha.
  confine.
Qed.

Lemma confined_downloadGoogleDriveFile (fuel : nat) (fileId out : string)
    (isVideo : bool) :
  P out -> confined E P (downloadGoogleDriveFile env fuel fileId out isVideo).
Proof.
  intros Hout. unfold downloadGoogleDriveFile.
  pose proof (fun url => confined_attemptDirect url out isVideo Hout) as Ha.
  pose proof (fun response => confined_handleMarkup response fileId out isVideo Hout) as Hm.
  pose proof (confined_fetchResponse fuel) as Hf.
  confine.
Qed.
End Requests.
End ConfinedFunctions.


Section ConfinedBrowser.
Context (E : Event -> Prop) (P : string -> Prop) (env : Env).
Hypothesis E_other : forall e, notPageEvent e -> E e.

#[local] Hint Resolve E_other : confined.

Lemma confined_navigate (url : string) : confined E P (navigate env url).
Proof. unfold navigate. confine. Qed.

Lemma confined_goto (url : string) : confined E P (goto env url).
Proof. unfold goto. confine. Qed.

Lemma confined_responseBody (b : option buffer) : confined E P (responseBody b).
Proof. unfold responseBody. confine. Qed.

Lemma confined_query (selector : string) : confined E P (query env selector).
Proof. unfold query. confine. Qed.

Lemma confined_click : confined E P (click env).
Proof. unfold click. confine. Qed.

Lemma confined_saveAs (d : Download) (out : string) : P out -> confined E P (saveAs d out).
Proof. intros Hout. unfold saveAs. confine. Qed.

#[local] Hint Resolve confined_navigate confined_goto confined_responseBody confined_query
  confined_click confined_saveAs : confined.

Lemma confined_clickAndWait (timeout : N) : confined E P (clickAndWait env timeout).
Proof. unfold clickAndWait. confine. Qed.

#[local] Hint Resolve confined_clickAndWait : confined.

Lemma confined_clickSelectors (timeout : N) (selectors : list string) :
  confined E P (clickSelectors env timeout selectors).
Proof.
  induction selectors as [|sel rest IH]; cbn [clickSelectors]; [confine|].
  apply confined_bind; [confine|]. intros [d|]; [confine | exact IH].
Qed.

Lemma confined_submitForm (timeout : N) : confined E P (submitForm env timeout).
Proof. unfold submitForm. confine. Qed.

Lemma confined_saveDownload (d : Download) (out : string) (isVideo : bool) :
  P out -> confined E P (saveDownload d out isVideo).
Proof. intros Hout. unfold saveDownload. confine. Qed.

Lemma confined_fetchVideoPage (pageUrl out : string) (isVideo : bool) :
  P out -> confined E P (fetchVideoPage env pageUrl out isVideo).
Proof. intros Hout. unfold fetchVideoPage. confine. Qed.
End ConfinedBrowser.

#[local] Hint Resolve confined_navigate confined_goto confined_responseBody confined_query
  confined_click confined_saveAs confined_clickAndWait confined_clickSelectors
  confined_submitForm confined_saveDownload confined_fetchVideoPage
  confined_downloadFileDirect confined_fetchResponse confined_attemptDirect
  confined_attemptUnchecked confined_handleMarkup confined_downloadGoogleDriveFile : confined.
#[local] Hint Extern 5 =>
  match goal with
  | |- forall e, notPageEvent e -> _ => intros ? ?; first [assumption | exact I]
  | |- forall url, _ (HttpGet url) =>
      intros ?; first [exact I | split; discriminate]
  end : confined.
#[local] Hint Extern 1 (anyPath _) => exact I : confined.
#[local] Hint Extern 1 (@eq string _ _) => reflexivity : confined.

Lemma confined_newPage (P : string -> Prop) (env : Env) : confined anyEvent P (newPage env).
Proof. unfold newPage. confine. Qed.

#[local] Hint Resolve confined_newPage : confined.

Lemma confined_browserDownload (env : Env) (fileId out : string) (isVideo : bool) :
  confined anyEvent (eq out) (browserDownload env fileId out isVideo).
Proof. unfold browserDownload. confine. Qed.

Lemma confined_browserFetch (env : Env) (url out : string) (isVideo : bool) :
  confined anyEvent (eq out) (browserFetch env url out isVideo).
Proof. unfold browserFetch. confine. Qed.

Lemma confined_browserDownloadImage (env : Env) (fileId out : string) :
  confined anyEvent (eq out) (browserDownloadImage env fileId out).
Proof. unfold browserDownloadImage. confine. Qed.

Lemma confined_downloadFile (env : Env) (fuel : nat) (url out : string) (isVideo : bool) :
  confined anyEvent (eq out) (downloadFile env fuel url out isVideo).
Proof.
  unfold downloadFile.
  pose proof (confined_browserDownload env) as Hb.
  pose proof (confined_browserFetch env) as Hf.
  confine.
Qed.

Lemma confined_downloadImage (env : Env) (url out : string) :
  confined anyEvent (eq out) (downloadImage env url out).
Proof.
  unfold downloadImage.
  pose proof (confined_browserDownloadImage env) as Hb.
  confine.
Qed.

(** X12: whatever the network and the browser do, [downloadFile],
    [downloadVideo] and [downloadImage] create, change or delete no file
    other than the output path, and add to the history of requests
    without rewriting it. *)
Theorem downloads_touch_output_only (env : Env) (fuel : nat) (url out : string)
    (isVideo : bool) (w : World) :
  Forall (fun w' : World =>
            (forall p, p <> out -> files w' !! p = files w !! p) /\
            exists evs, trace w' = trace w ++ evs)
    [ (downloadFile env fuel url out isVideo w).2;
      (downloadVideo env fuel url out w).2;
      (downloadImage env url out w).2 ].
Proof.
  assert (H : forall w', effects anyEvent (eq out) w w' ->
            (forall p, p <> out -> files w' !! p = files w !! p) /\
            exists evs, trace w' = trace w ++ evs).
  { intros w' [(evs & T & _) Hf]. split; [|eauto].
    intros p Hp. apply Hf. congruence. }
  constructor; [|constructor; [|constructor; [|constructor]]]; apply H.
  - exact (confined_downloadFile env fuel url out isVideo w).
  - exact (confined_downloadFile env fuel url out true w).
  - exact (confined_downloadImage env url out w).
Qed.


(** ** How the fetch functions complete *)

Lemma completes_ret {A : Type} (a : A) : completes (mret a : M A).
Proof. intros w. discriminate. Qed.

Lemma completes_throw {A : Type} : completes (throw : M A).
Proof. intros w. discriminate. Qed.

Lemma completes_return {A : Type} (r : option string) : completes (return_ r : M A).
Proof. intros w. discriminate. Qed.

Lemma completes_emit (e : Event) : completes (emit e).
Proof. intros w. discriminate. Qed.

Lemma completes_observe {A : Type} (f : list Event -> A) : completes (observe f).
Proof. intros w. discriminate. Qed.

Lemma completes_fs_writeFile (p : string) (b : buffer) : completes (fs_writeFile p b).
Proof. intros w. discriminate. Qed.

Lemma completes_fs_unlink (p : string) : completes (fs_unlink p).
Proof. intros w. discriminate. Qed.

Lemma completes_fs_stat_size (p : string) : completes (fs_stat_size p).
Proof. intros w. unfold fs_stat_size. destruct (files w !! p); discriminate. Qed.

Lemma completes_fs_stat_size_or_null (p : string) : completes (fs_stat_size_or_null p).
Proof. intros w. discriminate. Qed.

Lemma completes_validate (p kind : string) : completes (validate p kind).
Proof. intros w. discriminate. Qed.

Lemma completes_request (env : Env) (url : string) : completes (request env url).
Proof. intros w. discriminate. Qed.

Lemma completes_bind {A B : Type} (m : M A) (f : A -> M B) :
  completes m -> (forall a, completes (f a)) -> completes (m ≫= f).
Proof.
  intros Hm Hf w. unfold mbind, M_bind. specialize (Hm w).
  destruct (m w) as [[a|r|  |] w']; cbn [fst] in *; try discriminate; [apply Hf | congruence].
Qed.

Lemma completes_try_catch {A : Type} (m h : M A) :
  completes m -> completes h -> completes (try_catch m h).
Proof.
  intros Hm Hh w. unfold try_catch. specialize (Hm w).
  destruct (m w) as [[a|r|  |] w']; cbn [fst] in *; try discriminate; [apply Hh | congruence].
Qed.

Lemma completes_try_finally {A : Type} (m : M A) (cleanup : M unit) :
  completes m -> completes cleanup -> completes (try_finally m cleanup).
Proof.
  intros Hm Hc w. unfold try_finally. specialize (Hm w).
  destruct (m w) as [[a|r|  |] w']; cbn [fst] in *; try congruence;
    specialize (Hc w'); destruct (cleanup w') as [[[]|r'|  |] w'']; cbn [fst] in *;
    congruence.
Qed.

Lemma completes_call (m : M unit) : completes m -> completes (call m).
Proof.
  intros Hm w. unfold call. specialize (Hm w).
  destruct (m w) as [[a|r|  |] w']; cbn [fst] in *; congruence.
Qed.

Create HintDb completes.
#[local] Hint Resolve completes_ret completes_throw completes_return completes_emit
  completes_observe completes_fs_writeFile completes_fs_unlink completes_fs_stat_size
  completes_fs_stat_size_or_null completes_validate completes_request : completes.

(** Proves [completes] of a statement built from the primitives. *)
Ltac completing :=
  repeat first
    [ progress intros
    | solve [auto with completes]
    | apply completes_bind
    | apply completes_try_catch
    | apply completes_try_finally
    | apply completes_call
    | match goal with
      | |- completes (match ?x with _ => _ end) => destruct x
      | |- completes (if ?b then _ else _) => destruct b
      end ].

Lemma completes_newPage (env : Env) : completes (newPage env).
Proof. unfold newPage. completing. Qed.

Lemma completes_navigate (env : Env) (url : string) : completes (navigate env url).
Proof. unfold navigate. completing. Qed.

Lemma completes_goto (env : Env) (url : string) : completes (goto env url).
Proof. unfold goto. completing. Qed.

Lemma completes_responseBody (b : option buffer) : completes (responseBody b).
Proof. unfold responseBody. completing. Qed.

Lemma completes_query (env : Env) (sel : string) : completes (query env sel).
Proof. unfold query. completing. Qed.

Lemma completes_click (env : Env) : completes (click env).
Proof. unfold click. completing. Qed.

Lemma completes_saveAs (d : Download) (p : string) : completes (saveAs d p).
Proof. unfold saveAs. completing. Qed.

#[local] Hint Resolve completes_newPage completes_navigate completes_goto
  completes_responseBody completes_query completes_click completes_saveAs : completes.

Lemma completes_clickAndWait (env : Env) (t : N) : completes (clickAndWait env t).
Proof. unfold clickAndWait. completing. Qed.

#[local] Hint Resolve completes_clickAndWait : completes.

Lemma completes_clickSelectors (env : Env) (t : N) (selectors : list string) :
  completes (clickSelectors env t selectors).
Proof.
  induction selectors as [|sel rest IH]; cbn [clickSelectors]; [completing|].
  apply completes_bind; [completing|]. intros [d|]; [completing | exact IH].
Qed.

Lemma completes_submitForm (env : Env) (t : N) : completes (submitForm env t).
Proof. unfold submitForm. completing. Qed.

Lemma completes_saveDownload (d : Download) (out : string) (isVideo : bool) :
  completes (saveDownload d out isVideo).
Proof. unfold saveDownload. completing. Qed.

Lemma completes_fetchVideoPage (env : Env) (pageUrl out : string) (isVideo : bool) :
  completes (fetchVideoPage env pageUrl out isVideo).
Proof. unfold fetchVideoPage. completing. Qed.

#[local] Hint Resolve completes_clickSelectors completes_submitForm completes_saveDownload
  completes_fetchVideoPage : completes.

Lemma completes_browserDownload (env : Env) (fileId out : string) (isVideo : bool) :
  completes (browserDownload env fileId out isVideo).
Proof. unfold browserDownload. completing. Qed.

Lemma completes_browserFetch (env : Env) (url out : string) (isVideo : bool) :
  completes (browserFetch env url out isVideo).
Proof. unfold browserFetch. completing. Qed.

Lemma completes_browserDownloadImage (env : Env) (fileId out : string) :
  completes (browserDownloadImage env fileId out).
Proof. unfold browserDownloadImage. completing. Qed.

#[local] Hint Resolve completes_browserDownload completes_browserFetch
  completes_browserDownloadImage : completes.

(** Direct downloads settle when every redirect can be followed and no
    body stalls. *)
Section Settles.
Context (env : Env).
Hypothesis Hresolve : redirectsResolve env.
Hypothesis Hstall : noStall env.

(** The hop limit makes a direct download finite. *)
Lemma completes_downloadFileDirect (url out : string) (follow : bool) (n : nat) :
  completes (downloadFileDirect env url out follow n).
Proof.
  revert url follow. induction n as [|n IH]; intros url follow w; cbn [downloadFileDirect].
  - discriminate.
  - unfold mbind, M_bind, request. cbn [fst snd].
    destruct (http_get env (trace w) url) as [response|] eqn:Hget; [|discriminate].
    destruct (follow && isRedirect response) eqn:Hredirect.
    + apply andb_prop in Hredirect as [_ Hredirect].
      pose proof (Hresolve _ _ _ Hget Hredirect) as Htarget.
      destruct (redirectTarget env response url); [apply IH | congruence].
    + destruct (negb (statusCode response =? 200)); [discriminate|].
      unfold observe. cbn [fst snd].
      destruct (transfer env _) eqn:Htransfer; cbn [fst snd].
      * destruct (stream_finishes env _); discriminate.
      * discriminate.
      * now apply Hstall in Htransfer.
Qed.

#[local] Hint Resolve completes_downloadFileDirect : completes.

Lemma completes_attemptUnchecked (url out : string) (follow : bool) (n : nat) :
  completes (attemptUnchecked env url out follow n).
Proof. unfold attemptUnchecked. completing. Qed.

#[local] Hint Resolve completes_attemptUnchecked : completes.

Lemma completes_downloadImage (url out : string) :
  completes (downloadImage env url out).
Proof. unfold downloadImage. completing. Qed.

Lemma completes_downloadFile_plain (fuel : nat) (url out : string) (isVideo : bool) :
  extractGoogleDriveId url = None -> completes (downloadFile env fuel url out isVideo).
Proof. intros Hplain. unfold downloadFile. rewrite Hplain. completing. Qed.
End Settles.

Lemma noThrow_return {A : Type} (r : option string) : noThrow (return_ r : M A).
Proof. intros w. discriminate. Qed.

Lemma noThrow_ret {A : Type} (a : A) : noThrow (mret a : M A).
Proof. intros w. discriminate. Qed.

Lemma noThrow_bind {A B : Type} (m : M A) (f : A -> M B) :
  noThrow m -> (forall a, noThrow (f a)) -> noThrow (m ≫= f).
Proof.
  intros Hm Hf w. unfold mbind, M_bind. specialize (Hm w).
  destruct (m w) as [[a|r|  |] w']; cbn [fst] in *; try discriminate; [apply Hf | congruence].
Qed.

(** A handler that does not throw makes the whole statement safe, whatever
    the block it guards does. *)
Lemma noThrow_try_catch {A : Type} (m h : M A) : noThrow h -> noThrow (try_catch m h).
Proof.
  intros Hh w. unfold try_catch.
  destruct (m w) as [[a|r|  |] w']; cbn [fst] in *; try discriminate. apply Hh.
Qed.

Lemma noThrow_call (m : M unit) : noThrow m -> noThrow (call m).
Proof.
  intros Hm w. unfold call. specialize (Hm w).
  destruct (m w) as [[a|r|  |] w']; cbn [fst] in *; congruence.
Qed.

Lemma noThrow_downloadGoogleDriveFile (env : Env) (fuel : nat) (fileId out : string)
    (isVideo : bool) :
  noThrow (downloadGoogleDriveFile env fuel fileId out isVideo).
Proof.
  unfold downloadGoogleDriveFile. apply noThrow_call, noThrow_bind.
  - apply noThrow_try_catch, noThrow_ret.
  - intros _. apply noThrow_return.
Qed.

Lemma noThrow_downloadFile (env : Env) (fuel : nat) (url out : string) (isVideo : bool) :
  noThrow (downloadFile env fuel url out isVideo).
Proof.
  unfold downloadFile. apply noThrow_call.
  destruct (_ || _); [apply noThrow_return|]. apply noThrow_bind.
  - apply noThrow_try_catch, noThrow_return.
  - intros _. apply noThrow_return.
Qed.

Lemma noThrow_downloadImage (env : Env) (url out : string) :
  noThrow (downloadImage env url out).
Proof.
  unfold downloadImage. apply noThrow_call.
  destruct (_ || _); [apply noThrow_return|]. apply noThrow_bind.
  - apply noThrow_try_catch, noThrow_return.
  - intros _. apply noThrow_return.
Qed.

(** A call never ends in a [return]: it ends normally with a value,
    throws or diverges. *)
Lemma call_normal (m : M unit) (w : World) :
  (call m w).1 <> Throw -> (call m w).1 <> Diverge -> exists r, (call m w).1 = Normal r.
Proof.
  unfold call. destruct (m w) as [[a|r|  |] w']; cbn [fst]; intros; eauto; congruence.
Qed.

(** ** downloadImage: what a returned path stands for *)

(** Lines 535-538: the file is only measured. *)
Lemma sizeOnly_fetched (out : string) (threshold : nat) :
  returnsOnly (fetchedFile out false)
    (size ← fs_stat_size out;
     if threshold <? size then return_ (Some out) else mret tt).
Proof.
  run_leaf. split; [reflexivity|]. eexists. repeat split; eauto; [|discriminate].
  match goal with H : (_ <? _) = true |- _ => apply Nat.ltb_lt in H; lia end.
Qed.

(** Lines 634-641. *)
Lemma saveAndMeasure_fetched (d : Download) (out : string) :
  returnsOnly (fetchedFile out false)
    (saveAs d out;;
     stats ← fs_stat_size_or_null out;
     match stats with
     | Some size => if 0 <? size then return_ (Some out) else mret tt
     | None => mret tt
     end).
Proof.
  run_leaf. split; [reflexivity|].
  eexists. repeat split; eauto; [apply lookup_insert_eq| |discriminate].
  now apply Nat.ltb_lt.
Qed.

(** Lines 663-668. *)
Lemma writeAndMeasure_fetched (out : string) (buffer_ : buffer) :
  returnsOnly (fetchedFile out false)
    (fs_writeFile out buffer_;;
     size ← fs_stat_size out;
     if 0 <? size then return_ (Some out) else mret tt).
Proof.
  run_leaf. split; [reflexivity|].
  eexists. repeat split; eauto; [apply lookup_insert_eq| |discriminate].
  now apply Nat.ltb_lt.
Qed.

(** Lines 696-699. *)
Lemma writeAndReturn_fetched (out : string) (buffer_ : buffer) :
  (0 <? length buffer_) = true ->
  returnsOnly (fetchedFile out false)
    (fs_writeFile out buffer_;; return_ (Some out) : M unit).
Proof.
  intros Hlen. run_leaf. split; [reflexivity|].
  eexists. repeat split; eauto; [apply lookup_insert_eq| |discriminate].
  now apply Nat.ltb_lt.
Qed.

#[local] Hint Resolve sizeOnly_fetched saveAndMeasure_fetched writeAndMeasure_fetched
  writeAndReturn_fetched : returnsonly.

Lemma attemptUnchecked_fetched (env : Env) (url out : string) (follow : bool)
    (threshold : nat) :
  returnsOnly (fetchedFile out false) (attemptUnchecked env url out follow threshold).
Proof. unfold attemptUnchecked. returns_only. Qed.

#[local] Hint Resolve attemptUnchecked_fetched : returnsonly.

Lemma browserDownloadImage_fetched (env : Env) (fileId out : string) :
  returnsOnly (fetchedFile out false) (browserDownloadImage env fileId out).
Proof.
  unfold browserDownloadImage.
  apply returnsOnly_bind; [returns_only|]. intros _.
  apply returnsOnly_try_finally_close; [intros; now apply fetchedFile_stable|].
  returns_only.
Qed.

#[local] Hint Resolve browserDownloadImage_fetched : returnsonly.

Lemma downloadImage_body (env : Env) (url out : string) :
  exists body_ : M unit,
    downloadImage env url out = call body_ /\ returnsOnly (fetchedFile out false) body_.
Proof.
  eexists. split; [reflexivity|].
  destruct (negb (JsString.truthy url) || String.eqb (JsString.trim url) "");
    [returns_only|].
  apply returnsOnly_bind; [|returns_only]. apply returnsOnly_try_catch; [|returns_only].
  destruct (extractGoogleDriveId url) as [fileId|]; [returns_only|].
  apply returnsOnly_try_catch; [returns_only|].
  apply returnsOnly_bind; [returns_only|]. intros _.
  apply returnsOnly_try_finally_close; [intros; now apply fetchedFile_stable|].
  returns_only.
Qed.

(** X13: a path returned by [downloadImage] is the output path, where a
    file that is not empty now is. *)
Theorem downloadImage_stored (env : Env) (url out : string) (w w' : World) (p : string) :
  downloadImage env url out w = (Normal (Some p), w') ->
  p = out /\ exists buf, files w' !! out = Some buf /\ 0 < length buf.
Proof.
  destruct (downloadImage_body env url out) as (m & -> & Hm).
  intros H. apply call_returned in H as [Hret <-].
  destruct (Hm w p Hret) as (-> & buf & Hf & Hlen & _). eauto.
Qed.

Lemma downloadImage_stored_witness :
  let r := downloadImage tinyClipHost "https://other-host.example/clip.mp4" "out.png"
             emptyWorld in
  exists buf, files r.2 !! "out.png" = Some buf /\ 0 < length buf.
Proof.
  cbv zeta.
  refine (proj2 (downloadImage_stored tinyClipHost "https://other-host.example/clip.mp4"
                   "out.png" emptyWorld _ "out.png" _)).
  vm_compute. reflexivity.
Defined.

(** What a call that ended gave: null or the path it returned. *)
Lemma call_result (m : M unit) (out : string) (w : World) (r : option string) :
  returnsOnly (fun p _ => p = out) m ->
  (call m w).1 = Normal r -> r = None \/ r = Some out.
Proof.
  intros Hm Hr. destruct r as [p|]; [right | now left].
  assert (Hcall : call m w = (Normal (Some p), (call m w).2))
    by (rewrite <- Hr; now destruct (call m w)).
  apply call_returned in Hcall as [Hret _].
  now rewrite (Hm w p Hret).
Qed.




(** ** Pages are closed *)

Lemma opened_app (a b : list Event) : opened (a ++ b) = opened a + opened b.
Proof. unfold opened. now rewrite List.filter_app, length_app. Qed.

Lemma closed_app (a b : list Event) : closed (a ++ b) = closed a + closed b.
Proof. unfold closed. now rewrite List.filter_app, length_app. Qed.

Lemma notPageEvent_counts (evs : list Event) :
  Forall notPageEvent evs -> opened evs = 0 /\ closed evs = 0.
Proof.
  induction 1 as [|e evs [H1 H2] _ [IH1 IH2]]; [split; reflexivity|].
  unfold opened, closed in *. cbn [List.filter].
  destruct e; cbn [isNewPage isClosePage]; try congruence; auto.
Qed.

Lemma pagesBalanced_refl (w : World) : pagesBalanced w w.
Proof. exists []. split; [now rewrite app_nil_r | reflexivity]. Qed.

Lemma pagesBalanced_trans (w1 w2 w3 : World) :
  pagesBalanced w1 w2 -> pagesBalanced w2 w3 -> pagesBalanced w1 w3.
Proof.
  intros (e1 & T1 & B1) (e2 & T2 & B2). exists (e1 ++ e2).
  split; [now rewrite T2, T1, app_assoc | rewrite opened_app, closed_app; lia].
Qed.

(** A statement that opens and closes no page keeps the balance. *)
Lemma confined_balanced {A : Type} (m : M A) :
  confined notPageEvent anyPath m -> steps pagesBalanced m.
Proof.
  intros H w. destruct (H w) as [(evs & T & F) _]. exists evs. split; [exact T|].
  destruct (notPageEvent_counts evs F) as [-> ->]. reflexivity.
Qed.

(** Lines 350-351 and 470-472: a page that was opened is closed in the
    [finally] block, however the [try] block ends. *)
Lemma page_block_balanced {A : Type} (env : Env) (body : M A) :
  (forall t, new_page_ok env t = true) ->
  completes body -> confined notPageEvent anyPath body ->
  steps pagesBalanced (newPage env;; try_finally body (emit ClosePage)).
Proof.
  intros Hok Hc Hb w. unfold newPage, observe, emit, mbind, M_bind. rewrite Hok.
  cbn [fst snd files trace mret M_ret]. unfold try_finally.
  set (w1 := {| files := files w; trace := trace w ++ [NewPage] |}).
  specialize (Hc w1). destruct (Hb w1) as [(evs & T & F) _].
  destruct (notPageEvent_counts evs F) as [Ho Hcl].
  exists ([NewPage] ++ evs ++ [ClosePage]).
  split.
  - destruct (body w1) as [[a|r|  |] w2]; cbn [fst snd trace] in *; try congruence;
      rewrite T; subst w1; cbn [trace]; now rewrite <- !app_assoc.
  - rewrite !opened_app, !closed_app, Ho, Hcl. reflexivity.
Qed.

(** Proves that a statement keeps the balance of pages, given that a new
    page can always be opened. *)
Ltac balancing Hok :=
  repeat first
    [ progress intros
    | solve [apply confined_balanced; confine]
    | apply page_block_balanced; [exact Hok | completing | confine]
    | apply (steps_bind pagesBalanced pagesBalanced_trans)
    | apply (steps_try_catch pagesBalanced pagesBalanced_trans)
    | apply (steps_call pagesBalanced)
    | match goal with
      | |- steps _ (match ?x with _ => _ end) => destruct x
      | |- steps _ (if ?b then _ else _) => destruct b
      end ].

(** X15: if a new page can always be opened, every page that
    [downloadFile] or [downloadImage] opens is closed again before the
    function completes, however the attempt in the page ends. *)
Theorem downloads_close_pages (env : Env) (fuel : nat) (url out : string) (isVideo : bool)
    (w : World) :
  (forall t, new_page_ok env t = true) ->
  (exists evs, trace (downloadFile env fuel url out isVideo w).2 = trace w ++ evs /\
               opened evs = closed evs) /\
  (exists evs, trace (downloadImage env url out w).2 = trace w ++ evs /\
               opened evs = closed evs).
Proof.
  intros Hok. split.
  - assert (H : steps pagesBalanced (downloadFile env fuel url out isVideo)); [|exact (H w)].
    unfold downloadFile, browserDownload, browserFetch. balancing Hok.
  - assert (H : steps pagesBalanced (downloadImage env url out)); [|exact (H w)].
    unfold downloadImage, browserDownloadImage. balancing Hok.
Qed.


Lemma downloads_close_pages_witness :
  exists evs,
    trace (downloadFile offline 3 "https://other-host.example/clip.mp4" "out.mp4" true
             emptyWorld).2 = trace emptyWorld ++ evs /\
    opened evs = closed evs.
Proof.
  apply (downloads_close_pages offline 3 "https://other-host.example/clip.mp4" "out.mp4" true
           emptyWorld).
  intros t. reflexivity.
Defined.


(** ** downloadFileDirect: requests and files *)


(** A body of 3000 bytes cut by the timeout after 2000: the download
    rejects and leaves the 2000 bytes. *)
Lemma downloadFileDirect_cut_short :
  let r := downloadFileDirect slowHost "https://slow-host.example/clip.mp4" "out.mp4" true 5
             emptyWorld in
  r.1 = Throw /\ trace r.2 = [HttpGet "https://slow-host.example/clip.mp4"] /\
  files r.2 !! "out.mp4" = Some (repeat x00 2000).
Proof. vm_compute. auto. Qed.


(** ** cleanTimelineEvent *)

Lemma skipSpaces_app (ws s : string) :
  Url.all_chars JsString.is_space ws = true -> skipSpaces (ws +:+ s) = skipSpaces s.
Proof.
  induction ws as [|c ws IH]; [reflexivity|]. cbn [Url.all_chars]. intros H.
  apply andb_prop in H as [Hc Hws]. rewrite append_String. cbn [skipSpaces].
  rewrite Hc. auto.
Qed.

Lemma skipPipes_app (p s : string) :
  Url.all_chars isPipe p = true -> skipPipes (p +:+ s) = skipPipes s.
Proof.
  induction p as [|c p IH]; [reflexivity|]. cbn [Url.all_chars]. intros H.
  apply andb_prop in H as [Hc Hp]. rewrite append_String. cbn [skipPipes].
  rewrite Hc. auto.
Qed.

Lemma isCoreChar_spec (c : ascii) :
  isCoreChar c = true -> JsString.is_space c = false /\ isPipe c = false.
Proof.
  unfold isCoreChar. intros H. apply andb_prop in H as [H1 H2].
  now apply negb_true_iff in H1, H2.
Qed.

Lemma is_space_not_pipe (c : ascii) : JsString.is_space c = true -> isPipe c = false.
Proof.
  destruct c as [[] [] [] [] [] [] [] []]; vm_compute; intros H;
    first [reflexivity | discriminate H].
Qed.

Lemma isPipe_not_space (c : ascii) : isPipe c = true -> JsString.is_space c = false.
Proof.
  intros H. destruct (JsString.is_space c) eqn:E; [|reflexivity].
  apply is_space_not_pipe in E. congruence.
Qed.

(** Spaces followed by a text that starts with a core character. *)
Lemma skipSpaces_core (ws : string) (a : ascii) (s : string) :
  Url.all_chars JsString.is_space ws = true -> isCoreChar a = true ->
  skipSpaces (ws +:+ String a s) = String a s.
Proof.
  intros Hws Ha. rewrite skipSpaces_app by exact Hws. cbn [skipSpaces].
  now destruct (isCoreChar_spec a Ha) as [-> _].
Qed.

Lemma skipPipes_spaces_core (ws : string) (a : ascii) (s : string) :
  Url.all_chars JsString.is_space ws = true -> isCoreChar a = true ->
  skipPipes (ws +:+ String a s) = ws +:+ String a s.
Proof.
  intros Hws Ha. destruct ws as [|c ws]; rewrite ?append_empty, ?append_String;
    cbn [skipPipes].
  - now destruct (isCoreChar_spec a Ha) as [_ ->].
  - cbn [Url.all_chars] in Hws. apply andb_prop in Hws as [Hc _].
    now rewrite (is_space_not_pipe c Hc).
Qed.

Lemma stripLeadingPipes_core (ws1 p1 ws2 : string) (a : ascii) (s : string) :
  Url.all_chars JsString.is_space ws1 = true -> Url.all_chars isPipe p1 = true ->
  Url.all_chars JsString.is_space ws2 = true -> isCoreChar a = true ->
  exists ws, Url.all_chars JsString.is_space ws = true /\
    stripLeadingPipes (ws1 +:+ p1 +:+ ws2 +:+ String a s) = ws +:+ String a s.
Proof.
  intros H1 Hp H2 Ha. unfold stripLeadingPipes, afterPipes.
  rewrite skipSpaces_app by exact H1.
  destruct p1 as [|c p1].
  - rewrite append_empty, skipSpaces_core by assumption.
    destruct (isCoreChar_spec a Ha) as [_ ->]. cbn [default].
    exists (ws1 +:+ ws2). split; [now rewrite all_chars_app, H1, H2|].
    clear. induction ws1 as [|c ws1 IH]; [reflexivity|].
    rewrite !append_String. now rewrite IH.
  - cbn [Url.all_chars] in Hp. apply andb_prop in Hp as [Hc Hp].
    rewrite append_String. cbn [skipSpaces]. rewrite (isPipe_not_space c Hc), Hc.
    rewrite skipPipes_app by exact Hp.
    rewrite skipPipes_spaces_core, skipSpaces_core by assumption.
    exists "". split; reflexivity.
Qed.

Lemma skipSpaces_blankOrPipe (s : string) :
  Url.all_chars blankOrPipe (skipSpaces s) = true -> Url.all_chars blankOrPipe s = true.
Proof.
  induction s as [|c s IH]; [reflexivity|]. cbn [skipSpaces].
  destruct (JsString.is_space c) eqn:Hc; [|tauto].
  intros H. cbn [Url.all_chars]. unfold blankOrPipe at 1. rewrite Hc. auto.
Qed.

Lemma skipPipes_blankOrPipe (s : string) :
  Url.all_chars blankOrPipe (skipPipes s) = true -> Url.all_chars blankOrPipe s = true.
Proof.
  induction s as [|c s IH]; [reflexivity|]. cbn [skipPipes].
  destruct (isPipe c) eqn:Hc; [|tauto].
  intros H. cbn [Url.all_chars]. unfold blankOrPipe at 1. rewrite Hc, orb_true_r. auto.
Qed.

(** A match that reaches the end has only white space and bars in it. *)
Lemma afterPipes_end (s : string) :
  afterPipes s = Some "" -> Url.all_chars blankOrPipe s = true.
Proof.
  unfold afterPipes. intros H. apply skipSpaces_blankOrPipe.
  destruct (skipSpaces s) as [|c rest]; [discriminate|].
  destruct (isPipe c) eqn:Hc; [|discriminate]. injection H as H.
  cbn [Url.all_chars]. unfold blankOrPipe at 1. rewrite Hc, orb_true_r.
  apply skipPipes_blankOrPipe, skipSpaces_blankOrPipe. now rewrite H.
Qed.

Lemma core_not_blankOrPipe (x : string) (z : ascii) (rest : string) :
  isCoreChar z = true -> Url.all_chars blankOrPipe (x +:+ String z rest) = false.
Proof.
  intros Hz. rewrite all_chars_app. cbn [Url.all_chars]. unfold blankOrPipe at 2.
  destruct (isCoreChar_spec z Hz) as [-> ->]. cbn. apply andb_false_r.
Qed.

(** Nothing is removed up to the last core character. *)
Lemma stripTrailingPipes_core (x : string) (z : ascii) (rest : string) :
  isCoreChar z = true ->
  stripTrailingPipes (x +:+ String z rest) = x +:+ String z (stripTrailingPipes rest).
Proof.
  intros Hz.
  assert (Hno : forall y, afterPipes (y +:+ String z rest) <> Some "").
  { intros y H. apply afterPipes_end in H. now rewrite core_not_blankOrPipe in H. }
  induction x as [|c x IH].
  - rewrite append_empty. cbn [stripTrailingPipes]. specialize (Hno "").
    rewrite append_empty in Hno.
    destruct (afterPipes (String z rest)) as [[|]|]; [congruence|reflexivity..].
  - rewrite !append_String. cbn [stripTrailingPipes]. specialize (Hno (String c x)).
    rewrite append_String in Hno. rewrite IH.
    destruct (afterPipes (String c (x +:+ String z rest))) as [[|]|];
      [congruence|reflexivity..].
Qed.

Lemma append_associative (a b c : string) : (a +:+ b) +:+ c = a +:+ b +:+ c.
Proof. induction a as [|x a IH]; [reflexivity|]. rewrite !append_String. now rewrite IH. Qed.

Lemma skipSpaces_blank (ws : string) :
  Url.all_chars JsString.is_space ws = true -> skipSpaces ws = "".
Proof.
  intros H. rewrite <- (append_empty_r ws). now rewrite skipSpaces_app.
Qed.

Lemma stripTrailingPipes_blank (ws : string) :
  Url.all_chars JsString.is_space ws = true -> stripTrailingPipes ws = ws.
Proof.
  induction ws as [|c ws IH]; [reflexivity|]. intros H.
  cbn [stripTrailingPipes]. unfold afterPipes. rewrite (skipSpaces_blank _ H).
  cbn [Url.all_chars] in H. apply andb_prop in H as [_ H]. now rewrite IH.
Qed.

Lemma stripTrailingPipes_tail (ws3 p2 ws4 : string) :
  Url.all_chars JsString.is_space ws3 = true -> Url.all_chars isPipe p2 = true ->
  Url.all_chars JsString.is_space ws4 = true ->
  Url.all_chars JsString.is_space (stripTrailingPipes (ws3 +:+ p2 +:+ ws4)) = true.
Proof.
  intros H3 Hp H4. destruct p2 as [|c p2].
  - rewrite append_empty, stripTrailingPipes_blank; now rewrite all_chars_app, H3, H4.
  - cbn [Url.all_chars] in Hp. apply andb_prop in Hp as [Hc Hp].
    assert (E : afterPipes (ws3 +:+ String c p2 +:+ ws4) = Some "").
    { unfold afterPipes. rewrite skipSpaces_app by exact H3. rewrite append_String.
      cbn [skipSpaces]. rewrite (isPipe_not_space c Hc), Hc.
      rewrite skipPipes_app by exact Hp. f_equal.
      destruct ws4 as [|d ws4]; [reflexivity|].
      cbn [Url.all_chars] in H4. pose proof H4 as H4'. apply andb_prop in H4 as [Hd _].
      cbn [skipPipes]. rewrite (is_space_not_pipe d Hd). now apply skipSpaces_blank. }
    destruct (ws3 +:+ String c p2 +:+ ws4) as [|d s] eqn:Es; [reflexivity|].
    cbn [stripTrailingPipes]. rewrite E. reflexivity.
Qed.

Lemma trimStart_app (ws s : string) :
  Url.all_chars JsString.is_space ws = true ->
  JsString.trimStart (ws +:+ s) = JsString.trimStart s.
Proof.
  induction ws as [|c ws IH]; [reflexivity|]. cbn [Url.all_chars]. intros H.
  apply andb_prop in H as [Hc Hws]. rewrite append_String. cbn [JsString.trimStart].
  rewrite Hc. auto.
Qed.

Lemma trimEnd_blank (ws : string) :
  Url.all_chars JsString.is_space ws = true -> JsString.trimEnd ws = "".
Proof.
  induction ws as [|c ws IH]; [reflexivity|]. cbn [Url.all_chars]. intros H.
  apply andb_prop in H as [Hc Hws]. cbn [JsString.trimEnd]. now rewrite IH, Hc.
Qed.

Lemma trimEnd_core (x : string) (z : ascii) (ws : string) :
  isCoreChar z = true -> Url.all_chars JsString.is_space ws = true ->
  JsString.trimEnd (x +:+ String z ws) = x +:+ String z "".
Proof.
  intros Hz Hws. destruct (isCoreChar_spec z Hz) as [Hs _].
  induction x as [|c x IH].
  - rewrite !append_empty. cbn [JsString.trimEnd]. now rewrite trimEnd_blank, Hs.
  - rewrite !append_String. cbn [JsString.trimEnd]. rewrite IH.
    destruct x; reflexivity.
Qed.

(** X17: bars around a timeline text, with the white space around them,
    are removed: when the text between them starts and ends with a
    character that is neither white space nor a bar, the result is that
    text, bars inside it included. *)
Theorem cleanTimelineEvent_core (ws1 p1 ws2 front ws3 p2 ws4 : string) (a z : ascii)
    (mid : string) :
  Url.all_chars JsString.is_space (ws1 +:+ ws2 +:+ ws3 +:+ ws4) = true ->
  Url.all_chars isPipe (p1 +:+ p2) = true ->
  isCoreChar a = true -> isCoreChar z = true ->
  String a mid = front +:+ String z "" ->
  cleanTimelineEvent
    (Some (ws1 +:+ p1 +:+ ws2 +:+ String a mid +:+ ws3 +:+ p2 +:+ ws4)) = String a mid.
Proof.
  rewrite !all_chars_app, !andb_true_iff.
  intros (H1 & H2 & H3 & H4) (Hp1 & Hp2) Ha Hz Hcore.
  unfold cleanTimelineEvent.
  assert (Htruthy : JsString.truthy
            (ws1 +:+ p1 +:+ ws2 +:+ String a mid +:+ ws3 +:+ p2 +:+ ws4) = true).
  { destruct ws1; [|reflexivity]. destruct p1; [|reflexivity]. now destruct ws2. }
  rewrite Htruthy. cbn [negb].
  change (ws1 +:+ p1 +:+ ws2 +:+ String a mid +:+ ws3 +:+ p2 +:+ ws4)
    with (ws1 +:+ p1 +:+ ws2 +:+ String a (mid +:+ ws3 +:+ p2 +:+ ws4)).
  destruct (stripLeadingPipes_core ws1 p1 ws2 a (mid +:+ ws3 +:+ p2 +:+ ws4) H1 Hp1 H2 Ha)
    as (ws & Hws & ->).
  change (String a (mid +:+ ws3 +:+ p2 +:+ ws4))
    with (String a mid +:+ ws3 +:+ p2 +:+ ws4).
  rewrite Hcore, append_associative, <- (append_associative ws front).
  change (String z "" +:+ ws3 +:+ p2 +:+ ws4) with (String z (ws3 +:+ p2 +:+ ws4)).
  rewrite stripTrailingPipes_core by exact Hz.
  pose proof (stripTrailingPipes_tail ws3 p2 ws4 H3 Hp2 H4) as Htail.
  unfold JsString.trim. rewrite append_associative.
  rewrite trimStart_app by exact Hws.
  assert (Hhead : forall t, exists rest, front +:+ String z t = String a rest).
  { intros t. destruct front as [|c front].
    - rewrite append_empty in *. injection Hcore as -> _. eauto.
    - rewrite append_String in *. injection Hcore as -> _. eauto. }
  destruct (Hhead (stripTrailingPipes (ws3 +:+ p2 +:+ ws4))) as [rest Hrest].
  assert (Hstart : JsString.trimStart
            (front +:+ String z (stripTrailingPipes (ws3 +:+ p2 +:+ ws4))) =
            front +:+ String z (stripTrailingPipes (ws3 +:+ p2 +:+ ws4))).
  { rewrite Hrest. cbn [JsString.trimStart]. now destruct (isCoreChar_spec a Ha) as [-> _]. }
  rewrite Hstart, trimEnd_core by assumption. reflexivity.
Qed.

Lemma cleanTimelineEvent_core_witness :
  cleanTimelineEvent (Some " | Kick-off | review  || ") = "Kick-off | review".
Proof.
  apply (cleanTimelineEvent_core " " "|" " " "Kick-off | revie" "  " "||" " " "K" "w"
           "ick-off | review"); reflexivity.
Defined.


(** ** The asset loop: one output path per slide *)

Lemma string_of_uint_split (d d' : Decimal.uint) (c c' : ascii) (e e' : string) :
  Url.is_digit c = false -> Url.is_digit c' = false ->
  NilEmpty.string_of_uint d +:+ String c e =
  NilEmpty.string_of_uint d' +:+ String c' e' ->
  d = d' /\ String c e = String c' e'.
Proof.
  intros Hc Hc'. revert d'.
  induction d as [|d IH|d IH|d IH|d IH|d IH|d IH|d IH|d IH|d IH|d IH]; intros d';
    destruct d'; cbn [NilEmpty.string_of_uint];
    rewrite ?append_String, ?append_empty;
    intros H;
    try (split; [reflexivity | exact H]);
    try (injection H as H1 H2; exfalso;
         first [ rewrite H1 in Hc; discriminate Hc | rewrite <- H1 in Hc'; discriminate Hc' ]);
    try discriminate H;
    try (injection H as H; destruct (IH _ H) as [-> E]; split; [reflexivity | exact E]).
Qed.

Lemma to_uint_nonnil (n : nat) : Nat.to_uint n <> Decimal.Nil.
Proof.
  rewrite <- (Unsigned.of_to n) at 1. rewrite Unsigned.to_of.
  apply DecimalFacts.unorm_nonnil.
Qed.

Lemma decimal_string (n : nat) :
  decimal n = NilEmpty.string_of_uint (Nat.to_uint n).
Proof.
  unfold decimal, NilZero.string_of_uint. pose proof (to_uint_nonnil n) as H.
  now destruct (Nat.to_uint n).
Qed.

Lemma decimal_split (i j : nat) (c c' : ascii) (e e' : string) :
  Url.is_digit c = false -> Url.is_digit c' = false ->
  decimal i +:+ String c e = decimal j +:+ String c' e' -> i = j.
Proof.
  intros Hc Hc' H. rewrite !decimal_string in H.
  apply string_of_uint_split in H as [H _]; [|assumption..].
  now apply Unsigned.to_uint_inj.
Qed.

Lemma append_inv_head (s a b : string) : s +:+ a = s +:+ b -> a = b.
Proof.
  induction s as [|c s IH]; [auto|]. rewrite !append_String. intros [= H]. auto.
Qed.

(** [path.extname] gives the empty string or an extension with its dot. *)
Lemma extname_dot (p : string) : extname p = "" \/ exists e, extname p = String "." e.
Proof.
  unfold extname. destruct (String.eqb _ ".."); [now left|].
  destruct (splitLast "." _) as [[[|b before] ext]|]; [now left | right | now left].
  exists ext. reflexivity.
Qed.

(** The extension of a media path starts with a dot. *)
Lemma mediaPathFor_shape (assetsDir : string) (i : nat) (url defaultExt e0 : string) :
  defaultExt = String "." e0 ->
  exists e, mediaPathFor assetsDir i url defaultExt =
            assetsDir +:+ "/module_" +:+ decimal i +:+ String "." e.
Proof.
  intros ->. unfold mediaPathFor.
  destruct (Url.parse url) as [u|]; [|eauto].
  destruct (extname_dot (Url.pathname u)) as [-> | [e ->]]; cbn [JsString.truthy]; eauto.
Qed.

Lemma mediaPathFor_index (assetsDir : string) (i j : nat) (url url' ext ext' : string) :
  In ext [".mp4"; ".png"] -> In ext' [".mp4"; ".png"] ->
  mediaPathFor assetsDir i url ext = mediaPathFor assetsDir j url' ext' -> i = j.
Proof.
  intros He He'.
  assert (Hdot : forall x, In x [".mp4"; ".png"] -> exists e0, x = String "." e0).
  { intros x [<-|[<-|[]]]; eauto. }
  destruct (Hdot _ He) as [e0 E0]. destruct (Hdot _ He') as [e0' E0'].
  destruct (mediaPathFor_shape assetsDir i url ext e0 E0) as [e ->].
  destruct (mediaPathFor_shape assetsDir j url' ext' e0' E0') as [e' ->].
  intros H. apply append_inv_head in H.
  rewrite !append_String, !append_empty in H. injection H as H.
  now apply decimal_split in H.
Qed.

(** X18: the files the asset loop writes for different slides never
    collide: the media files of two different slides have different
    paths, whatever the URLs they come from, and no media file has the
    path of a rendered diagram. *)
Theorem mediaPathFor_unique (assetsDir : string) (i j : nat) (url url' ext ext' : string) :
  In ext [".mp4"; ".png"] -> In ext' [".mp4"; ".png"] ->
  (i <> j -> mediaPathFor assetsDir i url ext <> mediaPathFor assetsDir j url' ext') /\
  mediaPathFor assetsDir i url ext <> assetsDir +:+ "/" +:+ "diagram_" +:+ decimal j +:+ ".png".
Proof.
  intros He He'. split.
  - intros Hij H. apply Hij. exact (mediaPathFor_index _ _ _ _ _ _ _ He He' H).
  - assert (Hdot : exists e0, ext = String "." e0)
      by (destruct He as [<-|[<-|[]]]; eauto).
    destruct Hdot as [e0 E0].
    destruct (mediaPathFor_shape assetsDir i url ext e0 E0) as [e ->].
    intros H. apply append_inv_head in H. discriminate H.
Qed.

Lemma mediaPathFor_unique_witness :
  mediaPathFor "assets" 3 "https://host.example/a/clip.webm" ".mp4" <>
  mediaPathFor "assets" 13 "https://host.example/a/clip.webm" ".mp4".
Proof.
  apply (mediaPathFor_unique "assets" 3 13 "https://host.example/a/clip.webm"
           "https://host.example/a/clip.webm" ".mp4" ".mp4");
    [now left | now left | lia].
Defined.


(** ** The asset loop: the priority rule *)

Lemma trimStart_head (s : string) :
  JsString.trimStart s = "" \/
  exists c t, JsString.trimStart s = String c t /\ JsString.is_space c = false.
Proof.
  induction s as [|c s IH]; [now left|]. cbn [JsString.trimStart].
  destruct (JsString.is_space c) eqn:Hc; [exact IH | right; eauto].
Qed.

Lemma trimEnd_head (c : ascii) (t : string) :
  JsString.is_space c = false -> exists t', JsString.trimEnd (String c t) = String c t'.
Proof.
  intros Hc. cbn [JsString.trimEnd]. rewrite Hc. destruct (JsString.trimEnd t); eauto.
Qed.

Lemma trimEnd_idem (s : string) : JsString.trimEnd (JsString.trimEnd s) = JsString.trimEnd s.
Proof.
  induction s as [|c s IH]; [reflexivity|]. cbn [JsString.trimEnd].
  destruct (JsString.trimEnd s) as [|d t] eqn:E.
  - destruct (JsString.is_space c) eqn:Hc; [reflexivity|].
    cbn [JsString.trimEnd]. now rewrite Hc.
  - cbn [JsString.trimEnd] in *. now rewrite IH.
Qed.

(** Trimming a trimmed text changes nothing. *)
Lemma trim_idem (s : string) : JsString.trim (JsString.trim s) = JsString.trim s.
Proof.
  unfold JsString.trim.
  destruct (trimStart_head s) as [-> | (c & t & -> & Hc)]; [reflexivity|].
  destruct (trimEnd_head c t Hc) as [t' E]. rewrite E. cbn [JsString.trimStart].
  rewrite Hc, <- E. apply trimEnd_idem.
Qed.

Lemma grows_refl (w : World) : grows w w.
Proof. exists []. now rewrite app_nil_r. Qed.

Lemma grows_trans (w1 w2 w3 : World) : grows w1 w2 -> grows w2 w3 -> grows w1 w3.
Proof. intros [e1 T1] [e2 T2]. exists (e1 ++ e2). now rewrite T2, T1, app_assoc. Qed.

Lemma beginsWith_grows (e : Event) (w1 w2 w3 : World) :
  beginsWith e w1 w2 -> grows w2 w3 -> beginsWith e w1 w3.
Proof.
  intros [e1 T1] [e2 T2]. exists (e1 ++ e2). rewrite T2, T1, <- app_assoc. reflexivity.
Qed.

Lemma confined_grows {A : Type} (E : Event -> Prop) (P : string -> Prop) (m : M A) :
  confined E P m -> steps grows m.
Proof. intros H w. destruct (H w) as [(evs & T & _) _]. now exists evs. Qed.

Lemma begins_bind {A B : Type} (e : Event) (m : M A) (f : A -> M B) :
  steps (beginsWith e) m -> (forall a, steps grows (f a)) -> steps (beginsWith e) (m ≫= f).
Proof.
  intros Hm Hf w. unfold mbind, M_bind. specialize (Hm w).
  destruct (m w) as [[a|r|  |] w']; cbn [snd] in *; try exact Hm.
  eapply beginsWith_grows; [exact Hm | apply Hf].
Qed.

Lemma begins_try_catch {A : Type} (e : Event) (m h : M A) :
  steps (beginsWith e) m -> steps grows h -> steps (beginsWith e) (try_catch m h).
Proof.
  intros Hm Hh w. unfold try_catch. specialize (Hm w).
  destruct (m w) as [[a|r|  |] w']; cbn [snd] in *; try exact Hm.
  eapply beginsWith_grows; [exact Hm | apply Hh].
Qed.

Lemma begins_call (e : Event) (m : M unit) :
  steps (beginsWith e) m -> steps (beginsWith e) (call m).
Proof.
  intros Hm w. unfold call. specialize (Hm w).
  destruct (m w) as [[a|r|  |] w']; exact Hm.
Qed.

(** A direct download that may make a request starts with the request
    for its URL. *)
Lemma downloadFileDirect_begins (env : Env) (url out : string) (follow : bool) (n : nat) :
  steps (beginsWith (HttpGet url)) (downloadFileDirect env url out follow (S n)).
Proof.
  intros w. destruct (downloadFileDirect_run env out (S n) url follow w) as (_ & evs & Ht & Hfirst).
  destruct Hfirst as [evs' ->]; [lia|]. now exists evs'.
Qed.

(** Proves that a statement only adds to the history. *)
Ltac growing out :=
  intros; apply (confined_grows anyEvent (eq out)); confine.

Lemma downloadGoogleDriveFile_begins (env : Env) (fuel : nat) (fileId out : string)
    (isVideo : bool) :
  steps (beginsWith (HttpGet (getGoogleDriveDownloadUrl fileId)))
    (downloadGoogleDriveFile env fuel fileId out isVideo).
Proof.
  unfold downloadGoogleDriveFile, attemptDirect. cbv zeta.
  apply begins_call. apply begins_bind; [|growing out].
  apply begins_try_catch; [|growing out].
  apply begins_bind; [|growing out].
  apply begins_try_catch; [|growing out].
  apply begins_bind; [apply downloadFileDirect_begins | growing out].
Qed.

Lemma downloadFile_begins (env : Env) (fuel : nat) (url out : string) (isVideo : bool) :
  JsString.trim url <> "" ->
  steps (beginsWith (HttpGet (firstRequest url))) (downloadFile env fuel url out isVideo).
Proof.
  intros Hurl. unfold downloadFile, firstRequest.
  assert (Htruthy : JsString.truthy url = true).
  { destruct url; [|reflexivity]. now destruct Hurl. }
  rewrite Htruthy, (eqb_empty_false _ Hurl). cbn [negb orb].
  pose proof (confined_browserDownload env) as Hb.
  pose proof (confined_browserFetch env) as Hf.
  apply begins_call. apply begins_bind; [|growing out].
  apply begins_try_catch; [|growing out].
  destruct (extractGoogleDriveId url) as [fileId|].
  - apply begins_bind; [apply downloadGoogleDriveFile_begins | growing out].
  - apply begins_try_catch; [|growing out].
    apply begins_bind; [apply downloadFileDirect_begins | growing out].
Qed.

Lemma downloadImage_begins (env : Env) (url out : string) :
  JsString.trim url <> "" ->
  steps (beginsWith (HttpGet (firstRequest url))) (downloadImage env url out).
Proof.
  intros Hurl. unfold downloadImage, firstRequest, attemptUnchecked.
  assert (Htruthy : JsString.truthy url = true).
  { destruct url; [|reflexivity]. now destruct Hurl. }
  rewrite Htruthy, (eqb_empty_false _ Hurl). cbn [negb orb].
  pose proof (confined_browserDownloadImage env) as Hb.
  apply begins_call. apply begins_bind; [|growing out].
  apply begins_try_catch; [|growing out].
  destruct (extractGoogleDriveId url) as [fileId|].
  - cbv zeta. apply begins_bind; [|growing out].
    apply begins_try_catch; [|growing out].
    apply begins_bind; [|growing out].
    apply begins_try_catch; [|growing out].
    apply begins_bind; [apply downloadFileDirect_begins | growing out].
  - apply begins_try_catch; [|growing out].
    apply begins_bind; [apply downloadFileDirect_begins | growing out].
Qed.

(** C4 (amended): on a module description slide, with the URLs trimmed.
    When the video URL is not empty the image URL plays no part.  With
    SKIP_VIDEO_DOWNLOAD set nothing is fetched and a video_failed entry is
    recorded.  Otherwise [downloadVideo] is called for the video URL and
    the media path of the slide: the history the slide leaves is the one
    that call leaves, it begins with the first request of the fetch, and
    the entry recorded carries the video URL.  When the video URL is empty
    and the image URL is not, [downloadImage] is called in the same way,
    and the world the slide leaves is the one that call leaves.  When both
    are empty nothing is fetched and nothing is recorded. *)
Theorem media_priority (env : Env) (fuel : nat) (skip : bool) (assetsDir : string)
    (i : nat) (slide : Slide) (st : Pipeline) (w : World) :
  type slide = "module_description" ->
  let videoUrl := videoUrlOf slide in
  let imageUrl := imageUrlOf slide in
  let r := processSlide env fuel skip assetsDir i slide st w in
  (videoUrl <> "" ->
     (skip = true -> r = (Normal (setAsset i (videoFailed videoUrl) st), w)) /\
     (skip = false ->
        let video :=
          downloadVideo env fuel videoUrl (mediaPathFor assetsDir i videoUrl ".mp4") w in
        trace r.2 = trace video.2 /\
        (exists evs, trace r.2 = trace w ++ HttpGet (firstRequest videoUrl) :: evs) /\
        (forall st', r.1 = Normal st' ->
           exists a, assetMap st' !! i = Some a /\ asset_video_url a = Some videoUrl /\
                     (asset_type a = "video" \/ asset_type a = "video_failed"))) /\
     (forall slide', type slide' = "module_description" -> videoUrlOf slide' = videoUrl ->
        processSlide env fuel skip assetsDir i slide' st w = r)) /\
  (videoUrl = "" -> imageUrl <> "" ->
     let image := downloadImage env imageUrl (mediaPathFor assetsDir i imageUrl ".png") w in
     r.2 = image.2 /\
     (exists evs, trace r.2 = trace w ++ HttpGet (firstRequest imageUrl) :: evs) /\
     (forall st', r.1 = Normal st' ->
        (image.1 = Normal None /\ st' = st) \/
        (exists p, image.1 = Normal (Some p) /\ st' = setAsset i (imageAsset p) st))) /\
  (videoUrl = "" -> imageUrl = "" -> r = (Normal st, w)).
Proof.
  intros Htype videoUrl imageUrl r. subst r videoUrl imageUrl.
  rewrite processSlide_module by exact Htype.
  split; [|split].
  - intros Hv. split; [|split].
    + intros ->. unfold processModuleSlide. rewrite (eqb_empty_false _ Hv). reflexivity.
    + intros ->. cbv zeta.
      assert (Htrace : trace (processModuleSlide env fuel false assetsDir i slide st w).2 =
                trace (downloadVideo env fuel (videoUrlOf slide)
                         (mediaPathFor assetsDir i (videoUrlOf slide) ".mp4") w).2).
      { unfold processModuleSlide. rewrite (eqb_empty_false _ Hv). cbn [negb andb]. cbv zeta.
        unfold mbind, M_bind, validate, fs_stat_size, fs_unlink, mret, M_ret.
        destruct (downloadVideo _ _ _ _ w) as [[[p|]| | |] w1]; cbn [fst snd]; try reflexivity.
        destruct (validateFileType (files w1) p "video"); cbn [fst snd files]; [|reflexivity].
        now destruct (files w1 !! p). }
      split; [exact Htrace|]. split.
      * rewrite Htrace. unfold downloadVideo. apply downloadFile_begins.
        unfold videoUrlOf in *. now rewrite trim_idem.
      * intros st' Hst'. now apply processModuleSlide_video_entry in Hst'.
    + intros slide' Htype' Hv'. rewrite processSlide_module by exact Htype'.
      unfold processModuleSlide. rewrite Hv', (eqb_empty_false _ Hv).
      now destruct skip.
  - intros Hv Hi. cbv zeta.
    assert (Hbegin := downloadImage_begins env (imageUrlOf slide)
                        (mediaPathFor assetsDir i (imageUrlOf slide) ".png")).
    unfold processModuleSlide. rewrite Hv, (eqb_empty_false _ Hi).
    cbn [String.eqb negb andb]. cbv zeta.
    unfold mbind, M_bind, mret, M_ret.
    specialize (Hbegin ltac:(unfold imageUrlOf in *; now rewrite trim_idem) w).
    destruct (downloadImage _ _ _ w) as [[[p|]| | |] w1]; cbn [fst snd] in *;
      (split; [reflexivity|]); (split; [exact Hbegin|]); intros st' Hst';
      try discriminate Hst'; injection Hst' as <-; [right; eauto | left; auto].
  - intros Hv Hi. unfold processModuleSlide. rewrite Hv, Hi. now destruct skip.
Qed.

Lemma media_priority_witness :
  let url := "https://other-host.example/clip.mp4" in
  let slide := moduleSlide (Some " https://other-host.example/clip.mp4 ")
                           (Some "https://other-host.example/pic.png") in
  let r := processSlide tinyClipHost 3 false "assets" 0 slide emptyPipeline emptyWorld in
  trace r.2 = trace (downloadVideo tinyClipHost 3 url "assets/module_0.mp4" emptyWorld).2 /\
  (exists evs, trace r.2 = trace emptyWorld ++ HttpGet url :: evs) /\
  (forall st', r.1 = Normal st' ->
     exists a, assetMap st' !! 0 = Some a /\ asset_video_url a = Some url /\
               (asset_type a = "video" \/ asset_type a = "video_failed")).
Proof.
  cbv zeta.
  refine (proj1 (proj2 (proj1 (media_priority tinyClipHost 3 false "assets" 0
            (moduleSlide (Some " https://other-host.example/clip.mp4 ")
                         (Some "https://other-host.example/pic.png"))
            emptyPipeline emptyWorld _) _)) _).
  - reflexivity.
  - vm_compute. discriminate.
  - reflexivity.
Defined.

(** C4 (counterexample): with SKIP_VIDEO_DOWNLOAD set, a slide with a video
    URL gets no fetch at all: no request is made; and a video URL made of
    white space, which is not the empty string, lets the image be
    fetched: the first request is for the image. *)
Lemma video_fetch_not_always_attempted :
  let withVideo := moduleSlide (Some "https://other-host.example/clip.mp4")
                               (Some "https://other-host.example/pic.png") in
  let blankVideo := moduleSlide (Some "  ") (Some "https://other-host.example/pic.png") in
  let r := processSlide tinyClipHost 3 true "assets" 0 withVideo emptyPipeline emptyWorld in
  let r' := processSlide tinyClipHost 3 false "assets" 0 blankVideo emptyPipeline emptyWorld in
  (contentVideoUrl withVideo = Some "https://other-host.example/clip.mp4" /\
   r = (Normal (setAsset 0 (videoFailed "https://other-host.example/clip.mp4") emptyPipeline),
        emptyWorld)) /\
  (contentVideoUrl blankVideo = Some "  " /\ "  " <> "" /\
   r'.1 = Normal emptyPipeline /\
   trace r'.2 = [HttpGet "https://other-host.example/pic.png"; NewPage;
                 Goto "https://other-host.example/pic.png"; ClosePage] /\
   r'.2 = (downloadImage tinyClipHost "https://other-host.example/pic.png"
             "assets/module_0.png" emptyWorld).2).
Proof.
  cbv zeta. split.
  - split; [reflexivity|]. vm_compute. reflexivity.
  - split; [reflexivity|]. split; [discriminate|]. repeat split; vm_compute; reflexivity.
Qed.


(** ** The asset loop: what a download can and cannot do to it *)

Lemma downloadFile_returns_out (env : Env) (fuel : nat) (url out : string) (isVideo : bool)
    (w w' : World) (p : string) :
  downloadFile env fuel url out isVideo w = (Normal (Some p), w') -> p = out.
Proof.
  destruct (downloadFile_body env fuel url out isVideo) as (m & -> & Hm).
  intros H. apply call_returned in H as [Hret _]. now destruct (Hm w p Hret).
Qed.

Lemma downloadImage_returns_out (env : Env) (url out : string) (w w' : World) (p : string) :
  downloadImage env url out w = (Normal (Some p), w') -> p = out.
Proof.
  destruct (downloadImage_body env url out) as (m & -> & Hm).
  intros H. apply call_returned in H as [Hret _]. now destruct (Hm w p Hret).
Qed.

Lemma validateFileType_exists (fs : filesystem) (p kind : string) :
  validateFileType fs p kind = true -> is_Some (fs !! p).
Proof. unfold validateFileType. destruct (fs !! p); [eauto | discriminate]. Qed.

(** The check reads the file at the path and nothing else. *)
Lemma validateFileType_ext (fs fs' : filesystem) (p kind : string) :
  fs' !! p = fs !! p -> validateFileType fs' p kind = validateFileType fs p kind.
Proof. unfold validateFileType. now intros ->. Qed.

Lemma effects_output (assetsDir : string) (i : nat) (url ext : string) (w w' : World) :
  In ext [".mp4"; ".png"] ->
  effects anyEvent (eq (mediaPathFor assetsDir i url ext)) w w' ->
  effects anyEvent (isMediaPathOf assetsDir i) w w'.
Proof.
  intros Hext. apply effects_mono; [auto|]. intros p <-. exists url, ext. auto.
Qed.

Lemma effects_unlink (E : Event -> Prop) (P : string -> Prop) (w w' : World) (p : string) :
  P p -> effects E P w w' ->
  effects E P w {| files := delete p (files w'); trace := trace w' |}.
Proof.
  intros Hp H. eapply effects_trans; [exact H|].
  exact (confined_fs_unlink E P p Hp w').
Qed.

Lemma processModuleSlide_step (env : Env) (fuel : nat) (skip : bool) (assetsDir : string)
    (i : nat) (slide : Slide) (st : Pipeline) (w : World) :
  let r := processModuleSlide env fuel skip assetsDir i slide st w in
  let path := mediaPathFor assetsDir i (videoUrlOf slide) ".mp4" in
  r.1 <> Throw /\
  effects anyEvent (isMediaPathOf assetsDir i) w r.2 /\
  forall st', r.1 = Normal st' ->
    forall a, assetMap st' !! i = Some a -> asset_type a = "video" ->
      assetMap st !! i = Some a \/
      (a = videoAsset path (videoUrlOf slide) /\
       validateFileType (files r.2) path "video" = true).
Proof.
  cbv zeta. unfold processModuleSlide.
  unfold mbind, M_bind, validate, fs_stat_size, fs_unlink, mret, M_ret.
  assert (Hrefl : effects anyEvent (isMediaPathOf assetsDir i) w w) by apply effects_refl.
  assert (Hfailed : forall (s : Pipeline) (a : Asset),
            assetMap (setAsset i (videoFailed (videoUrlOf slide)) s) !! i = Some a ->
            asset_type a = "video" -> False).
  { intros s a. cbn. rewrite lookup_insert_eq. intros [= <-]. discriminate. }
  destruct (String.eqb (videoUrlOf slide) ""), skip; cbn [negb andb].
  1, 2: destruct (String.eqb (imageUrlOf slide) ""); cbn [negb fst snd].
  1, 3: split; [discriminate|]; split; [exact Hrefl|]; intros st' [= <-] a Ha _; now left.
  1, 2: pose proof (confined_downloadImage env (imageUrlOf slide)
                      (mediaPathFor assetsDir i (imageUrlOf slide) ".png") w) as Hw;
    pose proof (noThrow_downloadImage env (imageUrlOf slide)
                  (mediaPathFor assetsDir i (imageUrlOf slide) ".png") w) as Hnt;
    apply (effects_output assetsDir i _ ".png") in Hw; [|now (right; left)];
    destruct (downloadImage _ _ _ w) as [[[p|]| | |] w1]; cbn [fst snd] in *;
    (split; [congruence|]); (split; [exact Hw|]); try discriminate;
    intros st' [= <-] a; cbn; rewrite ?lookup_insert_eq;
    [intros [= <-]; discriminate | intros Ha _; now left].
  - cbn [fst snd]. split; [discriminate|]. split; [exact Hrefl|].
    intros st' [= <-] a Ha Hv. destruct (Hfailed _ _ Ha Hv).
  - unfold downloadVideo.
    pose proof (confined_downloadFile env fuel (videoUrlOf slide)
                  (mediaPathFor assetsDir i (videoUrlOf slide) ".mp4") true w) as Hw.
    pose proof (noThrow_downloadFile env fuel (videoUrlOf slide)
                  (mediaPathFor assetsDir i (videoUrlOf slide) ".mp4") true w) as Hnt.
    pose proof (downloadFile_returns_out env fuel (videoUrlOf slide)
                  (mediaPathFor assetsDir i (videoUrlOf slide) ".mp4") true w) as Hout.
    apply (effects_output assetsDir i _ ".mp4") in Hw; [|now left].
    destruct (downloadFile _ _ _ _ _ w) as [[[p|]| | |] w1]; cbn [fst snd] in *.
    + specialize (Hout w1 p eq_refl). subst p.
      destruct (validateFileType (files w1) _ "video") eqn:Hvalid; cbn [fst snd files].
      * destruct (validateFileType_exists _ _ _ Hvalid) as [buf ->]. cbn [fst snd].
        split; [discriminate|]. split; [exact Hw|].
        intros st' [= <-] a. cbn. rewrite lookup_insert_eq. intros [= <-] _. now right.
      * split; [discriminate|]. split.
        { apply effects_unlink; [|exact Hw]. exists (videoUrlOf slide), ".mp4".
          split; [now left | reflexivity]. }
        intros st' [= <-] a Ha Hv. destruct (Hfailed _ _ Ha Hv).
    + split; [discriminate|]. split; [exact Hw|].
      intros st' [= <-] a Ha Hv. destruct (Hfailed _ _ Ha Hv).
    + split; [discriminate|]. split; [exact Hw|]. discriminate.
    + congruence.
    + split; [discriminate|]. split; [exact Hw|]. discriminate.
Qed.

Lemma processSlide_step (env : Env) (fuel : nat) (skip : bool) (assetsDir : string)
    (i : nat) (slide : Slide) (st : Pipeline) (w : World) :
  let r := processSlide env fuel skip assetsDir i slide st w in
  let path := mediaPathFor assetsDir i (videoUrlOf slide) ".mp4" in
  (r.1 = Throw -> isMermaidDiagram slide = true /\ exists t, render_ok env t = false) /\
  effects anyEvent (isMediaPathOf assetsDir i) w r.2 /\
  forall st', r.1 = Normal st' ->
    forall a, assetMap st' !! i = Some a -> asset_type a = "video" ->
      assetMap st !! i = Some a \/
      (type slide = "module_description" /\ a = videoAsset path (videoUrlOf slide) /\
       validateFileType (files r.2) path "video" = true).
Proof.
  cbv zeta. destruct (String.eqb (type slide) "module_description") eqn:Htype.
  - apply String.eqb_eq in Htype. rewrite processSlide_module by exact Htype.
    destruct (processModuleSlide_step env fuel skip assetsDir i slide st w)
      as (Hnt & Hw & Ha).
    split; [intros H; now destruct Hnt|]. split; [exact Hw|].
    intros st' Hst a Hlook Hv. destruct (Ha st' Hst a Hlook Hv) as [?|[? ?]]; auto.
  - unfold processSlide. rewrite Htype.
    unfold renderMermaidDiagram, observe, emit, throw.
    unfold mbind, M_bind, mret, M_ret. cbn [fst snd].
    assert (Hrefl : effects anyEvent (isMediaPathOf assetsDir i) w w) by apply effects_refl.
    assert (Hemit : forall e, effects anyEvent (isMediaPathOf assetsDir i) w
                      {| files := files w; trace := trace w ++ [e] |}).
    { intros e. split; [|reflexivity]. exists [e]. split; [reflexivity|].
      constructor; [exact I | constructor]. }
    unfold isMermaidDiagram.
    destruct (diagram slide) as [[dtype code]|]; cbn [fst snd].
    + destruct (String.eqb (type slide) "diagram" && String.eqb dtype "mermaid") eqn:Hd;
        cbn [fst snd].
      * destruct (render_ok env (trace w)) eqn:Hok; cbn [fst snd].
        -- split; [discriminate|]. split; [apply Hemit|].
           intros st' [= <-] a. cbn. rewrite lookup_insert_eq. intros [= <-]. discriminate.
        -- split; [eauto|]. split; [apply Hemit|]. discriminate.
      * split; [discriminate|]. split; [exact Hrefl|]. intros st' [= <-] a Ha _. now left.
    + split; [discriminate|]. split; [exact Hrefl|]. intros st' [= <-] a Ha _. now left.
Qed.

(** X19: a download that fails never aborts the asset loop.
    [renderMermaidDiagram] catches its own errors (lines 711-751) and so
    never rejects; given that, or given a deck without Mermaid diagrams,
    the loop never throws, whatever the downloads do. *)
Theorem processAssets_never_throws (env : Env) (fuel : nat) (skip : bool)
    (assetsDir : string) (slides : list Slide) :
  Forall (fun slide => isMermaidDiagram slide = false) slides \/
  (forall t, render_ok env t = true) ->
  forall (i : nat) (st : Pipeline) (w : World),
    (processAssets env fuel skip assetsDir i slides st w).1 <> Throw.
Proof.
  intros Hsafe. induction slides as [|slide rest IH]; intros i st w; [discriminate|].
  cbn [processAssets]. unfold mbind, M_bind.
  destruct (processSlide_step env fuel skip assetsDir i slide st w) as (Hthrow & _).
  assert (Hrest : Forall (fun slide => isMermaidDiagram slide = false) rest \/
                  (forall t, render_ok env t = true)).
  { destruct Hsafe as [H|H]; [left; now apply Forall_cons in H as [_ H] | now right]. }
  destruct (processSlide env fuel skip assetsDir i slide st w) as [[st1| | |] w1];
    cbn [fst] in *; try discriminate.
  - now apply IH.
  - intros _. destruct (Hthrow eq_refl) as [Hm [t Ht]].
    destruct Hsafe as [H|H].
    + apply Forall_cons in H as [H _]. congruence.
    + rewrite H in Ht. discriminate Ht.
Qed.


Lemma processAssets_never_throws_witness :
  (processAssets offline 3 false "assets" 0
     [moduleSlide (Some "https://other-host.example/clip.mp4") None; mermaidSlide]
     emptyPipeline emptyWorld).1 <> Throw.
Proof.
  apply (processAssets_never_throws offline 3 false "assets"
           [moduleSlide (Some "https://other-host.example/clip.mp4") None; mermaidSlide]).
  right. intros t. reflexivity.
Defined.

(** The slides processed so far keep their video assets through the rest
    of the loop. *)
Lemma processAssets_keeps (env : Env) (fuel : nat) (skip : bool) (assetsDir : string)
    (rest : list Slide) :
  forall (done : list Slide) (st st' : Pipeline) (w w' : World),
    (forall k, length done <= k -> assetMap st !! k = None) ->
    (forall k a, assetMap st !! k = Some a -> asset_type a = "video" ->
                 videoAssetKept assetsDir done w k a) ->
    processAssets env fuel skip assetsDir (length done) rest st w = (Normal st', w') ->
    forall k a, assetMap st' !! k = Some a -> asset_type a = "video" ->
                videoAssetKept assetsDir (done ++ rest) w' k a.
Proof.
  induction rest as [|slide rest IH]; intros done st st' w w' Hnone Hkept.
  - cbn. intros [= <- <-]. rewrite app_nil_r. exact Hkept.
  - cbn [processAssets]. unfold mbind, M_bind.
    destruct (processSlide_step env fuel skip assetsDir (length done) slide st w)
      as (_ & Hw & Ha).
    destruct (processSlide env fuel skip assetsDir (length done) slide st w)
      as [[st1| | |] w1] eqn:E; cbn [fst snd] in *; try discriminate.
    pose proof (processSlide_effect env fuel skip assetsDir (length done) slide st st1 w)
      as Heff. rewrite E in Heff. pose proof (Heff eq_refl) as Hother.
    intros Hrun.
    replace (done ++ slide :: rest) with ((done ++ [slide]) ++ rest)
      by (now rewrite <- app_assoc).
    apply (IH (done ++ [slide]) st1 st' w1 w').
    + intros k Hk. rewrite length_app in Hk. cbn in Hk.
      rewrite Hother by lia. apply Hnone. lia.
    + intros k a Hlook Hv. destruct (Nat.eq_dec k (length done)) as [->|Hk].
      * destruct (Ha st1 eq_refl a Hlook Hv) as [Hold|(Htype & -> & Hvalid)].
        -- rewrite Hnone in Hold by lia. discriminate.
        -- exists slide. split; [|auto]. now rewrite list_lookup_middle.
      * rewrite Hother in Hlook by exact Hk.
        destruct (Hkept k a Hlook Hv) as (slide0 & Hs & Htype & -> & Hvalid).
        exists slide0. split; [now apply lookup_app_l_Some|]. split; [exact Htype|].
        split; [reflexivity|]. erewrite validateFileType_ext; [exact Hvalid|].
        destruct Hw as [_ Hfiles]. apply Hfiles.
        intros (url & ext & Hext & Hp). apply Hk.
        eapply mediaPathFor_index; [| exact Hext | exact Hp]. now left.
    + rewrite length_app. cbn [length]. now rewrite Nat.add_1_r.
Qed.

(** X20: when the asset loop ends, every video asset in the map belongs
    to a module description slide, carries its video URL, and points at
    that slide's media path, where a file with the video signature is:
    no later download has overwritten or removed it. *)
Theorem processAssets_video_assets (env : Env) (fuel : nat) (skip : bool)
    (assetsDir : string) (slides : list Slide) (st' : Pipeline) (w w' : World) :
  processAssets env fuel skip assetsDir 0 slides emptyPipeline w = (Normal st', w') ->
  forall k a, assetMap st' !! k = Some a -> asset_type a = "video" ->
    exists slide, slides !! k = Some slide /\ type slide = "module_description" /\
      a = videoAsset (mediaPathFor assetsDir k (videoUrlOf slide) ".mp4") (videoUrlOf slide) /\
      validateFileType (files w') (mediaPathFor assetsDir k (videoUrlOf slide) ".mp4")
        "video" = true.
Proof.
  intros Hrun k a Hlook Hv.
  apply (processAssets_keeps env fuel skip assetsDir slides [] emptyPipeline st' w w');
    try assumption.
  - intros j _. apply lookup_empty.
  - intros j b Hb. cbn in Hb. rewrite lookup_empty in Hb. discriminate.
Qed.

Lemma processAssets_video_assets_witness :
  let url := "https://other-host.example/clip.mp4" in
  let deck := [moduleSlide (Some url) None] in
  let r := processAssets tinyClipHost 3 false "assets" 0 deck emptyPipeline emptyWorld in
  exists slide, deck !! 0 = Some slide /\ type slide = "module_description" /\
    videoAsset "assets/module_0.mp4" url =
      videoAsset (mediaPathFor "assets" 0 (videoUrlOf slide) ".mp4") (videoUrlOf slide) /\
    validateFileType (files r.2) (mediaPathFor "assets" 0 (videoUrlOf slide) ".mp4")
      "video" = true.
Proof.
  cbv zeta.
  refine (processAssets_video_assets tinyClipHost 3 false "assets"
            [moduleSlide (Some "https://other-host.example/clip.mp4") None]
            (setAsset 0 (videoAsset "assets/module_0.mp4" "https://other-host.example/clip.mp4")
               emptyPipeline)
            emptyWorld _ _ 0 _ _ _).
  - vm_compute. reflexivity.
  - reflexivity.
  - reflexivity.
Defined.


(** ** The media block of a module description slide *)

Lemma prefix_append (p t : string) : String.prefix p (p +:+ t) = true.
Proof.
  induction p as [|c p IH]; [now destruct t|]. rewrite append_String. cbn [String.prefix].
  destruct (ascii_dec c c); [exact IH | congruence].
Qed.

Lemma includes_here (p t : string) : JsString.includes (p +:+ t) p = true.
Proof.
  destruct (p +:+ t) eqn:E; cbn [JsString.includes]; rewrite <- E, prefix_append; reflexivity.
Qed.

Lemma includes_skip (a t p : string) :
  JsString.includes t p = true -> JsString.includes (a +:+ t) p = true.
Proof.
  intros H. induction a as [|c a IH]; [exact H|]. rewrite append_String.
  cbn [JsString.includes]. rewrite IH. apply orb_true_r.
Qed.

(** The entry a named video leaves in the asset map. *)
Lemma processModuleSlide_video_asset (env : Env) (fuel : nat) (skip : bool)
    (assetsDir : string) (i : nat) (slide : Slide) (st st' : Pipeline) (w : World) :
  videoUrlOf slide <> "" ->
  (processModuleSlide env fuel skip assetsDir i slide st w).1 = Normal st' ->
  exists a, assetMap st' !! i = Some a /\
    (a = videoFailed (videoUrlOf slide) \/ exists p, a = videoAsset p (videoUrlOf slide)).
Proof.
  intros Hv. unfold processModuleSlide. rewrite (eqb_empty_false _ Hv).
  cbn [negb andb]. cbv zeta.
  unfold mbind, M_bind, validate, fs_stat_size, fs_unlink, mret, M_ret.
  destruct skip; cbn [negb fst snd].
  { intros [= <-]. eexists. split; [apply lookup_insert_eq | now left]. }
  destruct (downloadVideo _ _ _ _ w) as [[[p|]| | |] w1]; cbn [fst snd]; try discriminate.
  - destruct (validateFileType (files w1) p "video"); cbn [fst snd files].
    + destruct (files w1 !! p); cbn [fst]; [|discriminate].
      intros [= <-]. eexists. split; [apply lookup_insert_eq | eauto].
    + intros [= <-]. eexists. split; [apply lookup_insert_eq | now left].
  - intros [= <-]. eexists. split; [apply lookup_insert_eq | now left].
Qed.

Lemma includes_refl (p : string) : JsString.includes p p = true.
Proof. rewrite <- (append_empty_r p) at 1. apply includes_here. Qed.

(** Finds a piece of an HTML text that is put together with [+:+]. *)
Ltac find_piece :=
  repeat first [apply includes_refl | apply includes_here | apply includes_skip].

Lemma mediaContentHTML_link (mediaRelPath : option string) (mediaType : string)
    (slideTitle : JsValue) (videoUrl : string) :
  JsString.trim videoUrl <> "" ->
  mediaType = "video" \/ mediaRelPath = None ->
  JsString.includes (mediaContentHTML mediaRelPath mediaType slideTitle videoUrl)
    (linkParagraph videoUrl) = true.
Proof.
  intros Hurl Hkind. unfold mediaContentHTML.
  assert (Htruthy : JsString.truthy videoUrl = true).
  { destruct videoUrl; [|reflexivity]. now destruct Hurl. }
  rewrite Htruthy, (eqb_empty_false _ Hurl). cbn [negb andb].
  destruct Hkind as [-> | ->].
  - cbn [String.eqb Ascii.eqb Bool.eqb orb negb andb].
    destruct (JsString.truthy (default "" mediaRelPath)); cbn [negb andb orb]; find_piece.
  - cbn [default JsString.truthy negb andb orb]. rewrite andb_false_r. cbn [orb].
    find_piece.
Qed.

(** X21: a module description slide that names a video always shows the
    video URL, escaped, in its media block, whether the video was
    fetched, failed to be fetched or was skipped. *)
Theorem named_video_is_linked (env : Env) (fuel : nat) (skip : bool) (assetsDir : string)
    (relative : string -> string) (i : nat) (slide : Slide) (st st' : Pipeline) (w : World) :
  type slide = "module_description" ->
  videoUrlOf slide <> "" ->
  (processSlide env fuel skip assetsDir i slide st w).1 = Normal st' ->
  let videoUrl :=
    JsString.or_else (_video_url slide) (JsString.or_else (contentVideoUrl slide) "") in
  JsString.includes (moduleMediaHTML relative slide (assetMap st' !! i))
    ("<p>" +:+ escapeHtml (VString videoUrl) +:+ "</p></div>") = true.
Proof.
  intros Htype Hv. rewrite processSlide_module by exact Htype. intros Hrun videoUrl.
  destruct (processModuleSlide_video_asset _ _ _ _ _ _ _ _ _ Hv Hrun) as (a & -> & Ha).
  unfold moduleMediaHTML. fold videoUrl. unfold videoUrlOf in Hv. fold videoUrl in Hv.
  assert (Htruthy : JsString.truthy videoUrl = true).
  { destruct videoUrl; [|reflexivity]. now destruct Hv. }
  rewrite Htruthy. cbn [mbind option_bind].
  apply mediaContentHTML_link; [exact Hv|].
  destruct Ha as [-> | [p ->]]; [right | left]; reflexivity.
Qed.

Lemma named_video_is_linked_witness :
  let slide := moduleSlide (Some " https://other-host.example/a<b.mp4 ") None in
  JsString.includes
    (moduleMediaHTML (fun p => p) slide
       (Some (videoFailed "https://other-host.example/a<b.mp4")))
    "<p> https://other-host.example/a&lt;b.mp4 </p></div>" = true.
Proof.
  cbv zeta.
  refine (named_video_is_linked offline 3 true "assets" (fun p => p) 0
            (moduleSlide (Some " https://other-host.example/a<b.mp4 ") None)
            emptyPipeline
            (setAsset 0 (videoFailed "https://other-host.example/a<b.mp4") emptyPipeline)
            emptyWorld _ _ _).
  - reflexivity.
  - vm_compute. discriminate.
  - vm_compute. reflexivity.
Defined.


(** ** Redirects without end *)

Lemma fetchResponse_loops (env : Env) (fuel : nat) :
  alwaysRedirects env -> forall url w, (fetchResponse env fuel url w).1 = Diverge.
Proof.
  intros Hloop. induction fuel as [|fuel IH]; intros url w; [reflexivity|].
  cbn [fetchResponse]. unfold mbind, M_bind, request. cbn [fst snd].
  destruct (Hloop (trace w) url) as (response & -> & ->).
  destruct (redirectTarget env response url); [apply IH | reflexivity].
Qed.

Lemma downloadFileDirect_loops (env : Env) (out : string) (n : nat) :
  alwaysRedirects env -> redirectsResolve env ->
  forall url w,
    (downloadFileDirect env url out true n w).1 = Throw /\
    exists urls, trace (downloadFileDirect env url out true n w).2 =
                   trace w ++ map HttpGet urls /\ length urls = n.
Proof.
  intros Hloop Hresolve. induction n as [|n IH]; intros url w.
  - split; [reflexivity|]. exists []. cbn. now rewrite app_nil_r.
  - cbn [downloadFileDirect]. unfold mbind, M_bind, request. cbn [fst snd].
    destruct (Hloop (trace w) url) as (response & Hget & Hredirect).
    pose proof (Hresolve _ _ _ Hget Hredirect) as Htarget.
    rewrite Hget, Hredirect. cbn [andb].
    destruct (redirectTarget env response url) as [redirectUrl|]; [|congruence].
    destruct (IH redirectUrl {| files := files w; trace := trace w ++ [HttpGet url] |})
      as (Hc & urls & Ht & Hlen).
    split; [exact Hc|]. exists (url :: urls).
    rewrite Ht. cbn [trace map length]. now rewrite <- app_assoc, Hlen.
Qed.

(** Whether its redirects can be followed or not, a direct download
    against such a server never resolves. *)
Lemma downloadFileDirect_never_resolves (env : Env) (out : string) (n : nat) :
  alwaysRedirects env ->
  forall url w,
    (downloadFileDirect env url out true n w).1 = Throw \/
    (downloadFileDirect env url out true n w).1 = Diverge.
Proof.
  intros Hloop. induction n as [|n IH]; intros url w; [now left|].
  cbn [downloadFileDirect]. unfold mbind, M_bind, request. cbn [fst snd].
  destruct (Hloop (trace w) url) as (response & -> & ->). cbn [andb].
  destruct (redirectTarget env response url); [apply IH | now right].
Qed.

Lemma downloadGoogleDriveFile_loops (env : Env) (fuel : nat) (fileId out : string)
    (isVideo : bool) (w : World) :
  alwaysRedirects env ->
  (downloadGoogleDriveFile env fuel fileId out isVideo w).1 = Diverge.
Proof.
  intros Hloop. unfold downloadGoogleDriveFile, attemptDirect.
  unfold call, try_catch, mbind, M_bind, mret, M_ret.
  pose proof (downloadFileDirect_never_resolves env out 5 Hloop
                ("https://drive.google.com/uc?export=download&id=" +:+ fileId) w) as Hc.
  destruct (downloadFileDirect env _ out true 5 w) as [c w1]. cbn [fst] in Hc.
  destruct Hc as [-> | ->]; [|reflexivity].
  pose proof (fetchResponse_loops env fuel Hloop
                ("https://drive.google.com/uc?export=download&id=" +:+ fileId) w1) as Hf.
  destruct (fetchResponse env fuel _ w1) as [c w2]. cbn [fst] in Hf. subst c.
  reflexivity.
Qed.

(** X22: [fetchResponse] has no hop limit.  Against a server that
    answers every request with a redirect, [downloadFileDirect] rejects
    after exactly [maxRedirects] requests, provided [new URL] accepts the
    locations, but [fetchResponse] never completes, and with it
    [downloadGoogleDriveFile] and [downloadFile] on a Google Drive link
    never complete either. *)
Theorem redirect_loop_hangs (env : Env) (fuel maxRedirects : nat) (url out : string)
    (isVideo : bool) (w : World) :
  alwaysRedirects env ->
  (redirectsResolve env ->
   (downloadFileDirect env url out true maxRedirects w).1 = Throw /\
   exists urls, trace (downloadFileDirect env url out true maxRedirects w).2 =
                  trace w ++ map HttpGet urls /\ length urls = maxRedirects) /\
  (fetchResponse env fuel url w).1 = Diverge /\
  (forall fileId, (downloadGoogleDriveFile env fuel fileId out isVideo w).1 = Diverge) /\
  (JsString.trim url <> "" -> extractGoogleDriveId url <> None ->
   (downloadFile env fuel url out isVideo w).1 = Diverge).
Proof.
  intros Hloop. split; [intros Hresolve; now apply downloadFileDirect_loops|].
  split; [now apply fetchResponse_loops|].
  split; [intros fileId; now apply downloadGoogleDriveFile_loops|].
  intros Hurl Hid. unfold downloadFile.
  assert (Htruthy : JsString.truthy url = true).
  { destruct url; [|reflexivity]. now destruct Hurl. }
  rewrite Htruthy, (eqb_empty_false _ Hurl). cbn [negb orb].
  destruct (extractGoogleDriveId url) as [fileId|]; [|now destruct Hid].
  pose proof (downloadGoogleDriveFile_loops env fuel fileId out isVideo w Hloop) as Hd.
  unfold call at 1. unfold try_catch, mbind, M_bind.
  destruct (downloadGoogleDriveFile env fuel fileId out isVideo w) as [c w1].
  cbn [fst] in Hd. subst c. reflexivity.
Qed.

Lemma redirect_loop_hangs_witness :
  (downloadFile redirectLoop 7 "https://drive.google.com/file/d/XYZ9/view" "out.mp4" true
     emptyWorld).1 = Diverge.
Proof.
  refine (proj2 (proj2 (proj2 (redirect_loop_hangs redirectLoop 7 5
            "https://drive.google.com/file/d/XYZ9/view" "out.mp4" true emptyWorld _))) _ _).
  - intros t url. eexists. split; reflexivity.
  - vm_compute. discriminate.
  - vm_compute. discriminate.
Defined.


(** ** The table of a content_table slide *)

Lemma headerCellHTML_markup (c : ascii) (header : JsValue) :
  In c markupChars ->
  countChar c (headerCellHTML header) = countChar c (headerCellHTML (VString "")).
Proof.
  intros Hc. unfold headerCellHTML. rewrite !countChar_app.
  rewrite !(countChar_absent c (escapeHtml _)) by now apply escapeHtml_no_markup.
  reflexivity.
Qed.

Lemma cellHTML_markup (c : ascii) (bgColor : string) (cell : JsValue) :
  In c markupChars ->
  countChar c (cellHTML bgColor cell) = countChar c (cellHTML bgColor (VString "")).
Proof.
  intros Hc. unfold cellHTML. rewrite !countChar_app.
  rewrite !(countChar_absent c (escapeHtml _)) by now apply escapeHtml_no_markup.
  reflexivity.
Qed.

Lemma concatStrings_markup (c : ascii) (f : JsValue -> string) (values : list JsValue) :
  (forall v, countChar c (f v) = countChar c (f (VString ""))) ->
  countChar c (concatStrings (map f values)) =
  countChar c (concatStrings (map f (blank values))).
Proof.
  intros Hf. induction values as [|v values IH]; [reflexivity|].
  cbn [map blank concatStrings fold_right]. fold (concatStrings (map f values)).
  fold (blank values). fold (concatStrings (map f (blank values))).
  now rewrite !countChar_app, IH, Hf.
Qed.

Lemma rowsHTML_markup (c : ascii) (rows : list (list JsValue)) :
  In c markupChars ->
  forall index, countChar c (rowsHTML index rows) =
                countChar c (rowsHTML index (map blank rows)).
Proof.
  intros Hc. induction rows as [|row rows IH]; intros index; [reflexivity|].
  cbn [rowsHTML map]. rewrite !countChar_app, IH.
  rewrite (concatStrings_markup c (cellHTML _) row); [reflexivity|].
  intros v. now apply cellHTML_markup.
Qed.

(** X23: the texts of a table add no markup to it: for each of the
    characters that open or close a tag or an attribute value, the table
    has as many as the table of the same shape with empty texts. *)
Theorem tableHTML_markup (headers : list JsValue) (rows : list (list JsValue)) :
  Forall (fun c => countChar c (tableHTML headers rows) =
                   countChar c (tableHTML (blank headers) (map blank rows))) markupChars.
Proof.
  apply Forall_forall. intros c Hc. apply list_elem_of_In in Hc.
  unfold tableHTML. unfold blank at 1. rewrite length_map.
  destruct (0 <? length headers);
    rewrite !countChar_app, (rowsHTML_markup c rows Hc);
    rewrite ?(concatStrings_markup c headerCellHTML headers); try reflexivity.
  intros v. now apply headerCellHTML_markup.
Qed.


(** ** A plain URL whose direct download resolves *)

Lemma downloadFileDirect_written (env : Env) (out : string) (n : nat) :
  forall (url : string) (follow : bool) (w w1 : World),
    downloadFileDirect env url out follow n w = (Normal tt, w1) ->
    exists response, files w1 !! out = Some (body response).
Proof.
  induction n as [|n IH]; intros url follow w w1; cbn [downloadFileDirect]; [discriminate|].
  unfold mbind, M_bind, request. cbn [fst snd].
  destruct (http_get env (trace w) url) as [response|]; [|discriminate].
  destruct (follow && isRedirect response).
  { destruct (redirectTarget env response url); [apply IH | discriminate]. }
  destruct (negb (statusCode response =? 200)); [discriminate|].
  unfold observe, fs_writeFile, fs_unlink, throw, diverge. cbn [fst snd].
  destruct (transfer env _); cbn [fst snd]; [|discriminate..].
  destruct (stream_finishes env _); cbn [fst snd]; [|discriminate].
  intros [= <-]. exists response. apply lookup_insert_eq.
Qed.

(** X24: on a URL that is not a Google Drive link, the browser is a
    fallback for a direct download that rejects, not for one that brings
    the wrong file: when the direct download resolves, [downloadFile]
    returns the output path if the file is not empty and passes the
    check of its kind, and null otherwise, without opening a page and
    without touching the file again. *)
Theorem downloadFile_plain_direct (env : Env) (fuel : nat) (url out : string)
    (isVideo : bool) (w w1 : World) :
  JsString.trim url <> "" ->
  extractGoogleDriveId url = None ->
  downloadFileDirect env url out true 5 w = (Normal tt, w1) ->
  exists buf, files w1 !! out = Some buf /\
    downloadFile env fuel url out isVideo w =
    (Normal (if (0 <? length buf) && validateFileType (files w1) out (kindName isVideo)
             then Some out else None), w1).
Proof.
  intros Hurl Hplain Hdirect.
  destruct (downloadFileDirect_written _ _ _ _ _ _ _ Hdirect) as [response Hfile].
  exists (body response). split; [exact Hfile|].
  assert (Htruthy : JsString.truthy url = true).
  { destruct url; [|reflexivity]. now destruct Hurl. }
  unfold downloadFile. rewrite Htruthy, (eqb_empty_false _ Hurl), Hplain. cbn [negb orb].
  unfold call, try_catch, mbind, M_bind. rewrite Hdirect.
  unfold fs_stat_size, validate, return_, mret, M_ret. rewrite Hfile. cbn [fst snd].
  destruct (0 <? length (body response)); cbn [andb]; [|reflexivity].
  now destruct (validateFileType (files w1) out (kindName isVideo)).
Qed.

Lemma downloadFile_plain_direct_witness :
  exists buf,
    files (downloadFileDirect warningHost "https://other-host.example/clip.mp4" "out.mp4"
             true 5 emptyWorld).2 !! "out.mp4" = Some buf /\
    downloadFile warningHost 3 "https://other-host.example/clip.mp4" "out.mp4" true emptyWorld =
    (Normal (if (0 <? length buf) &&
                validateFileType
                  (files (downloadFileDirect warningHost "https://other-host.example/clip.mp4"
                            "out.mp4" true 5 emptyWorld).2) "out.mp4" (kindName true)
             then Some "out.mp4" else None),
     (downloadFileDirect warningHost "https://other-host.example/clip.mp4" "out.mp4" true 5
        emptyWorld).2).
Proof.
  apply (downloadFile_plain_direct warningHost 3 "https://other-host.example/clip.mp4"
           "out.mp4" true emptyWorld).
  - vm_compute. discriminate.
  - reflexivity.
  - reflexivity.
Defined.

(** X25: [downloadImage] makes no check of the file type.  On a URL that
    is not a Google Drive link, when the direct download resolves, it
    returns the output path for any body that is not empty, and null for
    an empty one. *)
Theorem downloadImage_plain_direct (env : Env) (url out : string) (w w1 : World) :
  JsString.trim url <> "" ->
  extractGoogleDriveId url = None ->
  downloadFileDirect env url out true 5 w = (Normal tt, w1) ->
  exists buf, files w1 !! out = Some buf /\
    downloadImage env url out w =
    (Normal (if 0 <? length buf then Some out else None), w1).
Proof.
  intros Hurl Hplain Hdirect.
  destruct (downloadFileDirect_written _ _ _ _ _ _ _ Hdirect) as [response Hfile].
  exists (body response). split; [exact Hfile|].
  assert (Htruthy : JsString.truthy url = true).
  { destruct url; [|reflexivity]. now destruct Hurl. }
  unfold downloadImage. rewrite Htruthy, (eqb_empty_false _ Hurl), Hplain. cbn [negb orb].
  unfold attemptUnchecked, call, try_catch, mbind, M_bind. rewrite Hdirect.
  unfold fs_stat_size, return_, mret, M_ret. rewrite Hfile. cbn [fst snd].
  now destruct (0 <? length (body response)).
Qed.

Lemma downloadImage_plain_direct_witness :
  exists buf,
    files (downloadFileDirect warningHost "https://other-host.example/pic.png" "out.png"
             true 5 emptyWorld).2 !! "out.png" = Some buf /\
    downloadImage warningHost "https://other-host.example/pic.png" "out.png" emptyWorld =
    (Normal (if 0 <? length buf then Some "out.png" else None),
     (downloadFileDirect warningHost "https://other-host.example/pic.png" "out.png" true 5
        emptyWorld).2).
Proof.
  apply (downloadImage_plain_direct warningHost "https://other-host.example/pic.png"
           "out.png" emptyWorld).
  - vm_compute. discriminate.
  - reflexivity.
  - reflexivity.
Defined.


(** ** What a failure on a Google Drive link leaves behind *)

Lemma kept_refl (out : string) (w : World) : kept out w w.
Proof. now left. Qed.

Lemma kept_trans (out : string) (w1 w2 w3 : World) :
  kept out w1 w2 -> kept out w2 w3 -> kept out w1 w3.
Proof.
  intros H12 [H|[H|H]]; [|right; now left | right; now right].
  destruct H12 as [H'|[H'|(buf & H' & Hlen)]].
  - left. congruence.
  - right. left. congruence.
  - right. right. exists buf. split; [congruence | exact Hlen].
Qed.

Lemma cleansUp_steps {A : Type} (out : string) (m : M A) :
  steps (kept out) m -> cleansUp out m.
Proof. intros H w. right. apply H. Qed.

Lemma cleansUp_bind {A B : Type} (out : string) (m : M A) (f : A -> M B) :
  cleansUp out m -> (forall a, cleansUp out (f a)) -> cleansUp out (m ≫= f).
Proof.
  intros Hm Hf w. unfold mbind, M_bind. specialize (Hm w).
  destruct (m w) as [[a|r|  |] w1]; cbn [fst snd] in *;
    (destruct Hm as [[p Hp]|Hm];
     [first [discriminate Hp | injection Hp as ->; left; eauto]|]);
    try (now right).
  destruct (Hf a w1) as [Hr|Hk]; [now left | right; eapply kept_trans; eauto].
Qed.

Lemma cleansUp_try_catch {A : Type} (out : string) (m h : M A) :
  cleansUp out m -> cleansUp out h -> cleansUp out (try_catch m h).
Proof.
  intros Hm Hh w. unfold try_catch. specialize (Hm w).
  destruct (m w) as [[a|r|  |] w1]; cbn [fst snd] in *; try exact Hm.
  destruct Hm as [[p Hp]|Hm]; [discriminate|].
  destruct (Hh w1) as [Hr|Hk]; [now left | right; eapply kept_trans; eauto].
Qed.

Lemma cleansUp_try_finally_close {A : Type} (out : string) (m : M A) :
  cleansUp out m -> cleansUp out (try_finally m (emit ClosePage)).
Proof.
  intros Hm w. unfold try_finally, emit. specialize (Hm w).
  destruct (m w) as [[a|r|  |] w1]; cbn [fst snd] in *; exact Hm.
Qed.

(** Lines 329-332: the path of the direct ladder is returned as it is. *)
Lemma cleansUp_forward {B : Type} (out : string) (m : M unit) (k : M B) :
  cleansUp out m -> cleansUp out k ->
  cleansUp out (result ← call m;
                match result with
                | Some r => return_ (Some r)
                | None => mret tt
                end;;
                k).
Proof.
  intros Hm Hk w. unfold mbind, M_bind, call. specialize (Hm w).
  assert (Hrest : kept out w (m w).2 ->
            (exists p, (k (m w).2).1 = Return (Some p)) \/ kept out w (k (m w).2).2).
  { intros H. destruct (Hk (m w).2) as [Hr|Hk']; [now left|].
    right. eapply kept_trans; eauto. }
  destruct (m w) as [[a|[r|]|  |] w1]; cbn [fst snd] in *.
  - destruct Hm as [[p Hp]|Hm]; [discriminate Hp | auto].
  - left. eauto.
  - destruct Hm as [[p Hp]|Hm]; [discriminate Hp | auto].
  - destruct Hm as [[p Hp]|Hm]; [discriminate Hp | now right].
  - destruct Hm as [[p Hp]|Hm]; [discriminate Hp | now right].
Qed.

(** Lines 456-469. *)
Lemma saveDownload_cleansUp (d : Download) (out : string) (isVideo : bool) :
  cleansUp out (saveDownload d out isVideo).
Proof.
  intros w. unfold saveDownload, saveAs, emit, fs_writeFile, fs_stat_size_or_null, validate,
    return_, fs_unlink, throw, mbind, M_bind, mret, M_ret. cbn [fst snd files trace].
  destruct (saved d) as [buf|]; cbn [fst snd files trace]; [|right; left; reflexivity].
  rewrite lookup_insert_eq. cbn [fmap option_fmap option_map].
  destruct (Nat.ltb_spec 0 (length buf)) as [Hpos|Hzero]; cbn [fst snd files].
  - destruct (validateFileType _ out (kindName isVideo)); cbn [fst snd]; [left; eauto|].
    right. right. left. apply lookup_delete_eq.
  - right. unfold kept. cbn [files]. rewrite lookup_insert_eq. right. right.
    exists buf. split; [reflexivity | lia].
Qed.

(** A statement that writes no file leaves the output path as it was. *)
Lemma cleansUp_confined {A : Type} (out : string) (m : M A) :
  confined anyEvent noPath m -> cleansUp out m.
Proof.
  intros H w. right. left. destruct (H w) as [_ Hf]. rewrite Hf; [reflexivity|].
  intros [].
Qed.

(** Solves [kept] in a world whose files are known. *)
Ltac keep :=
  unfold kept; cbn [files trace fst snd] in *;
  first
    [ left; reflexivity
    | right; left; apply lookup_delete_eq
    | right; right; eexists; split; [apply lookup_insert_eq | assumption]
    | right; right; eexists; split; [eassumption | assumption] ].

(** Lines 299-304: the body of a response that is not markup. *)
Lemma writeAndCheck_cleansUp (out kind : string) (buffer_ : buffer) :
  cleansUp out
    (fs_writeFile out buffer_;;
     isValid ← validate out kind;
     if isValid : bool then return_ (Some out) else fs_unlink out).
Proof.
  intros w. unfold fs_writeFile, validate, return_, fs_unlink, mbind, M_bind. cbn [fst snd files].
  destruct (validateFileType _ out kind); cbn [fst snd]; [left; eauto | right; keep].
Qed.

(** Lines 388-398. *)
Lemma writeStatCheck_cleansUp (out kind : string) (buffer_ : buffer) :
  cleansUp out
    (fs_writeFile out buffer_;;
     size ← fs_stat_size out;
     if 1000 <? size then
       isValid ← validate out kind;
       if isValid : bool then return_ (Some out) else fs_unlink out
     else mret tt).
Proof.
  intros w. unfold fs_writeFile, fs_stat_size, validate, return_, fs_unlink, mbind, M_bind,
    mret, M_ret. cbn [fst snd files]. rewrite lookup_insert_eq. cbn [fst snd].
  destruct (Nat.ltb_spec 1000 (length buffer_)) as [Hlong|Hshort]; cbn [fst snd files].
  - destruct (validateFileType _ out kind); cbn [fst snd]; [left; eauto | right; keep].
  - right. keep.
Qed.

Create HintDb cleansup.
#[local] Hint Resolve writeAndCheck_cleansUp writeStatCheck_cleansUp saveDownload_cleansUp
  : cleansup.

(** Splits a statement into the blocks above and the parts that write no
    file. *)
Ltac cleaning :=
  repeat first
    [ progress intros
    | solve [eauto with cleansup]
    | solve [apply cleansUp_confined; confine]
    | apply cleansUp_bind
    | apply cleansUp_try_catch
    | apply cleansUp_try_finally_close
    | match goal with
      | |- cleansUp _ (match ?x with _ => _ end) => destruct x
      | |- cleansUp _ (if ?b then _ else _) => destruct b
      end ].

Lemma fetchVideoPage_cleansUp (env : Env) (pageUrl out : string) (isVideo : bool) :
  cleansUp out (fetchVideoPage env pageUrl out isVideo).
Proof. unfold fetchVideoPage. cleaning. Qed.

#[local] Hint Resolve fetchVideoPage_cleansUp : cleansup.

Lemma browserDownload_cleansUp (env : Env) (fileId out : string) (isVideo : bool) :
  cleansUp out (browserDownload env fileId out isVideo).
Proof. unfold browserDownload. cbv zeta. cleaning. Qed.

#[local] Hint Resolve browserDownload_cleansUp : cleansup.

(** The direct downloads, when every body arrives whole. *)
Section BodiesArrive.
Context (env : Env).
Hypothesis Harrive : bodiesArrive env.

Lemma downloadFileDirect_files (out : string) (n : nat) :
  forall (url : string) (follow : bool) (w : World),
    let r := downloadFileDirect env url out follow n w in
    (r.1 = Normal tt /\ exists response, files r.2 = <[out := body response]> (files w)) \/
    ((r.1 = Throw \/ r.1 = Diverge) /\
     (files r.2 = files w \/ files r.2 = delete out (files w))).
Proof.
  induction n as [|n IH]; intros url follow w; cbn [downloadFileDirect]; [right; auto|].
  unfold mbind, M_bind, request. cbn [fst snd].
  destruct (http_get env (trace w) url) as [response|]; [|right; auto].
  destruct (follow && isRedirect response).
  { destruct (redirectTarget env response url) as [redirectUrl|]; [|right; auto].
    exact (IH redirectUrl true {| files := files w; trace := trace w ++ [HttpGet url] |}). }
  destruct (negb (statusCode response =? 200)); [right; auto|].
  unfold observe, fs_writeFile, fs_unlink, throw. cbn [fst snd]. rewrite Harrive.
  destruct (stream_finishes env _); cbn [fst snd]; [left; eauto | right; auto].
Qed.

(** Lines 226-238: a file that fails the signature test is deleted, and
    one that is kept without a test has at most 1000 bytes. *)
Lemma attemptDirect_cleansUp (url out : string) (isVideo : bool) :
  cleansUp out (try_catch (attemptDirect env url out isVideo) (mret tt)).
Proof.
  intros w. unfold attemptDirect, try_catch, mbind, M_bind.
  destruct (downloadFileDirect_files out 5 url true w) as [[Hc [response Hf]]|[Hc Hf]];
    destruct (downloadFileDirect env url out true 5 w) as [c w1]; cbn [fst snd] in *.
  - subst c. unfold fs_stat_size, validate, return_, fs_unlink, mret, M_ret.
    rewrite Hf, lookup_insert_eq. cbn [fst snd].
    destruct (Nat.ltb_spec 1000 (length (body response))) as [Hlong|Hshort]; cbn [fst snd].
    + destruct (validateFileType _ out (kindName isVideo)); cbn [fst snd]; [left; eauto|].
      right. keep.
    + right. unfold kept. rewrite Hf, lookup_insert_eq. right. right. eauto.
  - right. unfold kept.
    destruct Hc as [-> | ->]; cbn [mret M_ret fst snd]; destruct Hf as [Hf|Hf]; rewrite Hf;
      first [now left | right; left; apply lookup_delete_eq].
Qed.

(** Lines 336-346: the view URL. *)
Lemma viewAttempt_cleansUp (url out : string) :
  cleansUp out
    (try_catch (
       downloadFileDirect env url out true 5;;
       size ← fs_stat_size out;
       if 1000 <? size then return_ (Some out) else fs_unlink out
     ) (mret tt)).
Proof.
  intros w. unfold try_catch, mbind, M_bind.
  destruct (downloadFileDirect_files out 5 url true w) as [[Hc [response Hf]]|[Hc Hf]];
    destruct (downloadFileDirect env url out true 5 w) as [c w1]; cbn [fst snd] in *.
  - subst c. unfold fs_stat_size, return_, fs_unlink, mret, M_ret.
    rewrite Hf, lookup_insert_eq. cbn [fst snd].
    destruct (1000 <? length (body response)); cbn [fst snd]; [left; eauto | right; keep].
  - right. unfold kept.
    destruct Hc as [-> | ->]; cbn [mret M_ret fst snd]; destruct Hf as [Hf|Hf]; rewrite Hf;
      first [now left | right; left; apply lookup_delete_eq].
Qed.

#[local] Hint Resolve attemptDirect_cleansUp viewAttempt_cleansUp : cleansup.

Lemma handleMarkup_cleansUp (response : Response) (fileId out : string) (isVideo : bool) :
  cleansUp out (handleMarkup env response fileId out isVideo).
Proof. unfold handleMarkup. cleaning. Qed.

#[local] Hint Resolve handleMarkup_cleansUp : cleansup.

Lemma downloadGoogleDriveFile_cleans (fuel : nat) (fileId out : string) (isVideo : bool) :
  exists body_ : M unit,
    downloadGoogleDriveFile env fuel fileId out isVideo = call body_ /\
    cleansUp out body_.
Proof. eexists. split; [reflexivity|]. cleaning. Qed.

Lemma downloadFile_drive_cleans (fuel : nat) (url out : string) (isVideo : bool) :
  extractGoogleDriveId url <> None ->
  exists body_ : M unit,
    downloadFile env fuel url out isVideo = call body_ /\ cleansUp out body_.
Proof.
  intros Hid. eexists. split; [reflexivity|].
  destruct (negb (JsString.truthy url) || String.eqb (JsString.trim url) ""); [cleaning|].
  apply cleansUp_bind; [|cleaning]. apply cleansUp_try_catch; [|cleaning].
  destruct (extractGoogleDriveId url) as [fileId|]; [|now destruct Hid].
  destruct (downloadGoogleDriveFile_cleans fuel fileId out isVideo) as (m & -> & Hm).
  apply cleansUp_forward; [exact Hm|].
  apply cleansUp_bind; [|cleaning].
  destruct isVideo; cbn [negb]; cleaning.
Qed.
End BodiesArrive.

(** A call that gives null did not end in the return of a path. *)
Lemma call_null (out : string) (m : M unit) (w w' : World) :
  cleansUp out m -> call m w = (Normal None, w') -> kept out w w'.
Proof.
  intros Hm. unfold call. specialize (Hm w).
  destruct (m w) as [[a|[r|]|  |] w1]; cbn [fst snd] in *; intros [= <-] || intros [=];
    destruct Hm as [[p Hp]|Hm]; try discriminate Hp; exact Hm.
Qed.

(** X26: on a Google Drive link, when every body arrives whole, a failure
    leaves no large file behind: when [downloadGoogleDriveFile], or
    [downloadFile] on a Google Drive link, gives null, the output path
    holds the file that was there before the call, or nothing, or a file
    of at most 1000 bytes, every larger file that failed a check having
    been deleted.  A body cut by the request timeout is not cleaned up:
    against a host that cuts every body after 2000 bytes both functions
    give null and leave those 2000 bytes at the output path. *)
Theorem drive_failure_cleans_up (env : Env) (fuel : nat) (out : string) (isVideo : bool)
    (w w' : World) :
  (bodiesArrive env ->
   (forall fileId,
      downloadGoogleDriveFile env fuel fileId out isVideo w = (Normal None, w') ->
      files w' !! out = files w !! out \/ files w' !! out = None \/
      exists buf, files w' !! out = Some buf /\ length buf <= 1000) /\
   (forall url,
      extractGoogleDriveId url <> None ->
      downloadFile env fuel url out isVideo w = (Normal None, w') ->
      files w' !! out = files w !! out \/ files w' !! out = None \/
      exists buf, files w' !! out = Some buf /\ length buf <= 1000)) /\
  (let r := downloadGoogleDriveFile slowHost (S fuel) "XYZ9" "out.mp4" isVideo emptyWorld in
   r.1 = Normal None /\ files r.2 !! "out.mp4" = Some (repeat x00 2000)) /\
  (let r := downloadFile slowHost (S fuel) "https://drive.google.com/file/d/XYZ9/view"
              "out.mp4" true emptyWorld in
   r.1 = Normal None /\ files r.2 !! "out.mp4" = Some (repeat x00 2000)).
Proof.
  split; [|split].
  - intros Harrive. split.
    + intros fileId H.
      destruct (downloadGoogleDriveFile_cleans env Harrive fuel fileId out isVideo)
        as (m & E & Hm).
      rewrite E in H. exact (call_null out m w w' Hm H).
    + intros url Hid H.
      destruct (downloadFile_drive_cleans env Harrive fuel url out isVideo Hid)
        as (m & E & Hm).
      rewrite E in H. exact (call_null out m w w' Hm H).
  - destruct isVideo; vm_compute; auto.
  - vm_compute. auto.
Qed.

Lemma drive_failure_cleans_up_witness :
  let r := downloadFile warningHost 3 "https://drive.google.com/file/d/XYZ9/view" "out.mp4" true
             emptyWorld in
  files r.2 !! "out.mp4" = files emptyWorld !! "out.mp4" \/ files r.2 !! "out.mp4" = None \/
  exists buf, files r.2 !! "out.mp4" = Some buf /\ length buf <= 1000.
Proof.
  cbv zeta.
  refine (proj2 (proj1 (drive_failure_cleans_up warningHost 3 "out.mp4" true emptyWorld _) _)
            "https://drive.google.com/file/d/XYZ9/view" _ _).
  - intros t. reflexivity.
  - vm_compute. discriminate.
  - vm_compute. reflexivity.
Defined.
